(** * zed-f9r-parser: NMEA decoding, epoch aggregation and local-frame conversion

    A shallow embedding of [nmea_decoder.py], [ucm_calc.py] and the
    line-processing core of [i2c_parser.py], with the properties the
    specification states about them.

    Conventions of the embedding.
    - A Python [str] is a list of Unicode code points ([list N]); [ord] is the
      identity.  Bytes are numbers below 256.
    - A Python [float] is an IEEE-754 binary64 value, represented by
      [spec_float] with precision 53 and maximal exponent 1024; arithmetic is
      the correctly rounded arithmetic of [SpecFloat].
    - A Python [int] is a [Z].
    - [Optional[T]] is [option T]; a call that may raise returns [result]. *)

From Stdlib Require Import ZArith NArith List String Ascii Bool Lia.
From Stdlib Require Import Floats.SpecFloat QArith Qabs.
From stdpp Require Import base option list gmap.

Set Default Proof Using "Type".
Local Open Scope Z_scope.

(* ================================================================== *)
(** * Python values *)
(* ================================================================== *)

Abbreviation str := (list N).

(** Code points of a literal written in the ASCII range. *)
Fixpoint pystr (s : string) : list N :=
  match s with
  | EmptyString => []
  | String c s' => N_of_ascii c :: pystr s'
  end.

Definition chr (c : ascii) : N := N_of_ascii c.

Definition str_eqb (a b : list N) : bool := bool_decide (a = b).

(** [str.isspace] for one character, which is also what [\s] matches in a
    [str] pattern and what [str.strip()] removes. *)
Definition is_space (c : N) : bool :=
  ((9 <=? c) && (c <=? 13) || (28 <=? c) && (c <=? 32)
   || (c =? 133) || (c =? 160) || (c =? 5760)
   || (8192 <=? c) && (c <=? 8202)
   || (c =? 8232) || (c =? 8233) || (c =? 8239) || (c =? 8287)
   || (c =? 12288))%N.

Fixpoint lstrip (s : list N) : list N :=
  match s with
  | c :: s' => if is_space c then lstrip s' else s
  | [] => []
  end.

Definition rstrip (s : list N) : list N := rev (lstrip (rev s)).

(** [s.strip()] *)
Definition strip (s : list N) : list N := rstrip (lstrip s).

(** [s.startswith("$")] *)
Definition startswith_dollar (s : list N) : bool :=
  match s with
  | c :: _ => (c =? 36)%N
  | [] => false
  end.

(** [s.split(sep)] for a one-character separator: never empty. *)
Fixpoint split_on (sep : N) (s : list N) : list (list N) :=
  match s with
  | [] => [[]]
  | c :: s' =>
      if (c =? sep)%N then [] :: split_on sep s'
      else match split_on sep s' with
           | p :: ps => (c :: p) :: ps
           | [] => [[c]]
           end
  end.

(** [s.split(sep, 1)[0]]: the part before the first separator. *)
Fixpoint before_first (sep : N) (s : list N) : list N :=
  match s with
  | [] => []
  | c :: s' => if (c =? sep)%N then [] else c :: before_first sep s'
  end.

(** ["." in s] and the like. *)
Definition contains (c : N) (s : list N) : bool := existsb (N.eqb c) s.

(** [s.upper()], exact on the ASCII letters and on the two other characters
    whose upper-case form is a single ASCII letter (U+0131 and U+017F); the
    remaining characters, none of which becomes an ASCII letter or shortens
    the string, are left as they are. *)
Definition upper_char (c : N) : N :=
  (if (97 <=? c) && (c <=? 122) then c - 32
   else if c =? 305 then 73
   else if c =? 383 then 83
   else c)%N.

Definition upper (s : list N) : list N := map upper_char s.

(* ================================================================== *)
(** * Exceptions *)
(* ================================================================== *)

Inductive exn :=
| RuntimeError_origin_not_set
| RuntimeError_bus_not_opened
| ValueError
| OverflowError
| ZeroDivisionError
| AttributeError
| TypeError.

Inductive result (A : Type) :=
| Ok (a : A)
| Raise (e : exn).
Arguments Ok {A} a.
Arguments Raise {A} e.

Definition rbind {A B} (r : result A) (k : A -> result B) : result B :=
  match r with
  | Ok a => k a
  | Raise e => Raise e
  end.

Notation "x <-? r ; k" := (rbind r (fun x => k))
  (at level 100, r at next level, right associativity).

(** [try: ... except Exception: return None] *)
Definition catch_none {A} (r : result A) : option A :=
  match r with
  | Ok a => Some a
  | Raise _ => None
  end.

(* ================================================================== *)
(** * nmea_decoder.py: utilities *)
(* ================================================================== *)

(** [nmea_checksum_xor]: XOR of [ord(ch)] over the body. *)
Definition nmea_checksum_xor (body : str) : N :=
  fold_left (fun cs ch => N.lxor cs ch) body 0%N.

(** ** The sentence pattern

    [_NMEA_RE = ^\$(?P<body>[^*]+)(?:\*(?P<cs>[0-9A-Fa-f]{2}))?\s*$]
    applied with [match].  The matcher below follows the backtracking order
    of the pattern: the greedy body is tried from its longest candidate
    down to one character, and after each candidate the optional checksum
    group is tried before it is skipped. *)

Definition is_star (c : N) : bool := (c =? 42)%N.

(** [[0-9A-Fa-f]] *)
Definition is_hex (c : N) : bool :=
  ((48 <=? c) && (c <=? 57) || (65 <=? c) && (c <=? 70)
   || (97 <=? c) && (c <=? 102))%N.

(** [\s*$]: only white space up to the end of the string. *)
Definition re_trailer (s : str) : bool := forallb is_space s.

(** [(?:\*(?P<cs>..))?\s*$] from the position after the body: the value of
    group [cs] when the rest of the pattern matches. *)
Definition re_after_body (s : str) : option (option str) :=
  match s with
  | c :: h1 :: h2 :: rest =>
      if is_star c && is_hex h1 && is_hex h2 && re_trailer rest
      then Some (Some [h1; h2])
      else if re_trailer s then Some None else None
  | _ => if re_trailer s then Some None else None
  end.

(** [[^*]+] with [k] characters, [k] descending. *)
Fixpoint re_body (k : nat) (s : str) : option (str * option str) :=
  match k with
  | O => None
  | S k' =>
      if (k <=? length s)%nat && forallb (fun c => negb (is_star c)) (take k s)
      then match re_after_body (drop k s) with
           | Some cs => Some (take k s, cs)
           | None => re_body k' s
           end
      else re_body k' s
  end.

(** [_NMEA_RE.match(line)]: the groups [body] and [cs] of the match. *)
Definition nmea_re_match (line : str) : option (str * option str) :=
  match line with
  | c :: s => if (c =? 36)%N then re_body (length s) s else None
  | [] => None
  end.

(** Value of one hexadecimal digit. *)
Definition hex_val (c : N) : N :=
  (if (48 <=? c) && (c <=? 57) then c - 48
   else if (65 <=? c) && (c <=? 70) then c - 55
   else c - 87)%N.

(** [int(cs_hex, 16)] on the two hexadecimal digits group [cs] holds. *)
Definition int_hex2 (cs : str) : N :=
  fold_left (fun acc c => (16 * acc + hex_val c)%N) cs 0%N.

(* ================================================================== *)
(** * Python floats and integers *)
(* ================================================================== *)

Abbreviation float := spec_float.

Definition prec : Z := 53.
Definition emax : Z := 1024.

Definition fadd : float -> float -> float := SFadd prec emax.
Definition fsub : float -> float -> float := SFsub prec emax.
Definition fmul : float -> float -> float := SFmul prec emax.
Definition fdiv : float -> float -> float := SFdiv prec emax.
Definition fneg : float -> float := SFopp.
Definition fabs : float -> float := SFabs.
Definition fsqrt : float -> float := SFsqrt prec emax.
Definition feqb : float -> float -> bool := SFeqb.
Definition fltb : float -> float -> bool := SFltb.
Definition fleb : float -> float -> bool := SFleb.

Definition is_nan (x : float) : bool :=
  match x with S754_nan => true | _ => false end.
Definition is_inf (x : float) : bool :=
  match x with S754_infinity _ => true | _ => false end.
Definition is_finite (x : float) : bool :=
  match x with S754_zero _ | S754_finite _ _ _ => true | _ => false end.

(** The float nearest to an integer (ties to even). *)
Definition float_of_Z (n : Z) : float := binary_normalize prec emax n 0 false.

(** The float nearest to [m * 10^e10] for a natural number [m], with the sign
    [neg]: what a correctly rounded decimal-to-binary conversion returns. *)
Definition dec_to_float (neg : bool) (m : Z) (e10 : Z) : float :=
  match m with
  | Zpos p =>
      if 0 <=? e10
      then binary_round prec emax neg (Z.to_pos (Zpos p * 10 ^ e10)) 0
      else
        let '(q, e', l) :=
          SFdiv_core_binary prec emax (Zpos p) 0 (10 ^ (- e10)) 0 in
        binary_round_aux prec emax neg q e' l
  | _ => S754_zero neg
  end.

(** [int] converted to [float] in mixed arithmetic ([PyLong_AsDouble]). *)
Definition float_of_int (n : Z) : result float :=
  let f := float_of_Z n in
  if is_inf f then Raise OverflowError else Ok f.

(** The exact value of a finite float, as a rational. *)
Definition float_to_Q (x : float) : Q :=
  match x with
  | S754_finite s m e =>
      let n := if s then Zneg m else Zpos m in
      if 0 <=? e then inject_Z (n * 2 ^ e) else Qmake n (Z.to_pos (2 ^ (- e)))
  | _ => 0%Q
  end.

(** ** Reading numbers from text *)

Definition is_digit (c : N) : bool := ((48 <=? c) && (c <=? 57))%N.
Definition digit_val (c : N) : Z := Z.of_N c - 48.

(** Value of a run of decimal digits, most significant first. *)
Definition digits_val (ds : str) : Z :=
  fold_left (fun acc c => 10 * acc + digit_val c) ds 0.

(** The longest prefix of decimal digits, and what follows it. *)
Fixpoint span_digits (s : str) : str * str :=
  match s with
  | c :: s' =>
      if is_digit c then let '(ds, r) := span_digits s' in (c :: ds, r)
      else ([], s)
  | [] => ([], [])
  end.

(** The decimal digits of Unicode 14.0, the characters for which
    [str.isdecimal] holds: they come in runs of ten, the digits 0 to 9 in
    order, and [decimal_zeros] lists the zero of each run. *)
Definition decimal_zeros : list N :=
  [48; 1632; 1776; 1984; 2406; 2534; 2662; 2790; 2918; 3046; 3174; 3302;
   3430; 3558; 3664; 3792; 3872; 4160; 4240; 6112; 6160; 6470; 6608; 6784;
   6800; 6992; 7088; 7232; 7248; 42528; 43216; 43264; 43472; 43504; 43600;
   44016; 65296; 66720; 68912; 69734; 69872; 69942; 70096; 70384; 70736;
   70864; 71248; 71360; 71472; 71904; 72016; 72784; 73040; 73120; 92768;
   92864; 93008; 120782; 120792; 120802; 120812; 120822; 123200; 123632;
   125264; 130032]%N.

(** The value of a character as a decimal digit, if it is one. *)
Definition to_decimal (c : N) : option N :=
  match find (fun z => (z <=? c) && (c <=? z + 9))%N decimal_zeros with
  | Some z => Some (c - z)%N
  | None => None
  end.

(** What [int()] and [float()] do to the characters of a [str] before they
    read it: a decimal digit becomes the ASCII digit of its value. *)
Definition ascii_digit (c : N) : N :=
  match to_decimal c with
  | Some d => (48 + d)%N
  | None => c
  end.

(** The default of [sys.get_int_max_str_digits()], which the program does not
    change: [int()] refuses a decimal text with more digits. *)
Definition int_max_str_digits : Z := 4300.

(** White space that [int()] and [float()] skip at both ends: the ASCII
    white space of C, and the Unicode white space above the ASCII range
    (which CPython turns into a blank first).  The separators U+001C to
    U+001F are not skipped. *)
Definition is_num_space (c : N) : bool :=
  ((9 <=? c) && (c <=? 13) || (c =? 32) || (127 <=? c) && is_space c)%N.

Fixpoint num_lstrip (s : str) : str :=
  match s with
  | c :: s' => if is_num_space c then num_lstrip s' else s
  | [] => []
  end.

Definition num_strip (s : str) : str := rev (num_lstrip (rev (num_lstrip s))).

(** An optional sign. *)
Definition read_sign (s : str) : bool * str :=
  match s with
  | 43%N :: r => (false, r)
  | 45%N :: r => (true, r)
  | _ => (false, s)
  end.

(** Digits with single underscores between them, as [int()] accepts them:
    [prev_us] tells whether the previous character was an underscore. *)
Fixpoint int_digits (prev_us : bool) (s : str) : option str :=
  match s with
  | [] => if prev_us then None else Some []
  | c :: s' =>
      if is_digit c then option_map (cons c) (int_digits false s')
      else if (c =? 95)%N then
        if prev_us then None else int_digits true s'
      else None
  end.

(** [int(x)] for a [str] argument, base ten: white space at both ends, an
    optional sign, digits with single underscores between them, and no more
    than [int_max_str_digits] digits. *)
Definition py_int (x : str) : result Z :=
  let '(neg, r) := read_sign (num_strip (map ascii_digit x)) in
  match r with
  | c :: _ =>
      if is_digit c then
        match int_digits false r with
        | Some ds =>
            if int_max_str_digits <? Z.of_nat (length ds)
            then Raise ValueError
            else Ok (if neg then - digits_val ds else digits_val ds)
        | None => Raise ValueError
        end
      else Raise ValueError
  | [] => Raise ValueError
  end.

(** Underscores in a [float()] literal must stand between two digits. *)
Fixpoint float_underscores_ok (prev : option N) (s : str) : bool :=
  match s with
  | [] => true
  | c :: s' =>
      if (c =? 95)%N then
        match prev, s' with
        | Some p, n :: _ => is_digit p && is_digit n && float_underscores_ok (Some c) s'
        | _, _ => false
        end
      else float_underscores_ok (Some c) s'
  end.

Definition lower_ascii (c : N) : N :=
  (if (65 <=? c) && (c <=? 90) then c + 32 else c)%N.

(** The exponent part: [e] or [E], an optional sign, at least one digit.
    Returns the exponent and the rest; an incomplete exponent is not
    consumed. *)
Definition read_exponent (s : str) : Z * str :=
  match s with
  | c :: r =>
      if (lower_ascii c =? 101)%N then
        let '(neg, r1) := read_sign r in
        let '(ds, r2) := span_digits r1 in
        match ds with
        | [] => (0, s)
        | _ => ((if neg then - digits_val ds else digits_val ds), r2)
        end
      else (0, s)
  | [] => (0, s)
  end.

(** [float(x)] for a [str] argument. *)
Definition py_float (x : str) : result float :=
  let s := num_strip (map ascii_digit x) in
  if negb (float_underscores_ok None s) then Raise ValueError else
  let s := filter (fun c => c <> 95%N) s in
  let '(neg, r) := read_sign s in
  let low := map lower_ascii r in
  if str_eqb low (pystr "inf") || str_eqb low (pystr "infinity")
  then Ok (S754_infinity neg)
  else if str_eqb low (pystr "nan") then Ok S754_nan
  else
    let '(ip, r1) := span_digits r in
    let '(fp, r2) :=
      match r1 with
      | 46%N :: r1' => span_digits r1'
      | _ => ([], r1)
      end in
    match ip ++ fp with
    | [] => Raise ValueError
    | ds =>
        let '(ex, r3) := read_exponent r2 in
        match r3 with
        | [] => Ok (dec_to_float neg (digits_val ds) (ex - Z.of_nat (length fp)))
        | _ => Raise ValueError
        end
    end.

(** A float literal of the source text. *)
Definition float_lit (s : string) : float :=
  match py_float (pystr s) with
  | Ok f => f
  | Raise _ => S754_nan
  end.

(** [to_int]: an empty field is absent; a field [int()] rejects is absent. *)
Definition to_int (x : str) : option Z :=
  match x with
  | [] => None
  | _ => catch_none (py_int x)
  end.

(** [to_float] *)
Definition to_float (x : str) : option float :=
  match x with
  | [] => None
  | _ => catch_none (py_float x)
  end.

Definition sixty : float := float_lit "60.0".

(** [hemi.upper() in ("N", "S")] and [hemi.upper() in ("S", "W")] *)
Definition hemi_is_NS (hemi : str) : bool :=
  str_eqb (upper hemi) (pystr "N") || str_eqb (upper hemi) (pystr "S").
Definition hemi_is_SW (hemi : str) : bool :=
  str_eqb (upper hemi) (pystr "S") || str_eqb (upper hemi) (pystr "W").

(** The body of the [try] block of [parse_lat_lon]. *)
Definition parse_lat_lon_try (nmea_value hemi : str) : result (option float) :=
  if negb (contains 46%N nmea_value) then Ok None else
  let deg_digits := if hemi_is_NS hemi then 2%nat else 3%nat in
  deg <-? py_int (take deg_digits nmea_value);
  minutes <-? py_float (drop deg_digits nmea_value);
  degf <-? float_of_int deg;
  let dec := fadd degf (fdiv minutes sixty) in
  let dec := if hemi_is_SW hemi then fneg dec else dec in
  Ok (Some dec).

(** [parse_lat_lon] *)
Definition parse_lat_lon (nmea_value hemi : str) : option float :=
  match nmea_value, hemi with
  | [], _ | _, [] => None
  | _, _ => mjoin (catch_none (parse_lat_lon_try nmea_value hemi))
  end.

(* ================================================================== *)
(** * Messages *)
(* ================================================================== *)

(** The fields every [NMEAMessage] has. *)
Record NMEABase := {
  talker : str;
  msg_type : str;
  raw : str;
  fields : list str;
  checksum_ok : option bool;
}.

Record GGAData := {
  gga_utc_time : option str;
  gga_lat_deg : option float;
  gga_lon_deg : option float;
  gga_fix_quality : option Z;
  gga_num_sats : option Z;
  gga_hdop : option float;
  gga_altitude_m : option float;
  gga_geoid_sep_m : option float;
}.

Record GSAData := {
  gsa_mode1 : option str;
  gsa_mode2 : option Z;
  gsa_sat_prns : list Z;
  gsa_pdop : option float;
  gsa_hdop : option float;
  gsa_vdop : option float;
}.

Record RMCData := {
  rmc_utc_time : option str;
  rmc_status : option str;
  rmc_lat_deg : option float;
  rmc_lon_deg : option float;
  rmc_sog_knots : option float;
  rmc_cog_deg : option float;
  rmc_date_ddmmyy : option str;
}.

Record VTGData := {
  vtg_true_track_deg : option float;
  vtg_mag_track_deg : option float;
  vtg_sog_knots : option float;
  vtg_sog_kmh : option float;
}.

Record GLLData := {
  gll_lat_deg : option float;
  gll_lon_deg : option float;
  gll_utc_time : option str;
  gll_status : option str;
}.

Record TXTData := {
  txt_total : option Z;
  txt_number : option Z;
  txt_text_id : option Z;
  txt_text : option str;
}.

(** The subclasses of [NMEAMessage]. *)
Inductive NMEAKind :=
| NMEAGGA (d : GGAData)
| NMEAGSA (d : GSAData)
| NMEARMC (d : RMCData)
| NMEAVTG (d : VTGData)
| NMEAGLL (d : GLLData)
| NMEATXT (d : TXTData)
| NMEAGeneric.

Record NMEAMessage := {
  base : NMEABase;
  kind : NMEAKind;
}.

Definition mk_base (talker msg_type raw : str) (fields : list str)
    (checksum_ok : option bool) : NMEABase :=
  {| talker := talker; msg_type := msg_type; raw := raw; fields := fields;
     checksum_ok := checksum_ok |}.

(** [(fields + [""] * n)[:n]] *)
Definition pad (n : nat) (fields : list str) : list str :=
  take n (fields ++ replicate n []).

(** [f[i]] on a padded list. *)
Definition fld (f : list str) (i : nat) : str := nth i f [].

(** [x or None] for a string. *)
Definition or_none (x : str) : option str :=
  match x with [] => None | _ => Some x end.

Definition Parser : Type :=
  str -> str -> str -> list str -> option bool -> NMEAMessage.

Definition _parse_gga : Parser := fun talker msg_type raw fields checksum_ok =>
  let f := pad 14 fields in
  let utc_time := or_none (fld f 0) in
  let lat := parse_lat_lon (fld f 1) (fld f 2) in
  let lon := parse_lat_lon (fld f 3) (fld f 4) in
  let fixq := to_int (fld f 5) in
  let nsat := to_int (fld f 6) in
  let hdop := to_float (fld f 7) in
  let alt := to_float (fld f 8) in
  let geoid := to_float (fld f 10) in
  {| base := mk_base talker msg_type raw fields checksum_ok;
     kind := NMEAGGA {| gga_utc_time := utc_time; gga_lat_deg := lat;
                        gga_lon_deg := lon; gga_fix_quality := fixq;
                        gga_num_sats := nsat; gga_hdop := hdop;
                        gga_altitude_m := alt; gga_geoid_sep_m := geoid |} |}.

Definition _parse_gsa : Parser := fun talker msg_type raw fields checksum_ok =>
  let f := pad 17 fields in
  let mode1 := or_none (fld f 0) in
  let mode2 := to_int (fld f 1) in
  let prns := omap to_int (take 12 (drop 2 f)) in
  let pdop := to_float (fld f 14) in
  let hdop := to_float (fld f 15) in
  let vdop := to_float (fld f 16) in
  {| base := mk_base talker msg_type raw fields checksum_ok;
     kind := NMEAGSA {| gsa_mode1 := mode1; gsa_mode2 := mode2;
                        gsa_sat_prns := prns; gsa_pdop := pdop;
                        gsa_hdop := hdop; gsa_vdop := vdop |} |}.

Definition _parse_rmc : Parser := fun talker msg_type raw fields checksum_ok =>
  let f := pad 12 fields in
  let utc_time := or_none (fld f 0) in
  let status := or_none (fld f 1) in
  let lat := parse_lat_lon (fld f 2) (fld f 3) in
  let lon := parse_lat_lon (fld f 4) (fld f 5) in
  let sog_kn := to_float (fld f 6) in
  let cog := to_float (fld f 7) in
  let date := or_none (fld f 8) in
  {| base := mk_base talker msg_type raw fields checksum_ok;
     kind := NMEARMC {| rmc_utc_time := utc_time; rmc_status := status;
                        rmc_lat_deg := lat; rmc_lon_deg := lon;
                        rmc_sog_knots := sog_kn; rmc_cog_deg := cog;
                        rmc_date_ddmmyy := date |} |}.

Definition _parse_vtg : Parser := fun talker msg_type raw fields checksum_ok =>
  let f := pad 9 fields in
  let true_track := to_float (fld f 0) in
  let mag_track := to_float (fld f 2) in
  let sog_kn := to_float (fld f 4) in
  let sog_kmh := to_float (fld f 6) in
  {| base := mk_base talker msg_type raw fields checksum_ok;
     kind := NMEAVTG {| vtg_true_track_deg := true_track;
                        vtg_mag_track_deg := mag_track;
                        vtg_sog_knots := sog_kn; vtg_sog_kmh := sog_kmh |} |}.

Definition _parse_gll : Parser := fun talker msg_type raw fields checksum_ok =>
  let f := pad 7 fields in
  let lat := parse_lat_lon (fld f 0) (fld f 1) in
  let lon := parse_lat_lon (fld f 2) (fld f 3) in
  let utc_time := or_none (fld f 4) in
  let status := or_none (fld f 5) in
  {| base := mk_base talker msg_type raw fields checksum_ok;
     kind := NMEAGLL {| gll_lat_deg := lat; gll_lon_deg := lon;
                        gll_utc_time := utc_time; gll_status := status |} |}.

Definition _parse_txt : Parser := fun talker msg_type raw fields checksum_ok =>
  let f := pad 4 fields in
  let total := to_int (fld f 0) in
  let number := to_int (fld f 1) in
  let text_id := to_int (fld f 2) in
  let text := or_none (fld f 3) in
  {| base := mk_base talker msg_type raw fields checksum_ok;
     kind := NMEATXT {| txt_total := total; txt_number := number;
                        txt_text_id := text_id; txt_text := text |} |}.

(* ================================================================== *)
(** * Epoch frames *)
(* ================================================================== *)

(** [EpochFrame].  [messages_by_type] maps a sentence type to the messages
    of that type in arrival order. *)
Record EpochFrame := {
  epoch_id : Z;
  t_recv_s : float;
  messages_by_type : gmap (list N) (list NMEAMessage);
}.

(** [EpochFrame.get] *)
Definition frame_get (fr : EpochFrame) (ty : str) : list NMEAMessage :=
  default [] (messages_by_type fr !! ty).

(** [EpochFrame.add]:
    [self.messages_by_type.setdefault(msg.msg_type, []).append(msg)] *)
Definition frame_add (msg : NMEAMessage) (fr : EpochFrame) : EpochFrame :=
  {| epoch_id := epoch_id fr;
     t_recv_s := t_recv_s fr;
     messages_by_type :=
       <[ msg_type (base msg) := frame_get fr (msg_type (base msg)) ++ [msg] ]>
         (messages_by_type fr) |}.

Definition is_gga (m : NMEAMessage) : bool :=
  match kind m with NMEAGGA _ => true | _ => false end.

(** [EpochFrame.GGA]: the messages stored under "GGA" that are [NMEAGGA]
    instances. *)
Definition frame_GGA (fr : EpochFrame) : list NMEAMessage :=
  filter (fun m => is_gga m = true) (frame_get fr (pystr "GGA")).

(** Frames are objects: the program holds references to them, and a frame
    changes under every reference when a message is added.  [Heap] is the
    store of all frames created so far. *)
Abbreviation loc := nat.
Abbreviation Heap := (gmap nat EpochFrame).

(** A new object has a reference no existing object has. *)
Definition alloc (h : Heap) (fr : EpochFrame) : loc * Heap :=
  let l := fresh (dom h) in (l, <[ l := fr ]> h).

(* ================================================================== *)
(** * The decoder *)
(* ================================================================== *)

Record NMEADecoder := {
  verify_checksum : bool;
  _epoch_counter : Z;
  _current : option loc;
  _parsers : gmap (list N) Parser;
  _aliases : gmap (list N) (list N);
}.

(** The registry [__init__] installs. *)
Definition default_parsers : gmap (list N) Parser :=
  <[ pystr "GGA" := _parse_gga ]>
  (<[ pystr "GSA" := _parse_gsa ]>
  (<[ pystr "RMC" := _parse_rmc ]>
  (<[ pystr "VTG" := _parse_vtg ]>
  (<[ pystr "GLL" := _parse_gll ]>
  (<[ pystr "TXT" := _parse_txt ]> ∅))))).

(** [NMEADecoder(verify_checksum=...)] *)
Definition NMEADecoder_init (verify : bool) : NMEADecoder :=
  {| verify_checksum := verify;
     _epoch_counter := 0;
     _current := None;
     _parsers := default_parsers;
     _aliases := ∅ |}.

Definition set_current (d : NMEADecoder) (c : option loc) : NMEADecoder :=
  {| verify_checksum := verify_checksum d;
     _epoch_counter := _epoch_counter d;
     _current := c;
     _parsers := _parsers d;
     _aliases := _aliases d |}.

Definition set_counter (d : NMEADecoder) (n : Z) : NMEADecoder :=
  {| verify_checksum := verify_checksum d;
     _epoch_counter := n;
     _current := _current d;
     _parsers := _parsers d;
     _aliases := _aliases d |}.

(** [register_parser] *)
Definition register_parser (d : NMEADecoder) (ty : str) (parser_fn : Parser)
    : NMEADecoder :=
  {| verify_checksum := verify_checksum d;
     _epoch_counter := _epoch_counter d;
     _current := _current d;
     _parsers := <[ ty := parser_fn ]> (_parsers d);
     _aliases := _aliases d |}.

(** [register_alias] *)
Definition register_alias (d : NMEADecoder) (ty target_type : str)
    : NMEADecoder :=
  {| verify_checksum := verify_checksum d;
     _epoch_counter := _epoch_counter d;
     _current := _current d;
     _parsers := _parsers d;
     _aliases := <[ ty := target_type ]> (_aliases d) |}.

(** [begin_epoch(epoch_id, t_recv_s)].  [now] is what [time.time()] returns
    if it is called. *)
Definition begin_epoch (d : NMEADecoder) (h : Heap) (eid : option Z)
    (t : option float) (now : float) : NMEADecoder * Heap * loc :=
  let '(d1, eid1) :=
    match eid with
    | None => (set_counter d (_epoch_counter d + 1), _epoch_counter d + 1)
    | Some e => (d, e)
    end in
  let t1 := default now t in
  let '(l, h1) :=
    alloc h {| epoch_id := eid1; t_recv_s := t1; messages_by_type := ∅ |} in
  (set_current d1 (Some l), h1, l).

(** [end_epoch] *)
Definition end_epoch (d : NMEADecoder) : option loc * NMEADecoder :=
  (_current d, set_current d None).

(** [current_frame] *)
Definition current_frame (d : NMEADecoder) : option loc := _current d.

(** [_parse_line] *)
Definition _parse_line (d : NMEADecoder) (line : str) : option NMEAMessage :=
  match nmea_re_match line with
  | None => None
  | Some (body, cs_hex) =>
      let checksum_ok : option bool :=
        match verify_checksum d, cs_hex with
        | true, Some cs =>
            let expected := int_hex2 cs in
            let actual := nmea_checksum_xor body in
            Some (expected =? actual)%N
        | _, _ => None
        end in
      match checksum_ok with
      | Some false => None             (* checksum fail: drop *)
      | _ =>
          match split_on 44%N body with
          | [] => None
          | header :: fields =>
              if (length header <? 5)%nat then None else
              let talker := take 2 header in
              let msg_type := drop 2 header in
              let parse_type := default msg_type (_aliases d !! msg_type) in
              match _parsers d !! parse_type with
              | None =>
                  Some {| base := mk_base talker msg_type line fields checksum_ok;
                          kind := NMEAGeneric |}
              | Some parser => Some (parser talker msg_type line fields checksum_ok)
              end
          end
      end
  end.

(** [feed_line(line, epoch_id=...)]: the message returned, and the decoder
    and the frames afterwards. *)
Definition feed_line (d : NMEADecoder) (h : Heap) (line : str)
    (eid : option Z) (now : float)
    : option NMEAMessage * NMEADecoder * Heap :=
  let line := strip line in
  if negb (startswith_dollar line) then (None, d, h) else
  match _parse_line d line with
  | None => (None, d, h)
  | Some msg =>
      let '(d1, h1, l) :=
        match _current d with
        | None => begin_epoch d h eid None now
        | Some l => (d, h, l)
        end in
      (Some msg, d1, alter (frame_add msg) l h1)
  end.

(* ================================================================== *)
(** * ucm_calc.py *)
(* ================================================================== *)

(** ** Float operations of Python that are not plain IEEE operations *)

(** [x / y]: division by zero raises. *)
Definition py_truediv (x y : float) : result float :=
  match y with
  | S754_zero _ => Raise ZeroDivisionError
  | _ => Ok (fdiv x y)
  end.

(** C [fmod]: the exact remainder of the truncated quotient, with the sign of
    the dividend. *)
Definition float_fmod (x y : float) : float :=
  match x, y with
  | S754_nan, _ | _, S754_nan => S754_nan
  | S754_infinity _, _ => S754_nan
  | _, S754_zero _ => S754_nan
  | S754_zero _, _ => x
  | S754_finite _ _ _, S754_infinity _ => x
  | S754_finite sx mx ex, S754_finite _ my ey =>
      let e := Z.min ex ey in
      let r := (Zpos mx * 2 ^ (ex - e)) mod (Zpos my * 2 ^ (ey - e)) in
      binary_normalize prec emax (cond_Zopp sx r) e sx
  end.

(** C [floor] *)
Definition float_floor (x : float) : float :=
  match x with
  | S754_finite s m e =>
      if 0 <=? e then x
      else binary_normalize prec emax ((cond_Zopp s (Zpos m)) / 2 ^ (- e)) 0 false
  | _ => x
  end.

Definition fzero : float := S754_zero false.
Definition fone : float := float_of_Z 1.
Definition fhalf : float := float_lit "0.5".

(** C [copysign(0.0, x)] *)
Definition zero_with_sign_of (x : float) : float :=
  match x with
  | S754_zero s | S754_infinity s | S754_finite s _ _ => S754_zero s
  | S754_nan => S754_zero false
  end.

Definition is_zero (x : float) : bool :=
  match x with S754_zero _ => true | _ => false end.

(** [x // y] on floats: the quotient part of [float_divmod]. *)
Definition py_floordiv (vx wx : float) : result float :=
  if is_zero wx then Raise ZeroDivisionError else
  let md := float_fmod vx wx in
  let div := fdiv (fsub vx md) wx in
  let div :=
    if negb (is_zero md) && negb (Bool.eqb (fltb wx fzero) (fltb md fzero))
    then fsub div fone else div in
  if negb (is_zero div) then
    let fl := float_floor div in
    Ok (if fltb fhalf (fsub div fl) then fadd fl fone else fl)
  else Ok (zero_with_sign_of (fdiv vx wx)).

(** [int(x)] for a float: truncation; not defined on NaN and infinities. *)
Definition int_of_float (x : float) : result Z :=
  match x with
  | S754_nan => Raise ValueError
  | S754_infinity _ => Raise OverflowError
  | S754_zero _ => Ok 0
  | S754_finite s m e =>
      Ok (cond_Zopp s (if 0 <=? e then Zpos m * 2 ^ e else Zpos m / 2 ^ (- e)))
  end.

(** [math.sqrt] *)
Definition math_sqrt (x : float) : result float :=
  let r := fsqrt x in
  if is_nan r && negb (is_nan x) then Raise ValueError else Ok r.

(** ** Constants *)

Definition WGS84_A : float := float_lit "6378137.0".
Definition WGS84_F : float := fdiv (float_lit "1.0") (float_lit "298.257223563").
Definition WGS84_E2 : float := fmul WGS84_F (fsub (float_lit "2.0") WGS84_F).
Definition K0 : float := float_lit "0.9996".

Inductive Hemisphere := HemiN | HemiS.

Record UTMCoord := {
  easting_m : float;
  northing_m : float;
  zone : Z;
  hemisphere : Hemisphere;
}.

Record UCMCoord := {
  ucm_x : float;
  ucm_y : float;
  ucm_zone : Z;
  ucm_hemisphere : Hemisphere;
}.

(** [_deg2rad] *)
Definition _deg2rad (deg : float) : float :=
  fdiv (fmul deg (float_lit "3.141592653589793")) (float_lit "180.0").

(** [utm_zone_from_lon] *)
Definition utm_zone_from_lon (lon_deg : float) : result Z :=
  let lon := if feqb lon_deg (float_lit "180.0") then float_lit "179.999999"
             else lon_deg in
  q <-? py_floordiv (fadd lon (float_lit "180.0")) (float_lit "6.0");
  n <-? int_of_float q;
  Ok (n + 1).

Section Projection.

(** The functions of the C mathematical library behind [math.sin],
    [math.cos], [math.tan] and behind [**] on floats are not part of the
    program.  [None] stands for a call that raises ([ValueError] for the
    trigonometric functions, [OverflowError] for a power). *)
Variables math_sin math_cos math_tan : float -> option float.
Variable float_pow : float -> Z -> option float.

Definition call_math (f : float -> option float) (x : float) : result float :=
  match f x with
  | Some r => Ok r
  | None => Raise ValueError
  end.

Definition pow (x : float) (n : Z) : result float :=
  match float_pow x n with
  | Some r => Ok r
  | None => Raise OverflowError
  end.

Definition fl := float_lit.

(** [latlon_to_utm] *)
Definition latlon_to_utm (lat_deg lon_deg : float) (zone : option Z)
    : result UTMCoord :=
  zone <-? match zone with
           | None => utm_zone_from_lon lon_deg
           | Some z => Ok z
           end;
  let hemisphere := if fleb (fl "0.0") lat_deg then HemiN else HemiS in
  let lat := _deg2rad lat_deg in
  let lon := _deg2rad lon_deg in
  let lon0_deg := (zone - 1) * 6 - 180 + 3 in
  lon0_degf <-? float_of_int lon0_deg;
  let lon0 := _deg2rad lon0_degf in
  let e2 := WGS84_E2 in
  ep2 <-? py_truediv e2 (fsub (fl "1.0") e2);
  sin_lat <-? call_math math_sin lat;
  cos_lat <-? call_math math_cos lat;
  tan_lat <-? call_math math_tan lat;
  root <-? math_sqrt (fsub (fl "1.0") (fmul (fmul e2 sin_lat) sin_lat));
  N <-? py_truediv WGS84_A root;
  let T := fmul tan_lat tan_lat in
  let C := fmul (fmul ep2 cos_lat) cos_lat in
  let A := fmul cos_lat (fsub lon lon0) in
  (* Meridional arc *)
  e2_3a <-? pow e2 3;
  e2_3b <-? pow e2 3;
  sin2 <-? call_math math_sin (fmul (fl "2.0") lat);
  e2_3c <-? pow e2 3;
  sin4 <-? call_math math_sin (fmul (fl "4.0") lat);
  e2_3d <-? pow e2 3;
  sin6 <-? call_math math_sin (fmul (fl "6.0") lat);
  let M :=
    fmul WGS84_A
      (fsub
         (fadd
            (fsub
               (fmul
                  (fsub
                     (fsub (fsub (fl "1.0") (fdiv e2 (fl "4.0")))
                           (fdiv (fmul (fmul (fl "3.0") e2) e2) (fl "64.0")))
                     (fdiv (fmul (fl "5.0") e2_3a) (fl "256.0")))
                  lat)
               (fmul
                  (fadd
                     (fadd (fdiv (fmul (fl "3.0") e2) (fl "8.0"))
                           (fdiv (fmul (fmul (fl "3.0") e2) e2) (fl "32.0")))
                     (fdiv (fmul (fl "45.0") e2_3b) (fl "1024.0")))
                  sin2))
            (fmul
               (fadd (fdiv (fmul (fmul (fl "15.0") e2) e2) (fl "256.0"))
                     (fdiv (fmul (fl "45.0") e2_3c) (fl "1024.0")))
               sin4))
         (fmul (fdiv (fmul (fl "35.0") e2_3d) (fl "3072.0")) sin6)) in
  (* Easting *)
  A3 <-? pow A 3;
  T2 <-? pow T 2;
  A5 <-? pow A 5;
  let easting :=
    fadd
      (fmul (fmul K0 N)
         (fadd
            (fadd A
               (fdiv (fmul (fadd (fsub (fl "1.0") T) C) A3) (fl "6.0")))
            (fdiv
               (fmul
                  (fsub
                     (fadd
                        (fadd (fsub (fl "5.0") (fmul (fl "18.0") T)) T2)
                        (fmul (fl "72.0") C))
                     (fmul (fl "58.0") ep2))
                  A5)
               (fl "120.0"))))
      (fl "500000.0") in
  (* Northing *)
  A2 <-? pow A 2;
  C2 <-? pow C 2;
  A4 <-? pow A 4;
  T2' <-? pow T 2;
  A6 <-? pow A 6;
  let northing :=
    fmul K0
      (fadd M
         (fmul (fmul N tan_lat)
            (fadd
               (fadd (fdiv A2 (fl "2.0"))
                  (fdiv
                     (fmul
                        (fadd
                           (fadd (fsub (fl "5.0") T) (fmul (fl "9.0") C))
                           (fmul (fl "4.0") C2))
                        A4)
                     (fl "24.0")))
               (fdiv
                  (fmul
                     (fsub
                        (fadd
                           (fadd (fsub (fl "61.0") (fmul (fl "58.0") T)) T2')
                           (fmul (fl "600.0") C))
                        (fmul (fl "330.0") ep2))
                     A6)
                  (fl "720.0"))))) in
  (* False northing for southern hemisphere *)
  let northing :=
    match hemisphere with
    | HemiS => fadd northing (fl "10000000.0")
    | HemiN => northing
    end in
  Ok {| easting_m := easting; northing_m := northing; zone := zone;
        hemisphere := hemisphere |}.

(** ** [UCMConverter] *)

Record UCMConverter := {
  fixed_zone : option Z;
  _origin_utm : option UTMCoord;
}.

(** [UCMConverter(fixed_zone=...)] *)
Definition UCMConverter_init (fz : option Z) : UCMConverter :=
  {| fixed_zone := fz; _origin_utm := None |}.

(** [ucm_from_latlon] *)
Definition ucm_from_latlon (c : UCMConverter) (lat_deg lon_deg : float)
    : result UCMCoord :=
  utm <-? latlon_to_utm lat_deg lon_deg (fixed_zone c);
  Ok {| ucm_x := easting_m utm; ucm_y := northing_m utm;
        ucm_zone := zone utm; ucm_hemisphere := hemisphere utm |}.

(** [set_origin_from_latlon]: the converter afterwards. *)
Definition set_origin_from_latlon (c : UCMConverter) (lat_deg lon_deg : float)
    : result UCMConverter :=
  utm <-? latlon_to_utm lat_deg lon_deg (fixed_zone c);
  Ok {| fixed_zone := fixed_zone c; _origin_utm := Some utm |}.

(** [to_local_xy] *)
Definition to_local_xy (c : UCMConverter) (lat_deg lon_deg : float)
    : result (float * float) :=
  match _origin_utm c with
  | None => Raise RuntimeError_origin_not_set
  | Some origin =>
      cur <-? latlon_to_utm lat_deg lon_deg (Some (zone origin));
      let x := fsub (easting_m cur) (easting_m origin) in
      let y := fsub (northing_m cur) (northing_m origin) in
      Ok (x, y)
  end.

End Projection.

(** [extract_latlon_from_nmea_message]: the [lat_deg] and [lon_deg]
    attributes of the message, when it has both and neither is [None]. *)
Definition extract_latlon_from_nmea_message (msg : NMEAMessage)
    : option (float * float) :=
  let '(lat, lon) :=
    match kind msg with
    | NMEAGGA d => (gga_lat_deg d, gga_lon_deg d)
    | NMEARMC d => (rmc_lat_deg d, rmc_lon_deg d)
    | NMEAGLL d => (gll_lat_deg d, gll_lon_deg d)
    | _ => (None, None)
    end in
  match lat, lon with
  | Some la, Some lo => Some (la, lo)
  | _, _ => None
  end.

(* ================================================================== *)
(** * i2c_parser.py *)
(* ================================================================== *)

Record UCMResult := {
  ucm_epoch_id : Z;
  ucm_t_recv_s : float;
  x_m : float;
  y_m : float;
  lat_deg : option float;
  lon_deg : option float;
}.

(** What a callback may hand back: [None], an object with attributes [x_m]
    and [y_m], or an object without them. *)
Inductive PyObj :=
| PyNone
| PyHasXY (x y : float)
| PyOther.

(** [obj.x_m], [obj.y_m] *)
Definition getattr_x_m (o : PyObj) : result float :=
  match o with PyHasXY x _ => Ok x | _ => Raise AttributeError end.
Definition getattr_y_m (o : PyObj) : result float :=
  match o with PyHasXY _ y => Ok y | _ => Raise AttributeError end.

(** [I2CGNSSParser.is_gga_sentence] *)
Definition is_gga_sentence (line : str) : bool :=
  let line := strip line in
  if negb (startswith_dollar line) then false else
  let body := before_first 42%N (drop 1 line) in
  let head := before_first 44%N body in
  (5 <=? length head)%nat && str_eqb (take 3 (drop 2 head)) (pystr "GGA").

(** [bytes.decode("ascii", errors="replace")]: every byte outside the ASCII
    range becomes U+FFFD. *)
Definition decode_ascii_replace (bs : list N) : str :=
  map (fun b => if (b <? 128)%N then b else 65533%N) bs.

Section Parser.

Variables math_sin math_cos math_tan : float -> option float.
Variable float_pow : float -> Z -> option float.

Local Abbreviation set_origin_from_latlon :=
  (set_origin_from_latlon math_sin math_cos math_tan float_pow).
Local Abbreviation to_local_xy :=
  (to_local_xy math_sin math_cos math_tan float_pow).

(** The state of an [I2CGNSSParser].  The callbacks are observers: they are
    handed a value and return or raise; [bus_open] tells whether [_bus] is
    set.  [last_succesful_ucm] is the two-element list [__init__] stores. *)
Record I2CGNSSParser := {
  max_chunk : Z;
  drop_ff_padding : bool;
  decoder : NMEADecoder;
  ucm : UCMConverter;
  _origin_set : bool;
  on_ucm : option (UCMResult -> result PyObj);
  on_epoch_end : option (EpochFrame -> result unit);
  _line_buf : list N;
  _pending_ucm : list UCMResult;
  bus_open : bool;
  last_succesful_frame : option loc;
  last_succesful_ucm : list Z;
}.

Definition set_decoder (p : I2CGNSSParser) (d : NMEADecoder) : I2CGNSSParser :=
  {| max_chunk := max_chunk p; drop_ff_padding := drop_ff_padding p;
     decoder := d; ucm := ucm p; _origin_set := _origin_set p;
     on_ucm := on_ucm p; on_epoch_end := on_epoch_end p;
     _line_buf := _line_buf p; _pending_ucm := _pending_ucm p;
     bus_open := bus_open p;
     last_succesful_frame := last_succesful_frame p;
     last_succesful_ucm := last_succesful_ucm p |}.

Definition set_ucm (p : I2CGNSSParser) (c : UCMConverter) (os : bool)
    : I2CGNSSParser :=
  {| max_chunk := max_chunk p; drop_ff_padding := drop_ff_padding p;
     decoder := decoder p; ucm := c; _origin_set := os;
     on_ucm := on_ucm p; on_epoch_end := on_epoch_end p;
     _line_buf := _line_buf p; _pending_ucm := _pending_ucm p;
     bus_open := bus_open p;
     last_succesful_frame := last_succesful_frame p;
     last_succesful_ucm := last_succesful_ucm p |}.

Definition set_line_buf (p : I2CGNSSParser) (b : list N) : I2CGNSSParser :=
  {| max_chunk := max_chunk p; drop_ff_padding := drop_ff_padding p;
     decoder := decoder p; ucm := ucm p; _origin_set := _origin_set p;
     on_ucm := on_ucm p; on_epoch_end := on_epoch_end p;
     _line_buf := b; _pending_ucm := _pending_ucm p;
     bus_open := bus_open p;
     last_succesful_frame := last_succesful_frame p;
     last_succesful_ucm := last_succesful_ucm p |}.

Definition set_pending (p : I2CGNSSParser) (l : list UCMResult)
    : I2CGNSSParser :=
  {| max_chunk := max_chunk p; drop_ff_padding := drop_ff_padding p;
     decoder := decoder p; ucm := ucm p; _origin_set := _origin_set p;
     on_ucm := on_ucm p; on_epoch_end := on_epoch_end p;
     _line_buf := _line_buf p; _pending_ucm := l;
     bus_open := bus_open p;
     last_succesful_frame := last_succesful_frame p;
     last_succesful_ucm := last_succesful_ucm p |}.

Definition set_last_frame (p : I2CGNSSParser) (l : option loc)
    : I2CGNSSParser :=
  {| max_chunk := max_chunk p; drop_ff_padding := drop_ff_padding p;
     decoder := decoder p; ucm := ucm p; _origin_set := _origin_set p;
     on_ucm := on_ucm p; on_epoch_end := on_epoch_end p;
     _line_buf := _line_buf p; _pending_ucm := _pending_ucm p;
     bus_open := bus_open p;
     last_succesful_frame := l;
     last_succesful_ucm := last_succesful_ucm p |}.

(** [I2CGNSSParser(...)] with the given keyword arguments, and the frames
    afterwards: the decoder is created and epoch 1 is begun. *)
Definition I2CGNSSParser_init (max_chunk : Z) (fixed_zone : option Z)
    (verify_checksum drop_ff_padding : bool)
    (on_ucm : option (UCMResult -> result PyObj))
    (on_epoch_end : option (EpochFrame -> result unit))
    (h : Heap) (now : float) : I2CGNSSParser * Heap :=
  let '(d, h1, _) :=
    begin_epoch (NMEADecoder_init verify_checksum) h (Some 1) None now in
  ({| max_chunk := max_chunk; drop_ff_padding := drop_ff_padding;
      decoder := d; ucm := UCMConverter_init fixed_zone;
      _origin_set := false;
      on_ucm := on_ucm; on_epoch_end := on_epoch_end;
      _line_buf := []; _pending_ucm := [];
      bus_open := false;
      last_succesful_frame := None;
      last_succesful_ucm := [0; 0] |}, h1).

(** The defaults of the constructor. *)
Definition I2CGNSSParser_default (h : Heap) (now : float)
    : I2CGNSSParser * Heap :=
  I2CGNSSParser_init 32 (Some 52) false false None None h now.

(** [open] *)
Definition open (p : I2CGNSSParser) : I2CGNSSParser :=
  {| max_chunk := max_chunk p; drop_ff_padding := drop_ff_padding p;
     decoder := decoder p; ucm := ucm p; _origin_set := _origin_set p;
     on_ucm := on_ucm p; on_epoch_end := on_epoch_end p;
     _line_buf := _line_buf p; _pending_ucm := _pending_ucm p;
     bus_open := true;
     last_succesful_frame := last_succesful_frame p;
     last_succesful_ucm := last_succesful_ucm p |}.

(** [_frame_to_ucm]: the result or the exception, and the parser
    afterwards. *)
Definition _frame_to_ucm (p : I2CGNSSParser) (frame : EpochFrame)
    : result (option UCMResult) * I2CGNSSParser :=
  match frame_GGA frame with
  | [] => (Ok None, p)
  | gga :: _ =>
      match extract_latlon_from_nmea_message gga with
      | None => (Ok None, p)
      | Some (lat, lon) =>
          let r :=
            if negb (_origin_set p) then
              match set_origin_from_latlon (ucm p) lat lon with
              | Ok c => Ok (set_ucm p c true)
              | Raise e => Raise e
              end
            else Ok p in
          match r with
          | Raise e => (Raise e, p)
          | Ok p1 =>
              match to_local_xy (ucm p1) lat lon with
              | Raise e => (Raise e, p1)
              | Ok (x, y) =>
                  (Ok (Some {| ucm_epoch_id := epoch_id frame;
                               ucm_t_recv_s := t_recv_s frame;
                               x_m := x; y_m := y;
                               lat_deg := Some lat; lon_deg := Some lon |}),
                   p1)
              end
          end
      end
  end.

(** The statements of [poll] under [if u is not None:]. *)
Definition notify_ucm (p : I2CGNSSParser) (u : UCMResult)
    : option exn * I2CGNSSParser :=
  match on_ucm p with
  | Some cb =>
      match cb u with
      | Raise e => (Some e, p)
      | Ok ucm_result =>
          (* self.last_succesful_ucm(ucm_result.x_m, ucm_result.y_m):
             the arguments are evaluated, then a list is called *)
          match getattr_x_m ucm_result with
          | Raise e => (Some e, p)
          | Ok _ =>
              match getattr_y_m ucm_result with
              | Raise e => (Some e, p)
              | Ok _ => (Some TypeError, p)
              end
          end
      end
  | None => (None, set_pending p (_pending_ucm p ++ [u]))
  end.

(** The statements of [poll] under [if prev is not None:], for the closed
    frame at [l]. *)
Definition hand_off (p : I2CGNSSParser) (h : Heap) (l : loc)
    : option exn * I2CGNSSParser :=
  match h !! l with
  | None => (None, p)
  | Some frame =>
      let r :=
        match on_epoch_end p with
        | Some cb =>
            match cb frame with
            | Raise e => Raise e
            | Ok _ => Ok (set_last_frame p (Some l))
            end
        | None => Ok p
        end in
      match r with
      | Raise e => (Some e, p)
      | Ok p1 =>
          match _frame_to_ucm p1 frame with
          | (Raise e, p2) => (Some e, p2)
          | (Ok None, p2) => (None, p2)
          | (Ok (Some u), p2) => notify_ucm p2 u
          end
      end
  end.

(** What [poll] does with one complete line: the exception that ends the
    call, if any, and the parser and the frames afterwards. *)
Definition process_line (p : I2CGNSSParser) (h : Heap) (line : str)
    (now : float) : option exn * I2CGNSSParser * Heap :=
  if is_gga_sentence line then
    (* epoch rollover by GGA *)
    let '(prev, d1) := end_epoch (decoder p) in
    let p1 := set_decoder p d1 in
    let '(e, p2) :=
      match prev with
      | Some l => hand_off p1 h l
      | None => (None, p1)
      end in
    match e with
    | Some e => (Some e, p2, h)
    | None =>
        (* start new epoch (this GGA belongs to new epoch) *)
        let '(d2, h2, _) := begin_epoch (decoder p2) h None None now in
        let '(_, d3, h3) := feed_line d2 h2 line None now in
        (None, set_decoder p2 d3, h3)
    end
  else
    let '(_, d1, h1) := feed_line (decoder p) h line None now in
    (None, set_decoder p d1, h1).

(** The loop [for b in data] of [poll]; [times i] is the clock when the
    byte at index [i] is handled. *)
Fixpoint poll_bytes (p : I2CGNSSParser) (h : Heap) (data : list N)
    (times : nat -> float) : option exn * I2CGNSSParser * Heap :=
  match data with
  | [] => (None, p, h)
  | b :: data' =>
      let buf := _line_buf p ++ [b] in
      if (b =? 10)%N then
        let line := decode_ascii_replace buf in
        match process_line (set_line_buf p []) h line (times O) with
        | (Some e, p1, h1) => (Some e, p1, h1)
        | (None, p1, h1) => poll_bytes p1 h1 data' (fun i => times (S i))
        end
      else poll_bytes (set_line_buf p buf) h data' (fun i => times (S i))
  end.

(** [poll].  [avail] is what [read_available] returns and [read_block n]
    the bytes the bus returns for a block read of [n] bytes. *)
Definition poll (p : I2CGNSSParser) (h : Heap) (avail : Z)
    (read_block : Z -> list N) (times : nat -> float)
    : result Z * I2CGNSSParser * Heap :=
  if negb (bus_open p) then (Raise RuntimeError_bus_not_opened, p, h) else
  if avail <=? 0 then (Ok 0, p, h) else
  let n := Z.min avail (max_chunk p) in
  let block := read_block n in
  let data :=
    if drop_ff_padding p then filter (fun b => b <> 255%N) block else block in
  match data with
  | [] => (Ok 0, p, h)
  | _ =>
      match poll_bytes p h data times with
      | (Some e, p1, h1) => (Raise e, p1, h1)
      | (None, p1, h1) => (Ok (Z.of_nat (length data)), p1, h1)
      end
  end.

(** [get_latest_ucm] *)
Definition get_latest_ucm (p : I2CGNSSParser) : option UCMResult :=
  last (_pending_ucm p).

(** [drain_ucm] *)
Definition drain_ucm (p : I2CGNSSParser) : list UCMResult * I2CGNSSParser :=
  (_pending_ucm p, set_pending p []).

End Parser.

(* ================================================================== *)
(** * Definitions used in the statements *)
(* ================================================================== *)

(** No star among the characters. *)
Definition no_star (s : str) : bool := forallb (fun c => negb (is_star c)) s.

(** A finite float within [tol] of the rational [q]. *)
Definition approx (x : float) (q tol : Q) : Prop :=
  is_finite x = true /\ Qle_bool (Qabs (float_to_Q x - q)) tol = true.

(** The reference sentence of the specification, with the checksum it
    declares and with the checksum of its body. *)
Definition ref_body : str :=
  pystr "GNGGA,123519,4807.038,N,01131.000,E,1,08,0.9,545.4,M,46.9,M,,".
Definition ref_line_47 : str := 36%N :: ref_body ++ pystr "*47".
Definition ref_line_59 : str := 36%N :: ref_body ++ pystr "*59".

(** The fix the specification expects from the reference sentence. *)
Definition is_reference_fix (r : option NMEAMessage) : Prop :=
  exists msg g,
    r = Some msg /\ kind msg = NMEAGGA g /\
    talker (base msg) = pystr "GN" /\ msg_type (base msg) = pystr "GGA" /\
    (exists lat, gga_lat_deg g = Some lat /\ approx lat (4811730 # 100000) (5 # 1000000)) /\
    (exists lon, gga_lon_deg g = Some lon /\ approx lon (1151667 # 100000) (5 # 1000000)) /\
    gga_fix_quality g = Some 1 /\
    gga_num_sats g = Some 8 /\
    gga_hdop g = Some (float_lit "0.9") /\
    gga_altitude_m g = Some (float_lit "545.4").

(** The header field of a sentence body. *)
Definition header_of (body : str) : str := before_first 44%N body.

(** Strings of decimal digits. *)
Definition all_digits (s : str) : Prop := forallb is_digit s = true.

(** A decimal digit, of ASCII or of another script. *)
Definition is_decimal (c : N) : bool :=
  match to_decimal c with Some _ => true | None => false end.

(** The characters an integer literal is made of: decimal digits, the two
    signs, the underscore, and the white space skipped at the ends. *)
Definition int_char (c : N) : bool :=
  is_decimal c || (c =? 43)%N || (c =? 45)%N || (c =? 95)%N || is_num_space c.

(** The number of points in a text. *)
Definition points (s : str) : nat := length (filter (fun c => c = 46%N) s).

(** The hemisphere letters of the protocol. *)
Definition is_NS (hemi : str) : bool :=
  bool_decide (hemi = pystr "N" \/ hemi = pystr "S").
Definition is_EW (hemi : str) : bool :=
  bool_decide (hemi = pystr "E" \/ hemi = pystr "W").
Definition is_SW (hemi : str) : bool :=
  bool_decide (hemi = pystr "S" \/ hemi = pystr "W").

(** Degrees plus minutes over sixty, for the degree digits [dd] and the
    minutes written [mi.mf]: the degrees are exact, the minutes are the float
    nearest to the decimal number written, and the division and the sum are
    those of floats. *)
Definition degrees_plus_minutes (dd mi mf : str) : float :=
  fadd (float_of_Z (digits_val dd))
       (fdiv (dec_to_float false (digits_val (mi ++ mf))
                (- Z.of_nat (length mf)))
             sixty).

(** The decimal degrees the specification gives a field [ddmm.mmmm] with a
    hemisphere letter. *)
Definition spec_decimal_degrees (dd mi mf hemi : str) : float :=
  if is_SW hemi then fneg (degrees_plus_minutes dd mi mf)
  else degrees_plus_minutes dd mi mf.

(** Both coordinates within [tol] metres of zero. *)
Definition within_tol (xy : float * float) (tol : Q) : Prop :=
  approx xy.1 0 tol /\ approx xy.2 0 tol.

(** ** A stand-in for the C mathematical library

    The theorems about the projection hold for every choice of the library
    functions.  To run them on concrete inputs the functions below are
    used: polynomial approximations of sine and cosine, their quotient for
    the tangent and repeated multiplication for powers.  Like the functions
    they stand for, they raise on an infinite argument. *)

Fixpoint fpow_nat (x : float) (n : nat) : float :=
  match n with
  | O => float_of_Z 1
  | S n' => fmul x (fpow_nat x n')
  end.

Definition demo_sin (x : float) : option float :=
  if is_inf x then None
  else Some (fsub (fadd (fsub x (fdiv (fpow_nat x 3) (float_of_Z 6)))
                        (fdiv (fpow_nat x 5) (float_of_Z 120)))
                  (fdiv (fpow_nat x 7) (float_of_Z 5040))).

Definition demo_cos (x : float) : option float :=
  if is_inf x then None
  else Some (fsub (fadd (fsub (float_of_Z 1) (fdiv (fpow_nat x 2) (float_of_Z 2)))
                        (fdiv (fpow_nat x 4) (float_of_Z 24)))
                  (fdiv (fpow_nat x 6) (float_of_Z 720))).

Definition demo_tan (x : float) : option float :=
  match demo_sin x, demo_cos x with
  | Some s, Some c => if is_zero c then None else Some (fdiv s c)
  | _, _ => None
  end.

Definition demo_pow (x : float) (n : Z) : option float :=
  let r := fpow_nat x (Z.to_nat n) in
  if is_inf r && is_finite x then None else Some r.

(** What [feed_line] decodes from a line. *)
Definition decoded (d : NMEADecoder) (line : str) : option NMEAMessage :=
  if negb (startswith_dollar (strip line)) then None
  else _parse_line d (strip line).

(** ** Steps of the parser *)

(** The parts of the parser a step can leave alone. *)
Definition same_config (p p' : I2CGNSSParser) : Prop :=
  decoder p' = decoder p /\ on_ucm p' = on_ucm p /\
  on_epoch_end p' = on_epoch_end p.

(** How a step may change the origin: not at all once [_origin_set] holds;
    before that, it stays unset or becomes set together with the flag. *)
Definition origin_kept (p p' : I2CGNSSParser) : Prop :=
  (_origin_set p = true ->
   _origin_set p' = true /\ _origin_utm (ucm p') = _origin_utm (ucm p)) /\
  (_origin_set p = false -> _origin_utm (ucm p) = None ->
   (_origin_set p' = false /\ _origin_utm (ucm p') = None) \/
   (_origin_set p' = true /\ is_Some (_origin_utm (ucm p')))).


(** ** Concrete runs, with the stand-in library *)

Definition demo_process_line :=
  process_line demo_sin demo_cos demo_tan demo_pow.
Definition demo_poll := poll demo_sin demo_cos demo_tan demo_pow.
Definition demo_set_origin :=
  set_origin_from_latlon demo_sin demo_cos demo_tan demo_pow.
Definition demo_to_local :=
  to_local_xy demo_sin demo_cos demo_tan demo_pow.

(** The position of the reference sentence. *)
Definition ref_lat : float := float_lit "48.1173".
Definition ref_lon : float := fadd (float_of_Z 11) (fdiv (float_lit "31.000") sixty).

(** A parser whose [on_ucm] callback returns [None], after the reference
    sentence has arrived once: its open epoch holds the fix. *)
Definition parser_with_callback : I2CGNSSParser * Heap :=
  let '(p0, h0) :=
    I2CGNSSParser_init 32 (Some 52) false false
      (Some (fun _ => Ok PyNone)) None ∅ fzero in
  let '(_, p, h) := demo_process_line p0 h0 ref_line_47 fone in
  (p, h).

(** A parser with the default configuration after the reference sentence
    has arrived twice: the origin is set. *)
Definition parser_with_origin : I2CGNSSParser * Heap :=
  let '(p0, h0) := I2CGNSSParser_default ∅ fzero in
  let '(_, p1, h1) := demo_process_line p0 h0 ref_line_47 fone in
  let '(_, p2, h2) := demo_process_line p1 h1 ref_line_47 fone in
  (open p2, h2).

(** A second sentence, from another position. *)
Definition other_line : str :=
  pystr "$GNGGA,123520,3723.2475,N,12158.3416,W,1,07,1.0,9.0,M,,M,,".

(** A parser as the constructor leaves it, with the default configuration. *)
Definition fresh_parser : I2CGNSSParser * Heap := I2CGNSSParser_default ∅ fzero.

(** The same parser with no epoch open, as a step whose hand-off raised
    leaves the decoder. *)
Definition closed_parser : I2CGNSSParser :=
  set_decoder fresh_parser.1 (set_current (decoder fresh_parser.1) None).

(** A sentence that is not a fix. *)
Definition txt_line : str := pystr "$GNTXT,01,01,02,ANTSTATUS=OK".

(** A converter whose origin is the reference position, in zone 52. *)
Definition converter_with_origin : UCMConverter :=
  match demo_set_origin (UCMConverter_init (Some 52)) ref_lat ref_lon with
  | Ok c => c
  | Raise _ => UCMConverter_init (Some 52)
  end.

(* ================================================================== *)
(** * Further definitions: the rest of the decoder and of the parser *)
(* ================================================================== *)

(** The value [_parse_line] computes for [checksum_ok]. *)
Definition checksum_outcome (d : NMEADecoder) (body : str) (cs : option str)
    : option bool :=
  match verify_checksum d, cs with
  | true, Some c => Some (int_hex2 c =? nmea_checksum_xor body)%N
  | _, _ => None
  end.

(** The fields after the header: [parts[1:]]. *)
Definition fields_of (body : str) : list str := drop 1 (split_on 44%N body).

(** The type tag of a sentence body: [header[2:]]. *)
Definition type_of (body : str) : str := drop 2 (header_of body).

(** ** tests/gps_test.py: the framer of the SPI reader

    The loop body of the script for one received byte: the buffer [line],
    the flag [in_sentence], and the text printed, if any. *)
Record SpiFramer := {
  spi_line : list N;
  in_sentence : bool;
}.

Definition spi_init : SpiFramer := {| spi_line := []; in_sentence := false |}.

Definition spi_step (st : SpiFramer) (b : N) : SpiFramer * option str :=
  if (b =? 255)%N then (st, None)
  else if negb (in_sentence st) then
    if (b =? 36)%N then ({| spi_line := [b]; in_sentence := true |}, None)
    else (st, None)
  else
    let line := if (length (spi_line st) <? 255)%nat then spi_line st ++ [b]
                else spi_line st in
    if (b =? 10)%N
    then ({| spi_line := []; in_sentence := false |},
          Some (decode_ascii_replace line))
    else ({| spi_line := line; in_sentence := true |}, None).

(** The loop [for b in rx] over the bytes of one transfer: the framer
    afterwards and the lines printed, in order. *)
Fixpoint spi_run (st : SpiFramer) (rx : list N) : SpiFramer * list str :=
  match rx with
  | [] => (st, [])
  | b :: rx' =>
      let '(st1, out) := spi_step st b in
      let '(st2, outs) := spi_run st1 rx' in
      (st2, match out with Some l => l :: outs | None => outs end)
  end.

(** The invariant of the framer between bytes. *)
Definition spi_inv (st : SpiFramer) : Prop :=
  if in_sentence st
  then exists rest, spi_line st = 36%N :: rest /\
                    (length (spi_line st) <= 255)%nat /\
                    Forall (fun b => b <> 255%N /\ b <> 10%N) rest
  else True.

(** A line as the SPI reader prints it. *)
Definition spi_line_ok (l : str) : Prop :=
  exists rest, l = 36%N :: rest /\ (length l <= 255)%nat /\
               Forall (fun c => (c < 128)%N \/ c = 65533%N) l /\
               (forall i c, l !! i = Some c -> c = 10%N -> S i = length l).

(** One list is a prefix of another. *)
Definition is_prefix {A} (l1 l2 : list A) : Prop := exists k, l2 = l1 ++ k.

(** ** Zones of whole degrees *)

(** The zone of a whole number of degrees, in integer arithmetic. *)
Definition whole_degree_zone (d : Z) : Z :=
  if d =? 180 then 60 else (d + 180) / 6 + 1.

(** [utm_zone_from_lon] returns that zone at [d] degrees. *)
Definition zone_agrees (d : Z) : bool :=
  match utm_zone_from_lon (float_of_Z d) with
  | Ok z => z =? whole_degree_zone d
  | Raise _ => false
  end.

(** The whole degrees from [-540] to [540]. *)
Definition whole_degrees : list Z :=
  map (fun i => Z.of_nat i - 540) (seq 0 1081).

(** ** Concrete data for the parser *)

(** The frame the parser holds after the reference sentence has arrived
    once. *)
Definition ref_frame : EpochFrame :=
  match parser_with_callback.2 !! 1%nat with
  | Some frame => frame
  | None => {| epoch_id := 0; t_recv_s := fzero; messages_by_type := ∅ |}
  end.

(** A frame without messages. *)
Definition empty_frame : EpochFrame :=
  {| epoch_id := 1; t_recv_s := fzero; messages_by_type := ∅ |}.

(** ** Reading short decimals *)

(** The float read for [m / 10^k] is finite and differs from that number by
    at most [2^-53] of it. *)
Definition reads_within_bound (m k : Z) : bool :=
  let x := dec_to_float false m (- k) in
  let q := (m # Z.to_pos (10 ^ k))%Q in
  is_finite x &&
  Qle_bool (Qabs (float_to_Q x - q) * inject_Z (2 ^ 53)) q.

(** [f] holds on the [n] integers from [m] on. *)
Fixpoint all_below (n : nat) (m : Z) (f : Z -> bool) : bool :=
  match n with
  | O => true
  | S n' => f m && all_below n' (m + 1) f
  end.

(** The digits 0 to 9 of every run of decimal digits are read as the ASCII
    digits. *)
Definition runs_read_as_ascii : bool :=
  forallb (fun z => forallb (fun d => (ascii_digit (z + d) =? 48 + d)%N)
                      [0; 1; 2; 3; 4; 5; 6; 7; 8; 9]%N)
    decimal_zeros.

(* ================================================================== *)
(** * The sentence pattern, characterised *)
(* ================================================================== *)

Lemma re_body_S k s :
  re_body (S k) s =
  if (S k <=? length s)%nat && no_star (take (S k) s)
  then match re_after_body (drop (S k) s) with
       | Some cs => Some (take (S k) s, cs)
       | None => re_body k s
       end
  else re_body k s.
Proof. reflexivity. Qed.

Lemma no_star_app a b : no_star (a ++ b) = no_star a && no_star b.
Proof. apply forallb_app. Qed.

Lemma no_star_trailer_false s :
  no_star s = false -> re_trailer s = false.
Proof.
  induction s as [|c s IH]; simpl; [discriminate|].
  unfold is_star. destruct (N.eqb_spec c 42) as [->|Hc]; simpl; [done|].
  intros H. rewrite (IH H). by rewrite andb_false_r.
Qed.

(** Every line either has no star or splits at its first star. *)
Lemma first_star s :
  no_star s = true \/
  exists body rest, s = body ++ 42%N :: rest /\ no_star body = true.
Proof.
  induction s as [|c s [IH|(body & rest & -> & Hb)]].
  - by left.
  - destruct (is_star c) eqn:Hc.
    + right. exists [], s. apply N.eqb_eq in Hc as ->. done.
    + left. simpl. by rewrite Hc, IH.
  - right. destruct (is_star c) eqn:Hc.
    + exists [], (body ++ 42%N :: rest). apply N.eqb_eq in Hc as ->. done.
    + exists (c :: body), rest. simpl. by rewrite Hc, Hb.
Qed.

Lemma re_after_body_star_inv s cs :
  re_after_body (42%N :: s) = Some cs ->
  exists h1 h2 ws, s = h1 :: h2 :: ws /\ cs = Some [h1; h2] /\
    is_hex h1 = true /\ is_hex h2 = true /\ re_trailer ws = true.
Proof.
  destruct s as [|h1 [|h2 ws]]; simpl; try discriminate.
  destruct (is_hex h1) eqn:H1, (is_hex h2) eqn:H2,
    (re_trailer ws) eqn:Hw; simpl; try discriminate.
  intros [= <-]. by exists h1, h2, ws.
Qed.

(** After a character that is not a star, with a star further on, neither
    the checksum group nor the end of the line matches. *)
Lemma re_after_body_before_star c s :
  is_star c = false -> no_star s = false -> re_after_body (c :: s) = None.
Proof.
  intros Hc Hs. unfold re_after_body.
  assert (Ht : re_trailer (c :: s) = false).
  { simpl. rewrite (no_star_trailer_false _ Hs). apply andb_false_r. }
  destruct s as [|h1 [|h2 ws]]; rewrite ?Hc, ?Ht; reflexivity.
Qed.

(** Candidates longer than the part before the first star contain it. *)
Lemma re_body_long body rest k :
  no_star body = true -> (length body <= k)%nat ->
  re_body k (body ++ 42%N :: rest) = re_body (length body) (body ++ 42%N :: rest).
Proof.
  intros Hns. induction k as [|k IH]; intros Hk.
  - by replace (length body) with O by lia.
  - destruct (decide (length body = S k)) as [->|NE]; [done|].
    rewrite re_body_S.
    assert (Hbad : no_star (take (S k) (body ++ 42%N :: rest)) = false).
    { rewrite take_app_ge by lia. rewrite no_star_app, Hns.
      destruct (S k - length body)%nat eqn:E'; [lia|]. reflexivity. }
    rewrite Hbad, andb_false_r. apply IH. lia.
Qed.

(** Shorter candidates are followed by a character that is not a star. *)
Lemma re_body_short body rest k :
  no_star body = true -> (k < length body)%nat ->
  re_body k (body ++ 42%N :: rest) = None.
Proof.
  intros Hns. induction k as [|k IH]; intros Hk; [done|].
  rewrite re_body_S.
  assert (Hd : re_after_body (drop (S k) (body ++ 42%N :: rest)) = None).
  { rewrite drop_app_le by lia.
    destruct (drop (S k) body) as [|c tl] eqn:Hdr.
    { apply (f_equal length) in Hdr. rewrite length_drop in Hdr.
      simpl in Hdr. lia. }
    assert (Hc : no_star (c :: tl) = true).
    { rewrite <- Hdr. rewrite <- (take_drop (S k) body) in Hns.
      rewrite no_star_app in Hns. by apply andb_true_iff in Hns as [_ ?]. }
    simpl in Hc. apply andb_true_iff in Hc as [Hc _].
    apply negb_true_iff in Hc.
    change ((c :: tl) ++ 42%N :: rest) with (c :: (tl ++ 42%N :: rest)).
    apply re_after_body_before_star; [done|].
    rewrite no_star_app. simpl. apply andb_false_r. }
  rewrite Hd. destruct (_ && _); apply IH; lia.
Qed.

(** The search returns the part before the first star, when the checksum
    group and the trailer follow it, and fails otherwise. *)
Lemma re_body_first_star body rest k :
  no_star body = true -> (length body <= k)%nat ->
  re_body k (body ++ 42%N :: rest) =
  match body, re_after_body (42%N :: rest) with
  | _ :: _, Some cs => Some (body, cs)
  | _, _ => None
  end.
Proof.
  intros Hns Hk. rewrite re_body_long by done.
  destruct (length body) as [|n] eqn:Hlen.
  { by destruct body. }
  rewrite re_body_S, <- Hlen.
  rewrite take_app_length, drop_app_length, Hns, length_app.
  replace (length body <=? length body + length (42%N :: rest))%nat with true
    by (symmetry; apply Nat.leb_le; lia).
  simpl andb.
  destruct body as [|c tl]; [done|].
  destruct (re_after_body (42%N :: rest)); [done|].
  apply re_body_short; [done|lia].
Qed.

(** A line without a star matches as a whole. *)
Lemma re_body_no_star s :
  no_star s = true -> s <> [] -> re_body (length s) s = Some (s, None).
Proof.
  intros Hs Hne. destruct s as [|c tl] eqn:E; [done|]. rewrite <- E.
  replace (length s) with (S (length tl)) by (by rewrite E).
  rewrite re_body_S.
  replace (S (length tl)) with (length s) by (by rewrite E).
  rewrite firstn_all, drop_all, Nat.leb_refl.
  rewrite <- E in Hs. by rewrite Hs.
Qed.

(** The groups of a match: without a checksum the body is the whole rest of
    the line; with one, the line is the body, a star, two hexadecimal digits
    and white space. *)
Lemma nmea_re_match_inv line body cs :
  nmea_re_match line = Some (body, cs) ->
  body <> [] /\ no_star body = true /\
  match cs with
  | None => line = 36%N :: body
  | Some c =>
      exists h1 h2 ws, c = [h1; h2] /\ is_hex h1 = true /\ is_hex h2 = true /\
        re_trailer ws = true /\ line = 36%N :: body ++ 42%N :: h1 :: h2 :: ws
  end.
Proof.
  destruct line as [|c s]; simpl; [discriminate|].
  destruct (N.eqb_spec c 36) as [->|]; [|discriminate].
  destruct (first_star s) as [Hs|(b & rest & -> & Hb)].
  - destruct s as [|c tl]; [discriminate|].
    rewrite re_body_no_star by done. by intros [= <- <-].
  - rewrite re_body_first_star by (done || rewrite length_app; lia).
    destruct b as [|c tl]; [discriminate|].
    destruct (re_after_body (42%N :: rest)) as [cs'|] eqn:Ha; [|discriminate].
    intros [= <- <-].
    apply re_after_body_star_inv in Ha as (h1 & h2 & ws & -> & -> & ? & ? & ?).
    split; [done|]. split; [done|]. by exists h1, h2, ws.
Qed.

(** Conversely, every line of one of the two shapes matches. *)
Lemma nmea_re_match_plain body :
  body <> [] -> no_star body = true ->
  nmea_re_match (36%N :: body) = Some (body, None).
Proof. intros. simpl. by apply re_body_no_star. Qed.

Lemma nmea_re_match_checksum body h1 h2 ws :
  body <> [] -> no_star body = true ->
  is_hex h1 = true -> is_hex h2 = true -> re_trailer ws = true ->
  nmea_re_match (36%N :: body ++ 42%N :: h1 :: h2 :: ws)
  = Some (body, Some [h1; h2]).
Proof.
  intros Hne Hns H1 H2 Hw. simpl nmea_re_match.
  rewrite re_body_first_star by (done || rewrite length_app; lia).
  destruct body; [done|]. simpl. by rewrite H1, H2, Hw.
Qed.

(* ================================================================== *)
(** * The decoder: checksum verification *)
(* ================================================================== *)

Lemma split_on_head sep s :
  exists fields, split_on sep s = before_first sep s :: fields.
Proof.
  induction s as [|c s [fields IH]]; simpl; [by exists []|].
  destruct (c =? sep)%N; [by eexists|].
  rewrite IH. by eexists.
Qed.

(** The parsers of the initial registry store the checksum outcome, the
    type, and the line they are given. *)
Lemma default_parsers_base ty (p : Parser) t m r f c :
  default_parsers !! ty = Some p -> base (p t m r f c) = mk_base t m r f c.
Proof.
  unfold default_parsers. intros H.
  repeat (apply lookup_insert_Some in H as [[_ <-]|[_ H]]; [done|]).
  by rewrite lookup_empty in H.
Qed.

(** What [feed_line] returns: nothing for a line that does not start with the
    marker, and what [_parse_line] makes of the stripped line otherwise. *)
Lemma feed_line_result d h line eid now :
  (feed_line d h line eid now).1.1 =
  if negb (startswith_dollar (strip line)) then None
  else _parse_line d (strip line).
Proof.
  unfold feed_line. destruct (negb _); [done|].
  destruct (_parse_line d (strip line)); [|done].
  destruct (_current d); [done|].
  unfold begin_epoch. by destruct eid.
Qed.

(** C1 (as amended).  With verification enabled the reference line is dropped:
    it declares 0x47 while the XOR of its body is 0x59.  With verification
    disabled, or with the checksum corrected to 59, feeding it returns a GGA
    record with latitude about 48.11730, longitude about 11.51667, fix
    quality 1, 8 satellites, dilution 0.9 and altitude 545.4. *)
Theorem C1_reference_line (h : Heap) (now : float) :
  nmea_checksum_xor ref_body = 89%N /\ int_hex2 (pystr "47") = 71%N /\
  (feed_line (NMEADecoder_init true) h ref_line_47 None now).1.1 = None /\
  is_reference_fix (feed_line (NMEADecoder_init false) h ref_line_47 None now).1.1 /\
  is_reference_fix (feed_line (NMEADecoder_init true) h ref_line_59 None now).1.1.
Proof.
  rewrite !feed_line_result.
  split; [by vm_compute|]. split; [by vm_compute|].
  split; [by vm_compute|].
  split.
  - remember (if negb _ then _ else _) as r eqn:E. vm_compute in E. subst r.
    eexists _, _. repeat split; try reflexivity; eexists; split; try reflexivity;
      split; vm_compute; reflexivity.
  - remember (if negb _ then _ else _) as r eqn:E. vm_compute in E. subst r.
    eexists _, _. repeat split; try reflexivity; eexists; split; try reflexivity;
      split; vm_compute; reflexivity.
Qed.

(** C1, as the specification states it, fails: with verification enabled the
    reference line yields no record. *)
Lemma C1_counterexample :
  ~ is_reference_fix
      (feed_line (NMEADecoder_init true) ∅ ref_line_47 None fzero).1.1.
Proof.
  intros (msg & g & H & _). rewrite feed_line_result in H.
  vm_compute in H. discriminate H.
Qed.

(** C3.  With verification enabled, a line that matches the pattern and
    declares a checksum different from the XOR of its body yields no record:
    [_parse_line] returns [None], and [feed_line] returns [None] and leaves
    the decoder and every frame as they were. *)
Theorem C3_checksum_mismatch_drops (d : NMEADecoder) (h : Heap)
    (line body cs : str) (eid : option Z) (now : float) :
  verify_checksum d = true ->
  nmea_re_match (strip line) = Some (body, Some cs) ->
  int_hex2 cs <> nmea_checksum_xor body ->
  _parse_line d (strip line) = None /\
  feed_line d h line eid now = (None, d, h).
Proof.
  intros Hv Hm Hne.
  assert (Hp : _parse_line d (strip line) = None).
  { unfold _parse_line. rewrite Hm, Hv.
    destruct (N.eqb_spec (int_hex2 cs) (nmea_checksum_xor body)); done. }
  split; [done|]. unfold feed_line. rewrite Hp.
  by destruct (negb _).
Qed.

Lemma C3_witness :
  _parse_line (NMEADecoder_init true) (strip ref_line_47) = None /\
  feed_line (NMEADecoder_init true) ∅ ref_line_47 None fzero
  = (None, NMEADecoder_init true, ∅).
Proof.
  apply (C3_checksum_mismatch_drops (NMEADecoder_init true) ∅ ref_line_47
           ref_body (pystr "47") None fzero).
  - reflexivity.
  - vm_compute. reflexivity.
  - vm_compute. discriminate.
Defined.

(** C10 (as amended).  With verification disabled and the initial registry, a
    line that matches the pattern and whose header has at least five
    characters is decoded into a record, whatever checksum it declares, and
    the record's [checksum_ok] is [None]. *)
Theorem C10_unverified_line_is_decoded (d : NMEADecoder)
    (line body : str) (cs : option str) :
  verify_checksum d = false ->
  _parsers d = default_parsers ->
  nmea_re_match line = Some (body, cs) ->
  (5 <= length (header_of body))%nat ->
  exists msg,
    _parse_line d line = Some msg /\
    checksum_ok (base msg) = None /\
    raw (base msg) = line /\
    talker (base msg) = take 2 (header_of body) /\
    msg_type (base msg) = drop 2 (header_of body).
Proof.
  intros Hv Hp Hm Hlen. unfold _parse_line. rewrite Hm, Hv.
  destruct (split_on_head 44%N body) as [fields ->].
  fold (header_of body).
  replace (length (header_of body) <? 5)%nat with false
    by (symmetry; apply Nat.ltb_ge; lia).
  destruct (_parsers d !! _) as [p|] eqn:E.
  - eexists. split; [destruct cs; reflexivity|].
    rewrite Hp in E. rewrite (default_parsers_base _ _ _ _ _ _ _ E).
    by destruct cs.
  - eexists. split; [destruct cs; reflexivity|]. by destruct cs.
Qed.

Lemma C10_witness :
  exists msg,
    _parse_line (NMEADecoder_init false) ref_line_47 = Some msg /\
    checksum_ok (base msg) = None /\
    raw (base msg) = ref_line_47 /\
    talker (base msg) = take 2 (header_of ref_body) /\
    msg_type (base msg) = drop 2 (header_of ref_body).
Proof.
  apply (C10_unverified_line_is_decoded (NMEADecoder_init false) ref_line_47
           ref_body (Some (pystr "47"))).
  - reflexivity.
  - reflexivity.
  - vm_compute. reflexivity.
  - vm_compute. lia.
Defined.

(** C10, as stated, fails on a line that matches the pattern but has a
    header of fewer than five characters: no record is produced. *)
Lemma C10_counterexample :
  ~ (forall line body cs,
       nmea_re_match line = Some (body, cs) ->
       exists msg, _parse_line (NMEADecoder_init false) line = Some msg /\
                   checksum_ok (base msg) = None).
Proof.
  intros H.
  destruct (H (pystr "$GGA,1*00") (pystr "GGA,1") (Some (pystr "00")))
    as (msg & Hm & _); [vm_compute; reflexivity|].
  vm_compute in Hm. discriminate Hm.
Qed.

(* ================================================================== *)
(** * Reading numbers: digit strings *)
(* ================================================================== *)

Lemma is_digit_range c : is_digit c = true -> (48 <= c <= 57)%N.
Proof.
  unfold is_digit. intros H.
  apply andb_true_iff in H as [H1%N.leb_le H2%N.leb_le]. lia.
Qed.

Lemma is_digit_not_space c : is_digit c = true -> is_num_space c = false.
Proof.
  intros H. apply is_digit_range in H. unfold is_num_space.
  repeat match goal with
         | |- context [(?a <=? ?b)%N] => destruct (N.leb_spec a b); try lia
         | |- context [(?a =? ?b)%N] => destruct (N.eqb_spec a b); try lia
         end; reflexivity.
Qed.

(** Characters of a number written without sign, exponent or separators. *)
Definition is_plain (c : N) : bool := is_digit c || (c =? 46)%N.

Lemma is_plain_not_space c : is_plain c = true -> is_num_space c = false.
Proof.
  unfold is_plain. intros [H|H]%orb_true_iff.
  - by apply is_digit_not_space.
  - apply N.eqb_eq in H as ->. reflexivity.
Qed.

Lemma num_lstrip_plain s :
  forallb is_plain s = true -> num_lstrip s = s.
Proof.
  destruct s as [|c s]; simpl; [done|].
  intros [H _]%andb_true_iff. by rewrite (is_plain_not_space _ H).
Qed.

Lemma num_strip_plain s :
  forallb is_plain s = true -> num_strip s = s.
Proof.
  intros H. unfold num_strip. rewrite (num_lstrip_plain s H).
  rewrite num_lstrip_plain; [apply rev_involutive|].
  apply forallb_forall. intros x Hx%in_rev.
  by apply (proj1 (forallb_forall _ _) H).
Qed.

(** ** Decimal digits outside the ASCII range *)

Lemma decimal_zeros_low :
  forallb (fun z => (z =? 48) || (1632 <=? z))%N decimal_zeros = true.
Proof. vm_compute. reflexivity. Qed.

Lemma find_zero_spec c l z :
  find (fun z => (z <=? c) && (c <=? z + 9))%N l = Some z ->
  In z l /\ (z <= c <= z + 9)%N.
Proof.
  intros H. apply find_some in H as [Hin H].
  apply andb_true_iff in H as [H1%N.leb_le H2%N.leb_le]. by split.
Qed.

(** A decimal digit below U+0660 is an ASCII digit. *)
Lemma to_decimal_low c d :
  to_decimal c = Some d -> (c < 1632)%N -> is_digit c = true /\ d = (c - 48)%N.
Proof.
  unfold to_decimal. intros H Hc.
  destruct (find _ decimal_zeros) as [z|] eqn:E; [|discriminate H].
  injection H as <-. apply find_zero_spec in E as [Hin Hr].
  pose proof (proj1 (forallb_forall _ _) decimal_zeros_low z Hin) as Hz.
  cbv beta in Hz. apply orb_true_iff in Hz as [Hz%N.eqb_eq | Hz%N.leb_le];
    [subst z | lia].
  split; [|done]. unfold is_digit.
  apply andb_true_iff. split; apply N.leb_le; lia.
Qed.

Lemma to_decimal_digit c :
  is_digit c = true -> to_decimal c = Some (c - 48)%N.
Proof.
  intros H. apply is_digit_range in H. unfold to_decimal.
  change decimal_zeros with (48%N :: tl decimal_zeros). cbn [find].
  replace ((48 <=? c) && (c <=? 48 + 9))%N with true; [done|].
  symmetry. apply andb_true_iff. split; apply N.leb_le; lia.
Qed.

Lemma ascii_digit_digit c : is_digit c = true -> ascii_digit c = c.
Proof.
  intros H. unfold ascii_digit. rewrite (to_decimal_digit c H).
  apply is_digit_range in H. f_equal. lia.
Qed.

(** The characters below U+0660 are left as they are. *)
Lemma ascii_digit_low c : (c < 1632)%N -> ascii_digit c = c.
Proof.
  intros Hc. unfold ascii_digit.
  destruct (to_decimal c) as [d|] eqn:E; [|done].
  destruct (to_decimal_low c d E Hc) as [H ->].
  apply is_digit_range in H. lia.
Qed.

(** Every character becomes an ASCII digit or stays as it is. *)
Lemma ascii_digit_spec c :
  match to_decimal c with
  | Some d => is_digit (ascii_digit c) = true /\ (d <= 9)%N /\
              digit_val (ascii_digit c) = Z.of_N d
  | None => ascii_digit c = c
  end.
Proof.
  unfold ascii_digit. destruct (to_decimal c) as [d|] eqn:E; [|done].
  unfold to_decimal in E.
  destruct (find _ decimal_zeros) as [z|] eqn:F; [|discriminate E].
  injection E as <-. apply find_zero_spec in F as [_ Hr].
  unfold is_digit, digit_val. split; [|split; lia].
  apply andb_true_iff. split; apply N.leb_le; lia.
Qed.

Lemma is_plain_low c : is_plain c = true -> (c < 1632)%N.
Proof.
  unfold is_plain. intros [H%is_digit_range | H%N.eqb_eq]%orb_true_iff; lia.
Qed.

Lemma map_ascii_digit_plain s :
  forallb is_plain s = true -> map ascii_digit s = s.
Proof.
  induction s as [|c s IH]; [done|]. cbn [forallb map].
  intros [Hc Hs]%andb_true_iff.
  by rewrite (ascii_digit_low c (is_plain_low c Hc)), (IH Hs).
Qed.

Lemma read_sign_plain c s :
  is_plain c = true -> read_sign (c :: s) = (false, c :: s).
Proof.
  unfold is_plain, is_digit. intros H. unfold read_sign.
  destruct c as [|p]; [done|].
  do 6 (destruct p as [p|p|]; try done).
Qed.

Lemma all_digits_plain s : all_digits s -> forallb is_plain s = true.
Proof.
  unfold all_digits. intros H. apply forallb_forall. intros x Hx.
  unfold is_plain. by rewrite (proj1 (forallb_forall _ _) H x Hx).
Qed.

Lemma int_digits_all s : all_digits s -> int_digits false s = Some s.
Proof.
  unfold all_digits. induction s as [|c s IH]; simpl; [done|].
  intros [Hc Hs]%andb_true_iff. by rewrite Hc, (IH Hs).
Qed.

(** [int()] of a string of digits is the number they write. *)
Lemma py_int_digits s :
  all_digits s -> s <> [] -> Z.of_nat (length s) <= int_max_str_digits ->
  py_int s = Ok (digits_val s).
Proof.
  intros Hd Hne Hlen. unfold py_int.
  rewrite (map_ascii_digit_plain s (all_digits_plain s Hd)).
  rewrite (num_strip_plain s (all_digits_plain s Hd)).
  destruct s as [|c s]; [done|].
  assert (Hc : is_digit c = true).
  { unfold all_digits in Hd. simpl in Hd. by apply andb_true_iff in Hd as [? _]. }
  rewrite read_sign_plain by (unfold is_plain; by rewrite Hc).
  rewrite Hc, (int_digits_all _ Hd).
  by replace (int_max_str_digits <? Z.of_nat (length (c :: s))) with false
    by (symmetry; apply Z.ltb_ge; exact Hlen).
Qed.

(** A run of more digits than the limit is refused. *)
Lemma py_int_too_long s :
  all_digits s -> int_max_str_digits < Z.of_nat (length s) ->
  py_int s = Raise ValueError.
Proof.
  intros Hd Hlen. unfold py_int.
  rewrite (map_ascii_digit_plain s (all_digits_plain s Hd)).
  rewrite (num_strip_plain s (all_digits_plain s Hd)).
  destruct s as [|c s]; [done|].
  assert (Hc : is_digit c = true).
  { unfold all_digits in Hd. simpl in Hd. by apply andb_true_iff in Hd as [? _]. }
  rewrite read_sign_plain by (unfold is_plain; by rewrite Hc).
  rewrite Hc, (int_digits_all _ Hd).
  by replace (int_max_str_digits <? Z.of_nat (length (c :: s))) with true
    by (symmetry; apply Z.ltb_lt; exact Hlen).
Qed.

Lemma digits_fold_bound ds acc :
  all_digits ds -> 0 <= acc ->
  0 <= fold_left (fun a c => 10 * a + digit_val c) ds acc
    < (acc + 1) * 10 ^ Z.of_nat (length ds).
Proof.
  unfold all_digits. revert acc.
  induction ds as [|c ds IH]; intros acc Hd Hacc.
  - simpl. lia.
  - simpl in Hd. apply andb_true_iff in Hd as [Hc Hd].
    apply is_digit_range in Hc.
    cbn [fold_left length]. rewrite Nat2Z.inj_succ, Z.pow_succ_r by lia.
    assert (Hv : 0 <= digit_val c <= 9) by (unfold digit_val; lia).
    specialize (IH (10 * acc + digit_val c) Hd ltac:(lia)).
    assert (0 < 10 ^ Z.of_nat (length ds)) by (apply Z.pow_pos_nonneg; lia).
    nia.
Qed.

Lemma digits_val_bound ds :
  all_digits ds -> 0 <= digits_val ds < 10 ^ Z.of_nat (length ds).
Proof.
  intros H. pose proof (digits_fold_bound ds 0 H ltac:(lia)) as B.
  unfold digits_val. lia.
Qed.

Lemma num_lstrip_split s :
  exists ws, s = ws ++ num_lstrip s /\ forallb is_num_space ws = true.
Proof.
  induction s as [|c s (ws & E & Hws)]; [by exists []|].
  simpl. destruct (is_num_space c) eqn:Hc.
  - exists (c :: ws). split; [by rewrite E at 1|]. simpl. by rewrite Hc.
  - by exists [].
Qed.

(** Stripping removes white space at the two ends and nothing else. *)
Lemma num_strip_split s :
  exists ws1 ws2, s = ws1 ++ num_strip s ++ ws2 /\
    forallb is_num_space ws1 = true /\ forallb is_num_space ws2 = true.
Proof.
  destruct (num_lstrip_split s) as (ws1 & E1 & H1).
  destruct (num_lstrip_split (rev (num_lstrip s))) as (ws2 & E2 & H2).
  exists ws1, (rev ws2). split; [|split; [done|]].
  - unfold num_strip. rewrite <- rev_app_distr, <- E2, rev_involutive. exact E1.
  - rewrite forallb_forall in H2. apply forallb_forall.
    intros x Hx%in_rev. by apply H2.
Qed.

Lemma num_lstrip_nospace c s :
  is_num_space c = false -> num_lstrip (c :: s) = c :: s.
Proof. intros H. simpl. by rewrite H. Qed.

Lemma num_strip_ends c mid z :
  is_num_space c = false -> is_num_space z = false ->
  num_strip (c :: mid ++ [z]) = c :: mid ++ [z].
Proof.
  intros Hc Hz. unfold num_strip. rewrite (num_lstrip_nospace _ _ Hc).
  change (c :: mid ++ [z]) with ((c :: mid) ++ [z]).
  rewrite rev_unit, (num_lstrip_nospace _ _ Hz).
  change (rev (z :: rev (c :: mid))) with (rev (rev (c :: mid)) ++ [z]).
  by rewrite rev_involutive.
Qed.

Lemma int_digits_chars prev s ds :
  int_digits prev s = Some ds ->
  forallb (fun c => is_digit c || (c =? 95)%N) s = true.
Proof.
  revert prev ds. induction s as [|c s IH]; intros prev ds; simpl; [done|].
  destruct (is_digit c) eqn:Hd; simpl.
  - destruct (int_digits false s) eqn:E; [|discriminate]. intros _. by eapply IH.
  - destruct (c =? 95)%N; [|discriminate]. destruct prev; [discriminate|].
    intros H. by eapply IH.
Qed.

Lemma read_sign_split s :
  (read_sign s).2 = s \/
  exists c, (c = 43%N \/ c = 45%N) /\ s = c :: (read_sign s).2.
Proof.
  destruct s as [|c r]; [by left|].
  destruct (decide (c = 43%N)) as [->|H1]; [right; exists 43%N; by split; [left|]|].
  destruct (decide (c = 45%N)) as [->|H2]; [right; exists 45%N; by split; [right|]|].
  left. unfold read_sign. destruct c as [|p]; [done|].
  do 6 (destruct p as [p|p|]; try done).
Qed.


(** ** What the two conversions accept *)

Lemma int_digits_some prev s ds :
  int_digits prev s = Some ds ->
  all_digits ds /\ (length ds <= length s)%nat.
Proof.
  unfold all_digits. revert prev ds.
  induction s as [|c s IH]; intros prev ds; simpl.
  - destruct prev; [discriminate|]. by intros [= <-].
  - destruct (is_digit c) eqn:Hd.
    + destruct (int_digits false s) as [ds'|] eqn:E; [|discriminate].
      intros [= <-]. destruct (IH _ _ E) as [H1 H2].
      simpl. rewrite Hd, H1. split; [done | lia].
    + destruct (c =? 95)%N; [|discriminate].
      destruct prev; [discriminate|]. intros H.
      destruct (IH _ _ H) as [H1 H2]. split; [done | lia].
Qed.

Lemma is_decimal_ascii_digit c :
  is_digit (ascii_digit c) = true -> is_decimal c = true.
Proof.
  intros H. unfold is_decimal. pose proof (ascii_digit_spec c) as S.
  destruct (to_decimal c) as [d|] eqn:E; [done|].
  rewrite S in H. by rewrite (to_decimal_digit c H) in E.
Qed.

Lemma ascii_digit_keeps c k :
  is_digit k = false -> ascii_digit c = k -> c = k.
Proof.
  intros Hk E. pose proof (ascii_digit_spec c) as S.
  destruct (to_decimal c) as [d|]; [|congruence].
  destruct S as [S _]. rewrite E in S. congruence.
Qed.

(** The characters of a text [int()] accepts, and a bound on the value. *)
Lemma py_int_ok x z :
  py_int x = Ok z ->
  forallb int_char x = true /\ existsb is_decimal x = true /\
  Z.abs z < 10 ^ Z.of_nat (length x).
Proof.
  unfold py_int. set (y := map ascii_digit x).
  destruct (read_sign (num_strip y)) as [neg r] eqn:Er.
  destruct r as [|c r']; [discriminate|].
  destruct (is_digit c) eqn:Hc; [|discriminate].
  destruct (int_digits false (c :: r')) as [ds|] eqn:Ei; [|discriminate].
  destruct (int_max_str_digits <? Z.of_nat (length ds)); [discriminate|].
  intros [= <-].
  pose proof (int_digits_chars _ _ _ Ei) as Hch.
  destruct (int_digits_some _ _ _ Ei) as [Hds Hlen].
  destruct (num_strip_split y) as (ws1 & ws2 & Ey & H1 & H2).
  pose proof (read_sign_split (num_strip y)) as Hs.
  rewrite Er in Hs. cbn [snd] in Hs.
  assert (Hy : forall k, In k y ->
            is_digit k || (k =? 43)%N || (k =? 45)%N || (k =? 95)%N
            || is_num_space k = true).
  { intros k Hk. rewrite Ey in Hk.
    rewrite forallb_forall in H1, H2, Hch.
    apply in_app_iff in Hk as [Hk|Hk];
      [rewrite (H1 k Hk); by rewrite !orb_true_r|].
    apply in_app_iff in Hk as [Hk|Hk];
      [|rewrite (H2 k Hk); by rewrite !orb_true_r].
    assert (Hr : In k (c :: r') -> is_digit k || (k =? 95)%N = true)
      by apply Hch.
    destruct Hs as [E|(sg & Hsg & E)].
    - rewrite <- E in Hk. apply Hr in Hk.
      apply orb_true_iff in Hk as [-> | ->]; by rewrite ?orb_true_r.
    - rewrite E in Hk. destruct Hk as [<-|Hk].
      + destruct Hsg as [-> | ->]; reflexivity.
      + apply Hr in Hk.
        apply orb_true_iff in Hk as [-> | ->]; by rewrite ?orb_true_r. }
  assert (Hcy : In c y).
  { rewrite Ey. apply in_app_iff. right. apply in_app_iff. left.
    destruct Hs as [E|(sg & _ & E)]; [rewrite <- E; by left|].
    rewrite E. right. by left. }
  split; [|split].
  - apply forallb_forall. intros k Hk.
    specialize (Hy (ascii_digit k) (in_map ascii_digit x k Hk)).
    unfold int_char.
    destruct (is_digit (ascii_digit k)) eqn:Hd.
    { by rewrite (is_decimal_ascii_digit k Hd). }
    pose proof (ascii_digit_keeps k _ Hd eq_refl) as Ek.
    rewrite <- Ek in Hy, Hd. rewrite ?Hd in Hy.
    destruct (k =? 43)%N, (k =? 45)%N, (k =? 95)%N, (is_num_space k);
      rewrite ?orb_true_r; done.
  - apply existsb_exists. apply in_map_iff in Hcy as (k & Ek & Hk).
    exists k. split; [done|]. apply is_decimal_ascii_digit. by rewrite Ek.
  - pose proof (digits_val_bound ds Hds) as B.
    assert (L : (length ds <= length x)%nat).
    { etrans; [exact Hlen|].
      assert (length y = length x) by apply length_map.
      assert (length (num_strip y) <= length y)%nat.
      { rewrite Ey at 2. rewrite !length_app. lia. }
      assert (length (c :: r') <= length (num_strip y))%nat.
      { destruct Hs as [E|(sg & _ & E)]; [by rewrite <- E|].
        rewrite E. simpl. lia. }
      lia. }
    assert (10 ^ Z.of_nat (length ds) <= 10 ^ Z.of_nat (length x))
      by (apply Z.pow_le_mono_r; lia).
    destruct neg; lia.
Qed.

Lemma span_digits_spec s :
  s = (span_digits s).1 ++ (span_digits s).2 /\
  all_digits (span_digits s).1.
Proof.
  unfold all_digits. induction s as [|c s [IH1 IH2]]; [done|].
  simpl. destruct (is_digit c) eqn:Hc; [|done].
  destruct (span_digits s) as [ds r]. simpl in *. rewrite Hc.
  split; [by rewrite <- IH1 | done].
Qed.

Lemma points_app a b : points (a ++ b) = (points a + points b)%nat.
Proof. unfold points. by rewrite filter_app, length_app. Qed.

Lemma points_cons c s :
  points (c :: s) = ((if (c =? 46)%N then 1 else 0) + points s)%nat.
Proof.
  unfold points. destruct (N.eqb_spec c 46) as [->|H].
  - by rewrite filter_cons_True.
  - by rewrite filter_cons_False.
Qed.

Lemma points_none s :
  (forall c, In c s -> c <> 46%N) -> points s = 0%nat.
Proof.
  induction s as [|c s IH]; [done|]. intros H. rewrite points_cons.
  rewrite IH by (intros k Hk; apply H; by right).
  destruct (N.eqb_spec c 46) as [E|_]; [|done].
  exfalso. apply (H c); [by left | done].
Qed.

Lemma points_digits s : all_digits s -> points s = 0%nat.
Proof.
  intros H. apply points_none. intros c Hc ->.
  by pose proof (proj1 (forallb_forall _ _) H _ Hc).
Qed.

Lemma points_spaces s : forallb is_num_space s = true -> points s = 0%nat.
Proof.
  intros H. apply points_none. intros c Hc ->.
  by pose proof (proj1 (forallb_forall _ _) H _ Hc).
Qed.

Lemma points_rev s : points (rev s) = points s.
Proof.
  induction s as [|c s IH]; [done|]. simpl.
  rewrite points_app, IH, !points_cons. unfold points at 2. simpl. lia.
Qed.

Lemma points_positive s : contains 46%N s = true <-> (0 < points s)%nat.
Proof.
  unfold contains. induction s as [|c s IH]; cbn [existsb].
  - change (points []) with 0%nat. split; [discriminate | lia].
  - rewrite points_cons, N.eqb_sym.
    destruct (c =? 46)%N; cbn [orb]; [split; [lia | done]|].
    rewrite IH. lia.
Qed.

Lemma points_ascii_digit x : points (map ascii_digit x) = points x.
Proof.
  induction x as [|c x IH]; [done|]. cbn [map]. rewrite !points_cons, IH.
  f_equal. destruct (N.eqb_spec (ascii_digit c) 46) as [E|E].
  - apply ascii_digit_keeps in E; [|reflexivity]. by rewrite E.
  - destruct (N.eqb_spec c 46) as [->|_]; [|done].
    exfalso. apply E. reflexivity.
Qed.

Lemma points_num_strip y : points (num_strip y) = points y.
Proof.
  destruct (num_strip_split y) as (ws1 & ws2 & Ey & H1 & H2).
  rewrite Ey at 2. rewrite !points_app, (points_spaces _ H1), (points_spaces _ H2).
  lia.
Qed.

Lemma points_no_underscore s :
  points (filter (fun c => c <> 95%N) s) = points s.
Proof.
  induction s as [|c s IH]; [done|].
  destruct (decide (c <> 95%N)) as [H|H].
  - rewrite filter_cons_True by done. by rewrite !points_cons, IH.
  - rewrite filter_cons_False by done. rewrite points_cons, IH.
    apply dec_stable in H. by rewrite H.
Qed.

Lemma points_read_sign s : points (read_sign s).2 = points s.
Proof.
  destruct (read_sign_split s) as [E|(sg & Hsg & E)]; [by rewrite E|].
  rewrite E at 2. rewrite points_cons. by destruct Hsg as [-> | ->].
Qed.

Lemma exists_decimal_In c s :
  In c s -> is_digit c = true -> existsb is_digit s = true.
Proof. intros H1 H2. apply existsb_exists. by exists c. Qed.

(** An exponent that is read to the end of the text holds no point. *)
Lemma read_exponent_points r ex :
  read_exponent r = (ex, []) -> points r = 0%nat.
Proof.
  unfold read_exponent. destruct r as [|c r]; [done|].
  destruct (lower_ascii c =? 101)%N eqn:Ec; [|discriminate].
  destruct (read_sign r) as [neg r1] eqn:Es.
  pose proof (span_digits_spec r1) as [E1 E2].
  destruct (span_digits r1) as [ds r2]. cbn [fst snd] in E1, E2.
  destruct ds as [|d ds]; [discriminate|]. intros [= _ ->].
  rewrite points_cons.
  replace (c =? 46)%N with false.
  2:{ symmetry. apply N.eqb_neq. intros ->. discriminate Ec. }
  pose proof (points_read_sign r) as P. rewrite Es in P. cbn [snd] in P.
  rewrite <- P, E1, app_nil_r. by rewrite (points_digits _ E2).
Qed.

Lemma word_no_point r w :
  str_eqb (map lower_ascii r) w = true -> points w = 0%nat -> points r = 0%nat.
Proof.
  unfold str_eqb. intros E%bool_decide_eq_true <-.
  rewrite <- E. clear E. induction r as [|c r IH]; [done|].
  cbn [map]. rewrite !points_cons, IH. f_equal.
  destruct (N.eqb_spec c 46) as [->|H]; [done|].
  destruct (N.eqb_spec (lower_ascii c) 46) as [E|_]; [|done].
  exfalso. apply H. unfold lower_ascii in E.
  destruct ((65 <=? c) && (c <=? 90))%N eqn:B; [|done].
  apply andb_true_iff in B as [B1%N.leb_le B2%N.leb_le]. lia.
Qed.

(** The part of a float literal after the sign: at most one point, and a
    digit. *)
Lemma float_body_ok neg r f :
  (let '(ip, r1) := span_digits r in
   let '(fp, r2) :=
     match r1 with
     | 46%N :: r1' => span_digits r1'
     | _ => ([], r1)
     end in
   match ip ++ fp with
   | [] => Raise ValueError
   | ds =>
       let '(ex, r3) := read_exponent r2 in
       match r3 with
       | [] => Ok (dec_to_float neg (digits_val ds) (ex - Z.of_nat (length fp)))
       | _ => Raise ValueError
       end
   end) = Ok f ->
  (points r <= 1)%nat /\ existsb is_digit r = true.
Proof.
  pose proof (span_digits_spec r) as [E1 D1].
  destruct (span_digits r) as [ip r1]. cbn [fst snd] in E1, D1.
  assert (C : (exists r1', r1 = 46%N :: r1') \/
              match r1 with
              | 46%N :: r1' => span_digits r1'
              | _ => ([], r1)
              end = ([], r1)).
  { destruct r1 as [|c1 r1']; [by right|].
    destruct (N.eqb_spec c1 46) as [->|Hn]; [left; by eexists|]. right.
    destruct c1 as [|q]; [done|].
    do 6 (destruct q as [q|q|]; try done). }
  destruct C as [[r1' ->] | C].
  - pose proof (span_digits_spec r1') as [E2 D2].
    destruct (span_digits r1') as [fp r2]. cbn [fst snd] in E2, D2.
    destruct (ip ++ fp) as [|d ds] eqn:Eds; [discriminate|].
    destruct (read_exponent r2) as [ex r3] eqn:Ee.
    destruct r3; [|discriminate]. intros _.
    apply read_exponent_points in Ee. split.
    + rewrite E1, points_app, (points_digits _ D1), points_cons, E2,
        points_app, (points_digits _ D2), Ee. cbn. lia.
    + apply existsb_exists. exists d.
      assert (Hin : In d (ip ++ fp)) by (rewrite Eds; by left).
      apply in_app_iff in Hin as [Hin|Hin].
      * split; [|exact (proj1 (forallb_forall _ _) D1 d Hin)].
        rewrite E1. apply in_app_iff. by left.
      * split; [|exact (proj1 (forallb_forall _ _) D2 d Hin)].
        rewrite E1, E2. apply in_app_iff. right. right.
        apply in_app_iff. by left.
  - rewrite C. rewrite app_nil_r.
    destruct ip as [|d ds] eqn:Eds; [discriminate|].
    destruct (read_exponent r1) as [ex r3] eqn:Ee.
    destruct r3; [|discriminate]. intros _.
    apply read_exponent_points in Ee. split.
    + rewrite E1, points_app, (points_digits _ D1), Ee. lia.
    + apply existsb_exists. exists d. split.
      * rewrite E1. by left.
      * unfold all_digits in D1. simpl in D1.
        by apply andb_true_iff in D1 as [? _].
Qed.

(** A text with a point that [float()] accepts has one point and a digit. *)
Lemma py_float_ok x f :
  py_float x = Ok f -> contains 46%N x = true ->
  points x = 1%nat /\ existsb is_decimal x = true.
Proof.
  unfold py_float. set (y := map ascii_digit x). intros H Hp.
  apply points_positive in Hp.
  destruct (float_underscores_ok None (num_strip y)); [|discriminate H].
  cbn [negb] in H. cbv zeta in H.
  set (s := filter (fun c => c <> 95%N) (num_strip y)) in *.
  assert (Ps : points s = points x).
  { unfold s, y. by rewrite points_no_underscore, points_num_strip,
      points_ascii_digit. }
  assert (Is : forall c, In c s -> In c y).
  { intros c Hc. unfold s in Hc. apply list_elem_of_In in Hc.
    apply list_elem_of_filter in Hc as [_ Hc]. apply list_elem_of_In in Hc.
    destruct (num_strip_split y) as (ws1 & ws2 & Ey & _ & _).
    rewrite Ey. apply in_app_iff. right. apply in_app_iff. by left. }
  pose proof (points_read_sign s) as Pr.
  pose proof (read_sign_split s) as Sr.
  destruct (read_sign s) as [neg r]. cbn [snd] in Pr, Sr.
  assert (Ir : forall c, In c r -> In c s).
  { intros c Hc. destruct Sr as [E|(sg & _ & E)]; [by rewrite <- E|].
    rewrite E. by right. }
  destruct (str_eqb (map lower_ascii r) (pystr "inf")) eqn:W1.
  { apply word_no_point in W1; [lia | reflexivity]. }
  destruct (str_eqb (map lower_ascii r) (pystr "infinity")) eqn:W2.
  { apply word_no_point in W2; [lia | reflexivity]. }
  destruct (str_eqb (map lower_ascii r) (pystr "nan")) eqn:W3.
  { apply word_no_point in W3; [lia | reflexivity]. }
  cbn [orb] in H. apply float_body_ok in H as [H1 H2].
  split; [lia|].
  apply existsb_exists in H2 as (d & Hin & Hd).
  apply Ir, Is in Hin. apply in_map_iff in Hin as (k & Ek & Hk).
  apply existsb_exists. exists k. split; [done|].
  apply is_decimal_ascii_digit. by rewrite Ek.
Qed.

(** Small integers are floats. *)
Lemma float_of_Z_small n :
  0 <= n < 1000 -> is_inf (float_of_Z n) = false.
Proof.
  intros Hn.
  assert (H : forallb (fun k => negb (is_inf (float_of_Z (Z.of_nat k))))
                (seq 0 1000) = true) by (vm_compute; reflexivity).
  pose proof (proj1 (forallb_forall _ _) H (Z.to_nat n)) as Hk.
  cbv beta in Hk. rewrite Z2Nat.id in Hk by lia.
  apply negb_true_iff, Hk, in_seq. lia.
Qed.

Lemma float_of_Z_small_abs n :
  Z.abs n < 1000 -> is_inf (float_of_Z n) = false.
Proof.
  intros Hn.
  assert (H : forallb (fun k => negb (is_inf (float_of_Z (Z.of_nat k - 1000))))
                (seq 0 2000) = true) by (vm_compute; reflexivity).
  pose proof (proj1 (forallb_forall _ _) H (Z.to_nat (n + 1000))) as Hk.
  cbv beta in Hk. rewrite Z2Nat.id in Hk by lia.
  replace (n + 1000 - 1000) with n in Hk by lia.
  apply negb_true_iff, Hk, in_seq. lia.
Qed.

Lemma span_digits_app mi r :
  all_digits mi ->
  (match r with c :: _ => is_digit c = false | [] => True end) ->
  span_digits (mi ++ r) = (mi, r).
Proof.
  unfold all_digits. induction mi as [|c mi IH]; simpl.
  - intros _ Hr. destruct r as [|c r]; [done|]. simpl. by rewrite Hr.
  - intros [Hc Hd]%andb_true_iff Hr. by rewrite Hc, (IH Hd Hr).
Qed.

Lemma no_underscore_ok s prev :
  forallb is_plain s = true -> float_underscores_ok prev s = true.
Proof.
  revert prev. induction s as [|c s IH]; intros prev; simpl; [done|].
  intros [Hc Hs]%andb_true_iff.
  assert (E : (c =? 95)%N = false).
  { unfold is_plain in Hc. apply orb_true_iff in Hc as [Hc|Hc].
    - apply is_digit_range in Hc. apply N.eqb_neq. lia.
    - apply N.eqb_eq in Hc as ->. reflexivity. }
  rewrite E. by apply IH.
Qed.

Lemma filter_no_underscore s :
  forallb is_plain s = true -> filter (fun c => c <> 95%N) s = s.
Proof.
  induction s as [|c s IH]; simpl; [done|].
  intros [Hc Hs]%andb_true_iff.
  rewrite filter_cons, (IH Hs).
  destruct (decide (c <> 95%N)) as [|E]; [done|].
  exfalso. apply E. intros ->. discriminate Hc.
Qed.

Lemma plain_not_word c s w :
  is_plain c = true ->
  (match w with x :: _ => (105 <=? x)%N = true | [] => True end) ->
  str_eqb (map lower_ascii (c :: s)) w = false.
Proof.
  intros Hc Hw. unfold str_eqb. apply bool_decide_eq_false.
  destruct w as [|x w]; [discriminate|]. simpl. intros [= E _].
  apply N.leb_le in Hw. unfold lower_ascii in E.
  unfold is_plain in Hc. apply orb_true_iff in Hc as [Hc|Hc].
  - apply is_digit_range in Hc.
    destruct ((65 <=? c) && (c <=? 90))%N eqn:B; [|lia].
    apply andb_true_iff in B as [B1%N.leb_le B2%N.leb_le]. lia.
  - apply N.eqb_eq in Hc as ->. simpl in E. lia.
Qed.

(** [float()] of digits, a point and digits is the float nearest to the
    decimal number they write. *)
Lemma py_float_decimal mi mf :
  all_digits mi -> all_digits mf -> mi ++ mf <> [] ->
  py_float (mi ++ 46%N :: mf)
  = Ok (dec_to_float false (digits_val (mi ++ mf)) (- Z.of_nat (length mf))).
Proof.
  intros Hi Hf Hne.
  assert (Hp : forallb is_plain (mi ++ 46%N :: mf) = true).
  { rewrite forallb_app. simpl.
    by rewrite (all_digits_plain _ Hi), (all_digits_plain _ Hf). }
  unfold py_float.
  rewrite (map_ascii_digit_plain _ Hp), (num_strip_plain _ Hp),
    (no_underscore_ok _ _ Hp).
  simpl negb. cbv iota. rewrite (filter_no_underscore _ Hp).
  destruct (mi ++ 46%N :: mf) as [|c s] eqn:E.
  { by destruct mi. }
  assert (Hc : is_plain c = true) by (simpl in Hp; by apply andb_true_iff in Hp as [? _]).
  rewrite read_sign_plain by done.
  rewrite !plain_not_word by (done || reflexivity).
  simpl orb. cbv iota. rewrite <- E.
  rewrite span_digits_app by (done || reflexivity).
  rewrite <- (app_nil_r mf) at 1. rewrite span_digits_app by done.
  destruct (mi ++ mf) as [|d ds] eqn:Em; [done|].
  simpl read_exponent. cbv iota beta. by rewrite Z.sub_0_l.
Qed.

(* ================================================================== *)
(** * Latitude and longitude fields *)
(* ================================================================== *)

Lemma contains_point mi dd mf :
  contains 46%N (dd ++ mi ++ 46%N :: mf) = true.
Proof.
  unfold contains. rewrite !existsb_app. simpl. by rewrite !orb_true_r.
Qed.

Lemma parse_lat_lon_nonempty value hemi :
  value <> [] -> hemi <> [] ->
  parse_lat_lon value hemi = mjoin (catch_none (parse_lat_lon_try value hemi)).
Proof. by destruct value, hemi. Qed.

(** The value [parse_lat_lon] returns for a field made of degree digits and
    decimal minutes, whatever the hemisphere string is, provided it is not
    empty: the number of degree digits and the sign are decided by
    [hemi.upper()] alone. *)
Lemma parse_lat_lon_value (dd mi mf hemi : str) :
  hemi <> [] ->
  all_digits dd ->
  length dd = (if hemi_is_NS hemi then 2%nat else 3%nat) ->
  all_digits mi -> all_digits mf -> mi ++ mf <> [] ->
  parse_lat_lon (dd ++ mi ++ 46%N :: mf) hemi
  = Some (if hemi_is_SW hemi then fneg (degrees_plus_minutes dd mi mf)
          else degrees_plus_minutes dd mi mf).
Proof.
  intros Hh Hd Hlen Hi Hf Hne.
  rewrite parse_lat_lon_nonempty;
    [|destruct dd; [by destruct mi | done] | done].
  unfold parse_lat_lon_try. rewrite contains_point. simpl negb. cbv iota.
  rewrite <- Hlen, take_app_length, drop_app_length.
  assert (Hdd : dd <> []).
  { intros ->. simpl in Hlen. by destruct (hemi_is_NS hemi). }
  rewrite py_int_digits;
    [|done|done|rewrite Hlen; by destruct (hemi_is_NS hemi)].
  simpl rbind.
  rewrite py_float_decimal by done. simpl rbind.
  unfold float_of_int. rewrite float_of_Z_small.
  - simpl rbind. unfold degrees_plus_minutes. by destruct (hemi_is_SW hemi).
  - pose proof (digits_val_bound dd Hd) as B.
    assert (10 ^ Z.of_nat (length dd) <= 1000).
    { rewrite Hlen. by destruct (hemi_is_NS hemi). }
    lia.
Qed.

Lemma is_NS_hemi hemi : is_NS hemi = true -> hemi_is_NS hemi = true.
Proof. intros [-> | ->]%bool_decide_eq_true; reflexivity. Qed.

Lemma is_EW_hemi hemi : is_EW hemi = true -> hemi_is_NS hemi = false.
Proof. intros [-> | ->]%bool_decide_eq_true; reflexivity. Qed.

Lemma is_SW_hemi hemi :
  is_NS hemi = true \/ is_EW hemi = true -> hemi_is_SW hemi = is_SW hemi.
Proof.
  intros [[-> | ->]%bool_decide_eq_true | [-> | ->]%bool_decide_eq_true];
    reflexivity.
Qed.

Lemma int_char_not_point s : forallb int_char s = true -> points s = 0%nat.
Proof.
  intros H. apply points_none. intros c Hc ->.
  by pose proof (proj1 (forallb_forall _ _) H _ Hc).
Qed.

(** What [parse_lat_lon] returns for a value with a point and a hemisphere
    that is not empty, in terms of the two conversions. *)
Lemma parse_lat_lon_conversions value hemi :
  value <> [] -> hemi <> [] -> contains 46%N value = true ->
  let k := if hemi_is_NS hemi then 2%nat else 3%nat in
  parse_lat_lon value hemi =
  match py_int (take k value), py_float (drop k value) with
  | Ok deg, Ok minutes =>
      let dec := fadd (float_of_Z deg) (fdiv minutes sixty) in
      Some (if hemi_is_SW hemi then fneg dec else dec)
  | _, _ => None
  end.
Proof.
  intros Hv Hh Hp k. rewrite parse_lat_lon_nonempty by done.
  unfold parse_lat_lon_try. rewrite Hp. cbn [negb]. fold k.
  destruct (py_int (take k value)) as [deg|e] eqn:Ei; [|done].
  cbn [rbind].
  destruct (py_float (drop k value)) as [minutes|e]; [|done].
  cbn [rbind]. unfold float_of_int.
  rewrite float_of_Z_small_abs; [by destruct (hemi_is_SW hemi)|].
  apply py_int_ok in Ei as (_ & _ & B).
  assert (L : (length (take k value) <= 3)%nat).
  { rewrite length_take. unfold k. destruct (hemi_is_NS hemi); lia. }
  assert (10 ^ Z.of_nat (length (take k value)) <= 10 ^ 3)
    by (apply Z.pow_le_mono_r; lia).
  lia.
Qed.

(** C4 (as amended).  For a field of two degree digits (hemisphere N or S) or
    three degree digits (hemisphere E or W) followed by decimal minutes, the
    decoded value is degrees plus minutes over sixty, negated for S and W.
    An empty value, an empty hemisphere or a value without a point yields
    [None].  A hemisphere string that is none of the four letters is not
    rejected: unless its upper-case form is one of them, the field is read
    with three degree digits and a positive sign.  A value with a point is
    malformed when [int()] refuses its first two (three) characters or
    [float()] refuses the rest: it then yields [None], the exception being
    caught.  So a value is returned only if these first characters are
    decimal digits, signs, underscores or white space with a digit among
    them, and the rest holds exactly one point and a digit; and it is
    returned whenever the two conversions succeed.  [parse_lat_lon] is a
    total function: no input makes it raise. *)
Theorem C4_parse_lat_lon :
  (forall dd mi mf hemi : str,
     is_NS hemi = true \/ is_EW hemi = true ->
     all_digits dd ->
     length dd = (if is_NS hemi then 2%nat else 3%nat) ->
     all_digits mi -> all_digits mf -> mi ++ mf <> [] ->
     parse_lat_lon (dd ++ mi ++ 46%N :: mf) hemi
     = Some (spec_decimal_degrees dd mi mf hemi)) /\
  (forall value hemi : str,
     value = [] \/ hemi = [] \/ contains 46%N value = false ->
     parse_lat_lon value hemi = None) /\
  (forall dd mi mf hemi : str,
     hemi <> [] -> hemi_is_NS hemi = false -> hemi_is_SW hemi = false ->
     all_digits dd -> length dd = 3%nat ->
     all_digits mi -> all_digits mf -> mi ++ mf <> [] ->
     parse_lat_lon (dd ++ mi ++ 46%N :: mf) hemi
     = Some (degrees_plus_minutes dd mi mf)) /\
  (forall value hemi : str,
     let k := if hemi_is_NS hemi then 2%nat else 3%nat in
     (exists e, py_int (take k value) = Raise e) \/
     (exists e, py_float (drop k value) = Raise e) ->
     parse_lat_lon value hemi = None) /\
  (forall (value hemi : str) (v : float),
     parse_lat_lon value hemi = Some v ->
     let k := if hemi_is_NS hemi then 2%nat else 3%nat in
     forallb int_char (take k value) = true /\
     existsb is_decimal (take k value) = true /\
     points (drop k value) = 1%nat /\
     existsb is_decimal (drop k value) = true) /\
  (forall (value hemi : str) (deg : Z) (minutes : float),
     value <> [] -> hemi <> [] -> contains 46%N value = true ->
     let k := if hemi_is_NS hemi then 2%nat else 3%nat in
     py_int (take k value) = Ok deg ->
     py_float (drop k value) = Ok minutes ->
     parse_lat_lon value hemi
     = Some (let dec := fadd (float_of_Z deg) (fdiv minutes sixty) in
             if hemi_is_SW hemi then fneg dec else dec)).
Proof.
  split; [|split; [|split; [|split; [|split]]]].
  - intros dd mi mf hemi Hh Hd Hlen Hi Hf Hne.
    assert (Hnz : hemi <> []).
    { destruct Hh as [[-> | ->]%bool_decide_eq_true
                     | [-> | ->]%bool_decide_eq_true]; done. }
    rewrite parse_lat_lon_value; try done.
    + unfold spec_decimal_degrees. by rewrite (is_SW_hemi hemi Hh).
    + destruct Hh as [Hh|Hh].
      * by rewrite (is_NS_hemi _ Hh), Hh in *.
      * rewrite (is_EW_hemi _ Hh). rewrite Hlen.
        destruct (is_NS hemi) eqn:E; [|done].
        apply bool_decide_eq_true in E. apply bool_decide_eq_true in Hh.
        destruct E as [-> | ->], Hh as [? | ?]; done.
  - intros value hemi [-> | [-> | Hc]].
    + done.
    + by destruct value.
    + unfold parse_lat_lon. destruct value; [done|]. destruct hemi; [done|].
      unfold parse_lat_lon_try. by rewrite Hc.
  - intros dd mi mf hemi Hh Hns Hsw Hd Hlen Hi Hf Hne.
    rewrite parse_lat_lon_value; try done.
    + by rewrite Hsw.
    + by rewrite Hns.
  - intros value hemi k Hr.
    destruct (decide (value = [])) as [->|Hne]; [done|].
    destruct (decide (hemi = [])) as [->|Hh]; [by destruct value|].
    destruct (contains 46%N value) eqn:Hp.
    2:{ rewrite parse_lat_lon_nonempty by done.
        unfold parse_lat_lon_try. by rewrite Hp. }
    rewrite parse_lat_lon_conversions by done. fold k.
    destruct Hr as [[e ->] | [e ->]]; [done|].
    by destruct (py_int (take k value)).
  - intros value hemi v Hv k.
    assert (Hne : value <> []) by (intros ->; discriminate Hv).
    assert (Hh : hemi <> []) by (intros ->; destruct value; discriminate Hv).
    destruct (contains 46%N value) eqn:Hp.
    2:{ rewrite parse_lat_lon_nonempty in Hv by done.
        unfold parse_lat_lon_try in Hv. rewrite Hp in Hv. discriminate Hv. }
    rewrite parse_lat_lon_conversions in Hv by done. fold k in Hv.
    destruct (py_int (take k value)) as [deg|] eqn:Ei; [|discriminate Hv].
    destruct (py_float (drop k value)) as [minutes|] eqn:Ef;
      [|discriminate Hv].
    apply py_int_ok in Ei as (I1 & I2 & _).
    split; [exact I1|]. split; [exact I2|].
    apply (py_float_ok _ _ Ef).
    apply points_positive. apply points_positive in Hp.
    rewrite <- (take_drop k value), points_app,
      (int_char_not_point _ I1) in Hp. lia.
  - intros value hemi deg minutes Hne Hh Hp k Hi Hf.
    rewrite parse_lat_lon_conversions by done. fold k. by rewrite Hi, Hf.
Qed.

Lemma C4_witness :
  parse_lat_lon (pystr "4807.038") (pystr "N")
  = Some (spec_decimal_degrees (pystr "48") (pystr "07") (pystr "038") (pystr "N")) /\
  parse_lat_lon (pystr "ab07.038") (pystr "N") = None /\
  parse_lat_lon (pystr "4807.0.1") (pystr "N") = None /\
  points (drop 2 (pystr "4807.038")) = 1%nat.
Proof.
  destruct C4_parse_lat_lon as (H1 & _ & _ & H4 & H5 & _).
  split; [|split; [|split]].
  - apply (H1 (pystr "48") (pystr "07") (pystr "038") (pystr "N")).
    + left. reflexivity.
    + reflexivity.
    + reflexivity.
    + reflexivity.
    + reflexivity.
    + simpl. discriminate.
  - apply (H4 (pystr "ab07.038") (pystr "N")).
    left. exists ValueError. vm_compute. reflexivity.
  - apply (H4 (pystr "4807.0.1") (pystr "N")).
    right. exists ValueError. vm_compute. reflexivity.
  - apply (H5 (pystr "4807.038") (pystr "N")
             (spec_decimal_degrees (pystr "48") (pystr "07") (pystr "038")
                (pystr "N"))).
    apply (H1 (pystr "48") (pystr "07") (pystr "038") (pystr "N")).
    + left. reflexivity.
    + reflexivity.
    + reflexivity.
    + reflexivity.
    + reflexivity.
    + simpl. discriminate.
Defined.

(** C4, as stated, fails where it says that a malformed hemisphere yields
    [None]: with the hemisphere [X] the field is read as a longitude. *)
Lemma C4_counterexample :
  parse_lat_lon (pystr "12345.6") (pystr "X")
  = Some (float_lit "123.76") /\
  parse_lat_lon (pystr "12345.6") (pystr "X") <> None.
Proof. split; [vm_compute; reflexivity | vm_compute; discriminate]. Qed.

(* ================================================================== *)
(** * The coordinate converter *)
(* ================================================================== *)

Lemma fsub_self (x : float) :
  is_finite x = true -> fsub x x = S754_zero false.
Proof.
  destruct x as [[]|[]| |s m e]; try done. intros _.
  unfold fsub, SFsub. by rewrite Z.sub_diag.
Qed.

Lemma fadd_nan_l x : fadd S754_nan x = S754_nan.
Proof. reflexivity. Qed.

Lemma fsub_nan_l x : fsub S754_nan x = S754_nan.
Proof. reflexivity. Qed.

Lemma fmul_nan_r x : fmul x S754_nan = S754_nan.
Proof. by destruct x. Qed.

Lemma fsub_nan_self : fsub S754_nan S754_nan = S754_nan.
Proof. reflexivity. Qed.

Lemma approx_zero tol : Qle_bool 0 tol = true -> approx (S754_zero false) 0 tol.
Proof. intros H. split; [done|]. exact H. Qed.

Lemma approx_nan q tol : ~ approx S754_nan q tol.
Proof. intros [H _]. discriminate H. Qed.

Lemma rbind_ok_inv {A B} (r : result A) (k : A -> result B) b :
  rbind r k = Ok b -> exists a, r = Ok a /\ k a = Ok b.
Proof. destruct r as [a|e]; [by exists a | discriminate]. Qed.

Ltac rbind_inv H :=
  repeat (let a := fresh "a" in
          let E := fresh "E" in
          apply rbind_ok_inv in H as (a & E & H)).

Section Converter.

Variables math_sin math_cos math_tan : float -> option float.
Variable float_pow : float -> Z -> option float.

Local Opaque float_lit fadd fsub fmul fdiv fleb _deg2rad WGS84_E2 WGS84_A K0.

Local Abbreviation latlon_to_utm :=
  (latlon_to_utm math_sin math_cos math_tan float_pow).
Local Abbreviation set_origin_from_latlon :=
  (set_origin_from_latlon math_sin math_cos math_tan float_pow).
Local Abbreviation to_local_xy :=
  (to_local_xy math_sin math_cos math_tan float_pow).

(** With the zone left open, the projection derives it from the longitude
    and goes on as with a given zone. *)
Lemma latlon_to_utm_None lat lon :
  latlon_to_utm lat lon None
  = (z <-? utm_zone_from_lon lon; latlon_to_utm lat lon (Some z)).
Proof. unfold latlon_to_utm. by destruct (utm_zone_from_lon lon). Qed.

(** The projection reports the zone it was given. *)
Lemma latlon_to_utm_zone lat lon z cur :
  latlon_to_utm lat lon (Some z) = Ok cur -> zone cur = z.
Proof.
  unfold latlon_to_utm. intros H.
  apply rbind_ok_inv in H as (z' & Ez & H). injection Ez as <-.
  rbind_inv H. injection H as <-. reflexivity.
Qed.

(** The hemisphere flag depends on the sign of the latitude alone. *)
Lemma latlon_to_utm_hemisphere lat lon zo cur :
  latlon_to_utm lat lon zo = Ok cur ->
  hemisphere cur = if fleb (float_lit "0.0") lat then HemiN else HemiS.
Proof.
  destruct zo as [z|].
  - unfold latlon_to_utm. intros H.
    rbind_inv H. injection H as <-. reflexivity.
  - unfold latlon_to_utm. intros H.
    rbind_inv H. injection H as <-. reflexivity.
Qed.

(** Projecting again in the zone of a projection gives the same
    coordinate. *)
Lemma latlon_to_utm_again lat lon zo cur :
  latlon_to_utm lat lon zo = Ok cur ->
  latlon_to_utm lat lon (Some (zone cur)) = Ok cur.
Proof.
  destruct zo as [z|].
  - intros H. by rewrite (latlon_to_utm_zone _ _ _ _ H).
  - rewrite latlon_to_utm_None. intros H.
    destruct (utm_zone_from_lon lon) as [z|] eqn:E; [|discriminate H].
    cbn [rbind] in H. by rewrite (latlon_to_utm_zone _ _ _ _ H).
Qed.

(** No step of the projection raises the error of a missing origin. *)
Lemma rbind_not_origin {A B} (r : result A) (k : A -> result B) :
  r <> Raise RuntimeError_origin_not_set ->
  (forall a, k a <> Raise RuntimeError_origin_not_set) ->
  rbind r k <> Raise RuntimeError_origin_not_set.
Proof.
  intros Hr Hk. destruct r as [a|e]; simpl; [apply Hk|].
  intros [= ->]. by apply Hr.
Qed.

Lemma utm_zone_from_lon_not_origin lon :
  utm_zone_from_lon lon <> Raise RuntimeError_origin_not_set.
Proof.
  unfold utm_zone_from_lon.
  apply rbind_not_origin.
  { unfold py_floordiv. repeat case_match; discriminate. }
  intros q. apply rbind_not_origin; [|discriminate].
  unfold int_of_float. case_match; discriminate.
Qed.

Lemma float_of_int_not_origin n :
  float_of_int n <> Raise RuntimeError_origin_not_set.
Proof. unfold float_of_int. case_match; discriminate. Qed.

Lemma py_truediv_not_origin x y :
  py_truediv x y <> Raise RuntimeError_origin_not_set.
Proof. unfold py_truediv. case_match; discriminate. Qed.

Lemma call_math_not_origin f x :
  call_math f x <> Raise RuntimeError_origin_not_set.
Proof. unfold call_math. case_match; discriminate. Qed.

Lemma math_sqrt_not_origin x :
  math_sqrt x <> Raise RuntimeError_origin_not_set.
Proof. unfold math_sqrt. case_match; discriminate. Qed.

Lemma pow_not_origin x n :
  pow float_pow x n <> Raise RuntimeError_origin_not_set.
Proof. unfold pow. case_match; discriminate. Qed.

Lemma latlon_to_utm_not_origin lat lon zo :
  latlon_to_utm lat lon zo <> Raise RuntimeError_origin_not_set.
Proof.
  unfold latlon_to_utm.
  apply rbind_not_origin.
  { destruct zo; [discriminate | apply utm_zone_from_lon_not_origin]. }
  intros z.
  repeat (refine (rbind_not_origin _ _ _ _);
          [ lazymatch goal with
            | |- float_of_int _ <> _ => exact (float_of_int_not_origin _)
            | |- py_truediv _ _ <> _ => exact (py_truediv_not_origin _ _)
            | |- call_math _ _ <> _ => exact (call_math_not_origin _ _)
            | |- math_sqrt _ <> _ => exact (math_sqrt_not_origin _)
            | |- pow _ _ _ <> _ => exact (pow_not_origin _ _)
            end
          | intros ? ]).
  discriminate.
Qed.

(** C6.  [to_local_xy] raises the origin-not-set error exactly when no
    origin is stored.  With an origin stored it projects the point in the
    origin's zone, whatever zone the point's own longitude lies in, and
    returns the differences of the eastings and of the northings. *)
Theorem C6_to_local_xy (c : UCMConverter) (lat lon : float) :
  (to_local_xy c lat lon = Raise RuntimeError_origin_not_set
   <-> _origin_utm c = None) /\
  (forall origin, _origin_utm c = Some origin ->
     to_local_xy c lat lon
     = (cur <-? latlon_to_utm lat lon (Some (zone origin));
        Ok (fsub (easting_m cur) (easting_m origin),
            fsub (northing_m cur) (northing_m origin))) /\
     (forall cur, latlon_to_utm lat lon (Some (zone origin)) = Ok cur ->
                  zone cur = zone origin)).
Proof.
  split.
  - unfold to_local_xy. destruct (_origin_utm c) as [o|]; [|done].
    split; [|done]. intros H. exfalso.
    destruct (latlon_to_utm lat lon (Some (zone o))) as [cur|e] eqn:E.
    + discriminate H.
    + cbn [rbind] in H. injection H as ->.
      by apply (latlon_to_utm_not_origin lat lon (Some (zone o))).
  - intros o Ho. split.
    + unfold to_local_xy. by rewrite Ho.
    + intros cur. apply latlon_to_utm_zone.
Qed.

(** Setting the origin stores the projection of the point. *)
Lemma set_origin_inv c lat lon c' :
  set_origin_from_latlon c lat lon = Ok c' ->
  exists o, latlon_to_utm lat lon (fixed_zone c) = Ok o /\
            c' = {| fixed_zone := fixed_zone c; _origin_utm := Some o |}.
Proof.
  unfold set_origin_from_latlon. intros H.
  destruct (latlon_to_utm lat lon (fixed_zone c)) as [o|] eqn:E;
    [|discriminate H].
  cbn [rbind] in H. injection H as <-. by exists o.
Qed.

(** C7 (as amended).  After [set_origin_from_latlon] at a point,
    [to_local_xy] at the same point returns the stored easting and northing
    minus themselves; whenever these two are finite floats this is exactly
    (0.0, 0.0), hence within every tolerance. *)
Theorem C7_to_local_at_origin (c c' : UCMConverter) (lat lon : float) :
  set_origin_from_latlon c lat lon = Ok c' ->
  exists o,
    _origin_utm c' = Some o /\
    to_local_xy c' lat lon
    = Ok (fsub (easting_m o) (easting_m o), fsub (northing_m o) (northing_m o)) /\
    (is_finite (easting_m o) = true -> is_finite (northing_m o) = true ->
     to_local_xy c' lat lon = Ok (S754_zero false, S754_zero false) /\
     forall xy, to_local_xy c' lat lon = Ok xy -> within_tol xy (1 # 1000000)).
Proof.
  intros H. apply set_origin_inv in H as (o & Ho & ->).
  exists o. split; [done|].
  assert (E : to_local_xy {| fixed_zone := fixed_zone c; _origin_utm := Some o |}
                lat lon
              = Ok (fsub (easting_m o) (easting_m o),
                    fsub (northing_m o) (northing_m o))).
  { unfold to_local_xy. cbn [_origin_utm].
    by rewrite (latlon_to_utm_again _ _ _ _ Ho). }
  split; [done|]. intros He Hn.
  rewrite E, (fsub_self _ He), (fsub_self _ Hn). split; [done|].
  intros xy [= <-]. split; by apply approx_zero.
Qed.

(** Where the longitude is not a number, neither is the easting. *)
Lemma latlon_to_utm_nan_lon lat z cur :
  latlon_to_utm lat S754_nan (Some z) = Ok cur -> easting_m cur = S754_nan.
Proof.
  unfold latlon_to_utm. intros H.
  rbind_inv H. injection H as <-. cbn [easting_m].
  replace (_deg2rad S754_nan) with S754_nan by (vm_compute; reflexivity).
  rewrite fsub_nan_l, fmul_nan_r, !fadd_nan_l, fmul_nan_r.
  reflexivity.
Qed.

End Converter.

(* ================================================================== *)
(** * The decoder's epochs *)
(* ================================================================== *)

(** [_parse_line] reads the configuration of the decoder only. *)
Lemma _parse_line_ext d d' line :
  verify_checksum d' = verify_checksum d ->
  _aliases d' = _aliases d -> _parsers d' = _parsers d ->
  _parse_line d' line = _parse_line d line.
Proof. unfold _parse_line. by intros -> -> ->. Qed.

Lemma feed_line_open d h line eid now l :
  _current d = Some l ->
  feed_line d h line eid now =
  match decoded d line with
  | None => (None, d, h)
  | Some msg => (Some msg, d, alter (frame_add msg) l h)
  end.
Proof.
  intros Hc. unfold feed_line, decoded.
  destruct (negb _); [done|].
  destruct (_parse_line d (strip line)); [|done]. by rewrite Hc.
Qed.

Lemma fresh_loc_unused (h : Heap) : h !! fresh (dom h) = None.
Proof. apply not_elem_of_dom, is_fresh. Qed.

Lemma is_gga_sentence_marker line :
  is_gga_sentence line = true -> startswith_dollar (strip line) = true.
Proof.
  unfold is_gga_sentence. by destruct (startswith_dollar (strip line)).
Qed.

(** A line decoded into a record of type GGA passes [is_gga_sentence]. *)
Lemma before_first_app_sep sep a b :
  forallb (fun c => negb (c =? sep)%N) a = true ->
  before_first sep (a ++ sep :: b) = a.
Proof.
  induction a as [|c a IH]; simpl.
  - by rewrite N.eqb_refl.
  - intros [Hc Ha]%andb_true_iff. apply negb_true_iff in Hc.
    by rewrite Hc, (IH Ha).
Qed.

Lemma before_first_none sep a :
  forallb (fun c => negb (c =? sep)%N) a = true -> before_first sep a = a.
Proof.
  induction a as [|c a IH]; simpl; [done|].
  intros [Hc Ha]%andb_true_iff. apply negb_true_iff in Hc.
  by rewrite Hc, (IH Ha).
Qed.

Lemma decoded_gga_is_gga_sentence d line msg :
  decoded d line = Some msg ->
  (forall ty p t m r f c, _parsers d !! ty = Some p ->
                          msg_type (base (p t m r f c)) = m) ->
  msg_type (base msg) = pystr "GGA" ->
  is_gga_sentence line = true.
Proof.
  unfold decoded, is_gga_sentence. intros Hd Hp Hty.
  destruct (startswith_dollar (strip line)) eqn:Hs; [|discriminate Hd].
  simpl in Hd. simpl negb. cbv iota.
  unfold _parse_line in Hd.
  destruct (nmea_re_match (strip line)) as [[body cs]|] eqn:Hm; [|discriminate Hd].
  apply nmea_re_match_inv in Hm as (Hne & Hns & Hshape).
  assert (Hb : before_first 42%N (drop 1 (strip line)) = body).
  { destruct cs as [c|].
    - destruct Hshape as (h1 & h2 & ws & _ & _ & _ & _ & ->). simpl.
      by apply before_first_app_sep.
    - rewrite Hshape. simpl. by apply before_first_none. }
  rewrite Hb.
  destruct (match verify_checksum d, cs with
            | true, Some cs0 => _ | _, _ => None end) as [[]|];
    try discriminate Hd.
  all: destruct (split_on_head 44%N body) as [fields Hsp]; rewrite Hsp in Hd;
    destruct (length (before_first 44%N body) <? 5)%nat eqn:Hlen;
      [discriminate Hd|];
    apply Nat.ltb_ge in Hlen;
    assert (Hmt : drop 2 (before_first 44%N body) = pystr "GGA")
      by (destruct (_parsers d !! _) as [p|] eqn:E;
          injection Hd as <-; [by rewrite (Hp _ _ _ _ _ _ _ E) in Hty | done]);
    rewrite Hmt; simpl take;
    apply andb_true_iff; split; [by apply Nat.leb_le | done].
Qed.

(* ================================================================== *)
(** * The line loop of the parser *)
(* ================================================================== *)

Section ParserFacts.

Variables math_sin math_cos math_tan : float -> option float.
Variable float_pow : float -> Z -> option float.

Local Abbreviation frame_to_ucm :=
  (_frame_to_ucm math_sin math_cos math_tan float_pow).
Local Abbreviation handoff :=
  (hand_off math_sin math_cos math_tan float_pow).
Local Abbreviation step :=
  (process_line math_sin math_cos math_tan float_pow).
Local Abbreviation steps :=
  (poll_bytes math_sin math_cos math_tan float_pow).
Local Abbreviation poll1 :=
  (poll math_sin math_cos math_tan float_pow).

Lemma origin_kept_refl p : origin_kept p p.
Proof.
  split; [done|]. intros Hf Ho. by left.
Qed.

Lemma origin_kept_same p p' :
  _origin_set p' = _origin_set p -> ucm p' = ucm p -> origin_kept p p'.
Proof.
  intros E1 E2. unfold origin_kept. rewrite E1, E2.
  split; [done|]. intros Hf Ho. by left.
Qed.

Lemma origin_kept_trans p1 p2 p3 :
  origin_kept p1 p2 -> origin_kept p2 p3 -> origin_kept p1 p3.
Proof.
  intros [A1 A2] [B1 B2]. split.
  - intros H. destruct (A1 H) as [H2 E2]. destruct (B1 H2) as [H3 E3].
    split; [done|]. by rewrite E3.
  - intros Hf Ho. destruct (A2 Hf Ho) as [[Hf2 Ho2]|[Ht2 Hs2]].
    + exact (B2 Hf2 Ho2).
    + right. destruct (B1 Ht2) as [H3 E3]. split; [done|]. by rewrite E3.
Qed.

Lemma _frame_to_ucm_facts p frame r p' :
  frame_to_ucm p frame = (r, p') ->
  same_config p p' /\ origin_kept p p'.
Proof.
  unfold _frame_to_ucm. intros H.
  destruct (frame_GGA frame) as [|gga ?].
  { injection H as <- <-. split; [done | apply origin_kept_refl]. }
  destruct (extract_latlon_from_nmea_message gga) as [[lat lon]|].
  2:{ injection H as <- <-. split; [done | apply origin_kept_refl]. }
  destruct (_origin_set p) eqn:Hos; simpl in H.
  - destruct (to_local_xy _ _ _ _ (ucm p) lat lon) as [[x y]|e];
      injection H as <- <-; (split; [done | apply origin_kept_refl]).
  - destruct (set_origin_from_latlon _ _ _ _ (ucm p) lat lon) as [c|e] eqn:Hso.
    + assert (K : origin_kept p (set_ucm p c true)).
      { split; [by rewrite Hos|]. intros _ _. right. split; [done|].
        apply set_origin_inv in Hso as (o & _ & ->). by eexists. }
      destruct (to_local_xy _ _ _ _ (ucm (set_ucm p c true)) lat lon)
        as [[x y]|e]; injection H as <- <-; by split.
    + injection H as <- <-. split; [done | apply origin_kept_refl].
Qed.

Lemma notify_ucm_facts p u e p' :
  notify_ucm p u = (e, p') -> same_config p p' /\ origin_kept p p'.
Proof.
  unfold notify_ucm. intros H.
  repeat case_match; simplify_eq; (split; [done | by apply origin_kept_same]).
Qed.

Lemma hand_off_facts p h l e p' :
  handoff p h l = (e, p') -> same_config p p' /\ origin_kept p p'.
Proof.
  unfold hand_off. intros H.
  destruct (h !! l) as [frame|].
  2:{ injection H as <- <-. split; [done | apply origin_kept_refl]. }
  set (p1 := set_last_frame p (Some l)) in *.
  assert (K1 : same_config p p1 /\ origin_kept p p1)
    by (split; [done | by apply origin_kept_same]).
  assert (G : forall q, (same_config p q /\ origin_kept p q) ->
              match frame_to_ucm q frame with
              | (Raise e0, p2) => (Some e0, p2)
              | (Ok None, p2) => (None, p2)
              | (Ok (Some u), p2) => notify_ucm p2 u
              end = (e, p') -> same_config p p' /\ origin_kept p p').
  { intros q [[Q1 [Q2 Q3]] Q4] Hq.
    destruct (frame_to_ucm q frame) as [r p2] eqn:Hf.
    apply _frame_to_ucm_facts in Hf as [[F1 [F2 F3]] F4].
    assert (same_config p p2 /\ origin_kept p p2) as [[S1 [S2 S3]] S4].
    { split; [|by eapply origin_kept_trans].
      unfold same_config. by rewrite F1, F2, F3. }
    destruct r as [[u|]|e0].
    - apply notify_ucm_facts in Hq as [[N1 [N2 N3]] N4].
      split; [|by eapply origin_kept_trans].
      unfold same_config. by rewrite N1, N2, N3.
    - by injection Hq as <- <-.
    - by injection Hq as <- <-. }
  destruct (on_epoch_end p) as [cb|].
  - destruct (cb frame) as [[]|e0].
    + by apply (G p1).
    + injection H as <- <-. split; [done | apply origin_kept_refl].
  - apply (G p); [|done]. split; [done | apply origin_kept_refl].
Qed.

(** One line, when it passes [is_gga_sentence]. *)
Lemma process_line_gga p h line now :
  is_gga_sentence line = true ->
  step p h line now =
  let p1 := set_decoder p (set_current (decoder p) None) in
  let '(e, p2) :=
    match _current (decoder p) with
    | Some l => handoff p1 h l
    | None => (None, p1)
    end in
  match e with
  | Some e => (Some e, p2, h)
  | None =>
      let '(d2, h2, _) := begin_epoch (decoder p2) h None None now in
      let '(_, d3, h3) := feed_line d2 h2 line None now in
      (None, set_decoder p2 d3, h3)
  end.
Proof. intros H. unfold process_line. by rewrite H. Qed.

Lemma process_line_other p h line now :
  is_gga_sentence line = false ->
  step p h line now =
  let '(_, d1, h1) := feed_line (decoder p) h line None now in
  (None, set_decoder p d1, h1).
Proof. intros H. unfold process_line. by rewrite H. Qed.

Lemma process_line_origin p h line now :
  origin_kept p (step p h line now).1.2.
Proof.
  destruct (is_gga_sentence line) eqn:Hg.
  - rewrite process_line_gga by done. cbv zeta.
    set (p1 := set_decoder p (set_current (decoder p) None)).
    assert (K1 : origin_kept p p1) by (apply origin_kept_same; reflexivity).
    destruct (match _current (decoder p) with
              | Some l => handoff p1 h l | None => (None, p1) end)
      as [e p2] eqn:Hh.
    assert (K2 : origin_kept p p2).
    { destruct (_current (decoder p)).
      - apply hand_off_facts in Hh as [_ K]. exact (origin_kept_trans _ _ _ K1 K).
      - by injection Hh as <- <-. }
    destruct e; [done|].
    destruct (begin_epoch _ _ _ _ _) as [[d2 h2] l2].
    destruct (feed_line _ _ _ _ _) as [[m d3] h3]. simpl.
    eapply origin_kept_trans; [exact K2 | apply origin_kept_same; reflexivity].
  - rewrite process_line_other by done.
    destruct (feed_line _ _ _ _ _) as [[m d1] h1]. apply origin_kept_same; reflexivity.
Qed.

Lemma poll_bytes_origin data : forall p h times,
  origin_kept p (steps p h data times).1.2.
Proof.
  induction data as [|b data IH]; intros p h times; simpl.
  { apply origin_kept_refl. }
  destruct (b =? 10)%N.
  - pose proof (process_line_origin (set_line_buf p []) h
                  (decode_ascii_replace (_line_buf p ++ [b])) (times O)) as K.
    assert (K0 : origin_kept p (set_line_buf p []))
      by (apply origin_kept_same; reflexivity).
    destruct (step _ _ _ _) as [[[e|] p1] h1]; simpl in K.
    + simpl. exact (origin_kept_trans _ _ _ K0 K).
    + eapply origin_kept_trans; [|apply IH]. exact (origin_kept_trans _ _ _ K0 K).
  - eapply origin_kept_trans; [|apply IH]. apply origin_kept_same; reflexivity.
Qed.

Lemma poll_origin p h avail read_block times :
  origin_kept p (poll1 p h avail read_block times).1.2.
Proof.
  unfold poll.
  destruct (negb (bus_open p)); [apply origin_kept_refl|].
  destruct (avail <=? 0); [apply origin_kept_refl|].
  destruct (if drop_ff_padding p then _ else _) as [|b data];
    [apply origin_kept_refl|].
  pose proof (poll_bytes_origin (b :: data) p h times) as K.
  by destruct (steps p h (b :: data) times) as [[[e|] p1] h1].
Qed.

End ParserFacts.

(* ================================================================== *)
(** * Epoch rollover, the origin and the callbacks *)
(* ================================================================== *)

Lemma default_parsers_msg_type ty (p : Parser) t m r f c :
  default_parsers !! ty = Some p -> msg_type (base (p t m r f c)) = m.
Proof. intros H. by rewrite (default_parsers_base _ _ _ _ _ _ _ H). Qed.

Lemma alter_present (h : Heap) (f : EpochFrame -> EpochFrame) l fr :
  h !! l = Some fr -> alter f l h = <[ l := f fr ]> h.
Proof.
  intros Hl. apply map_eq. intros k. destruct (decide (k = l)) as [->|Hk].
  - by rewrite lookup_alter_eq, lookup_insert_eq, Hl.
  - by rewrite lookup_alter_ne, lookup_insert_ne.
Qed.

Section Rollover.

Variables math_sin math_cos math_tan : float -> option float.
Variable float_pow : float -> Z -> option float.

Local Abbreviation frame_to_ucm :=
  (_frame_to_ucm math_sin math_cos math_tan float_pow).
Local Abbreviation handoff :=
  (hand_off math_sin math_cos math_tan float_pow).
Local Abbreviation step :=
  (process_line math_sin math_cos math_tan float_pow).
Local Abbreviation poll1 :=
  (poll math_sin math_cos math_tan float_pow).

(** C2 (as amended).  Rollover is decided by [is_gga_sentence] on the text
    of the line.  While an epoch is open, which is so from construction
    until a hand-off raises: a line that does not pass the test neither
    closes nor opens an epoch, its record, if any, being added to the open
    frame; a line that passes it, when the hand-off of the closed epoch
    completes, closes the open epoch first, opens a fresh one with a new
    frame, and adds the record decoded from the line, if any, to the new
    frame, the closed frame and every other frame staying as they were
    before the line; when the hand-off raises, no frame is changed and no
    epoch is open afterwards.  While no epoch is open, nothing is closed: a
    line that passes the test, or is decoded into a record, opens a fresh
    epoch and its record, if any, is stored there; any other line changes
    nothing.  Every line decoded into a record of type GGA passes
    [is_gga_sentence]. *)
Theorem C2_rollover_by_gga_line (p : I2CGNSSParser) (h : Heap) (line : str)
    (now : float) :
  let l' := fresh (dom h) in
  let opened := {| epoch_id := _epoch_counter (decoder p) + 1;
                   t_recv_s := now; messages_by_type := ∅ |} in
  let stored := match decoded (decoder p) line with
                | None => opened
                | Some msg => frame_add msg opened
                end in
  (forall l fr,
     _current (decoder p) = Some l -> h !! l = Some fr ->
     (is_gga_sentence line = false ->
      exists p',
        step p h line now
        = (None, p',
           match decoded (decoder p) line with
           | None => h
           | Some msg => <[ l := frame_add msg fr ]> h
           end) /\
        _current (decoder p') = Some l) /\
     (is_gga_sentence line = true ->
      forall p' h', step p h line now = (None, p', h') ->
        h !! l' = None /\ l' <> l /\
        _current (decoder p') = Some l' /\
        h' !! l = Some fr /\
        (forall k, k <> l' -> h' !! k = h !! k) /\
        h' !! l' = Some stored) /\
     (is_gga_sentence line = true ->
      forall e p' h', step p h line now = (Some e, p', h') ->
        h' = h /\ _current (decoder p') = None) /\
     (forall p' h', step p h line now = (None, p', h') ->
        exists l1 fr1, _current (decoder p') = Some l1 /\ h' !! l1 = Some fr1)) /\
  (_current (decoder p) = None ->
     h !! l' = None /\
     (is_gga_sentence line = false -> decoded (decoder p) line = None ->
      step p h line now = (None, p, h)) /\
     (is_gga_sentence line = true \/ is_Some (decoded (decoder p) line) ->
      exists p',
        step p h line now = (None, p', <[ l' := stored ]> h) /\
        _current (decoder p') = Some l')) /\
  (forall (mc : Z) (fz : option Z) (vc dff : bool)
          (ou : option (UCMResult -> result PyObj))
          (oe : option (EpochFrame -> result unit)) (h0 : Heap) (now0 : float),
     exists l fr,
       _current (decoder (I2CGNSSParser_init mc fz vc dff ou oe h0 now0).1)
       = Some l /\
       (I2CGNSSParser_init mc fz vc dff ou oe h0 now0).2 !! l = Some fr) /\
  (_parsers (decoder p) = default_parsers ->
   forall msg, decoded (decoder p) line = Some msg ->
     msg_type (base msg) = pystr "GGA" -> is_gga_sentence line = true).
Proof.
  intros l' opened stored.
  assert (Hfresh : h !! l' = None) by apply fresh_loc_unused.
  assert (Hdec : forall c k,
            decoded (set_current (set_counter (set_current (decoder p) None) c)
                       k) line = decoded (decoder p) line).
  { intros c k. unfold decoded. by rewrite (_parse_line_ext (decoder p)). }
  assert (Hopen : forall l fr,
            _current (decoder p) = Some l -> h !! l = Some fr ->
            is_gga_sentence line = true ->
            forall p' h', step p h line now = (None, p', h') ->
              h' = <[ l' := stored ]> h /\ _current (decoder p') = Some l').
  { intros l fr Hc Hl Hg p' h'. rewrite process_line_gga by done. cbv zeta.
    rewrite Hc.
    destruct (handoff _ h l) as [e p2] eqn:Hh.
    apply hand_off_facts in Hh as [[Hd _] _]. simpl in Hd.
    destruct e as [e|]; [discriminate|].
    unfold begin_epoch, alloc. rewrite Hd. cbn [_epoch_counter set_current].
    fold l'. fold opened.
    rewrite (feed_line_open _ _ _ _ _ l') by done.
    rewrite Hdec. unfold stored.
    destruct (decoded (decoder p) line) as [msg|];
      intros [= <- <-]; (split; [|done]).
    - rewrite (alter_present _ _ l' opened) by apply lookup_insert_eq.
      apply insert_insert_eq.
    - done. }
  split; [|split; [|split]].
  - intros l fr Hc Hl.
    assert (Hother : is_gga_sentence line = false ->
              exists p',
                step p h line now
                = (None, p',
                   match decoded (decoder p) line with
                   | None => h
                   | Some msg => <[ l := frame_add msg fr ]> h
                   end) /\
                _current (decoder p') = Some l).
    { intros Hg. rewrite process_line_other by done.
      rewrite (feed_line_open _ _ _ _ _ _ Hc).
      destruct (decoded (decoder p) line) as [msg|].
      + rewrite (alter_present _ _ _ _ Hl). eexists. by split.
      + eexists. split; [reflexivity | exact Hc]. }
    split; [exact Hother|]. split; [|split].
    + intros Hg p' h' Hres.
      destruct (Hopen l fr Hc Hl Hg p' h' Hres) as [-> Hcur].
      assert (Hne : l' <> l)
        by (intros E; rewrite E, Hl in Hfresh; discriminate).
      split; [done|]. split; [done|]. split; [done|].
      split; [by rewrite lookup_insert_ne|].
      split; [intros k Hk; by rewrite lookup_insert_ne|].
      by rewrite lookup_insert_eq.
    + intros Hg e p' h'. rewrite process_line_gga by done. cbv zeta.
      rewrite Hc.
      destruct (handoff _ h l) as [e0 p2] eqn:Hh.
      apply hand_off_facts in Hh as [[Hd _] _]. simpl in Hd.
      destruct e0 as [e0|].
      * intros [= <- <- <-]. by rewrite Hd.
      * destruct (begin_epoch _ _ _ _ _) as [[d2 h2] l2].
        destruct (feed_line _ _ _ _ _) as [[m d3] h3]. discriminate.
    + intros p' h' Hres. destruct (is_gga_sentence line) eqn:Hg.
      * destruct (Hopen l fr Hc Hl eq_refl p' h' Hres) as [-> Hcur].
        exists l', stored. split; [done|]. by rewrite lookup_insert_eq.
      * destruct (Hother eq_refl) as (p1 & Hs & Hcur).
        rewrite Hs in Hres. injection Hres as <- <-.
        exists l. destruct (decoded (decoder p) line) as [msg|].
        -- eexists. split; [done|]. by rewrite lookup_insert_eq.
        -- by exists fr.
  - intros Hc. split; [exact Hfresh|]. split.
    + intros Hg Hd. rewrite process_line_other by done.
      unfold feed_line. unfold decoded in Hd.
      destruct (negb (startswith_dollar (strip line)));
        [by destruct p|].
      rewrite Hd. by destruct p.
    + intros Hor. destruct (is_gga_sentence line) eqn:Hg.
      * rewrite process_line_gga by done. cbv zeta. rewrite Hc.
        unfold begin_epoch, alloc. cbn [decoder set_decoder].
        cbn [_epoch_counter set_current]. fold l'. fold opened.
        rewrite (feed_line_open _ _ _ _ _ l') by done.
        rewrite Hdec. unfold stored.
        destruct (decoded (decoder p) line) as [msg|].
        -- eexists.
           split;
             [rewrite (alter_present _ _ l' opened) by apply lookup_insert_eq;
              by rewrite insert_insert_eq | done].
        -- eexists. by split.
      * destruct Hor as [Hor|[msg Hm]]; [discriminate Hor|].
        rewrite process_line_other by done.
        unfold stored. rewrite Hm.
        unfold feed_line. unfold decoded in Hm.
        destruct (negb (startswith_dollar (strip line)));
          [discriminate Hm|].
        rewrite Hm, Hc. unfold begin_epoch, alloc. cbn.
        fold l'. fold opened.
        eexists.
        split;
          [rewrite (alter_present _ _ l' opened) by apply lookup_insert_eq;
           by rewrite insert_insert_eq | done].
  - intros mc fz vc dff ou oe h0 now0.
    unfold I2CGNSSParser_init, begin_epoch, alloc. cbn.
    eexists _, _. split; [reflexivity|]. apply lookup_insert_eq.
  - intros Hp msg Hm Hty.
    apply (decoded_gga_is_gga_sentence (decoder p) line msg Hm); [|done].
    intros ty q t m r f c Hq. rewrite Hp in Hq.
    by apply (default_parsers_msg_type ty).
Qed.

(** C5 (as amended).  Within the parser the origin is written under the
    guard [_origin_set]: once the flag is set, no poll changes the flag or
    the stored origin; before that, a poll leaves the origin unset or sets
    it together with the flag. *)
Theorem C5_origin_set_at_most_once (p : I2CGNSSParser) (h : Heap)
    (avail : Z) (read_block : Z -> list N) (times : nat -> float) :
  let p' := (poll1 p h avail read_block times).1.2 in
  (_origin_set p = true ->
   _origin_set p' = true /\ _origin_utm (ucm p') = _origin_utm (ucm p)) /\
  (_origin_set p = false -> _origin_utm (ucm p) = None ->
   (_origin_set p' = false /\ _origin_utm (ucm p') = None) \/
   (_origin_set p' = true /\ is_Some (_origin_utm (ucm p')))).
Proof. exact (poll_origin _ _ _ _ p h avail read_block times). Qed.

(** C8 (the code as it is).  When a line closes an epoch for which a result
    is produced and an [on_ucm] callback is registered, the step does not
    complete: the value the callback returns is read for its [x_m], which
    raises [AttributeError] when it is [None], and the list
    [last_succesful_ucm] is then called, which raises [TypeError].  No new
    epoch is begun and the line is not stored. *)
Theorem C8_on_ucm_result_is_consumed (p : I2CGNSSParser) (h : Heap)
    (line : str) (now : float) (l : loc) (frame : EpochFrame)
    (p1 : I2CGNSSParser) (u : UCMResult) (cb : UCMResult -> result PyObj) :
  is_gga_sentence line = true ->
  _current (decoder p) = Some l ->
  h !! l = Some frame ->
  on_epoch_end p = None ->
  on_ucm p = Some cb ->
  frame_to_ucm (set_decoder p (set_current (decoder p) None)) frame
  = (Ok (Some u), p1) ->
  exists e,
    step p h line now = (Some e, p1, h) /\
    _current (decoder p1) = None /\
    (cb u = Ok PyNone -> e = AttributeError) /\
    (forall x y, cb u = Ok (PyHasXY x y) -> e = TypeError).
Proof.
  intros Hg Hc Hl He Hu Hf.
  rewrite process_line_gga by done. cbv zeta. rewrite Hc.
  unfold hand_off. rewrite Hl. cbn [on_epoch_end set_decoder]. rewrite He, Hf.
  pose proof (_frame_to_ucm_facts _ _ _ _ _ _ _ _ Hf) as [[Hd [Hou _]] _].
  simpl in Hd, Hou.
  unfold notify_ucm. rewrite Hou, Hu.
  destruct (cb u) as [[|x y|]|e0].
  - exists AttributeError. by rewrite Hd.
  - exists TypeError. by rewrite Hd.
  - exists AttributeError. by rewrite Hd.
  - exists e0. by rewrite Hd.
Qed.

(** C9 (the code as it is).  The epoch the constructor begins has id 1, and
    so has the epoch the first rollover begins: the explicit id does not
    advance the counter from which later ids are drawn. *)
Theorem C9_first_two_epochs_share_id (now0 now1 : float) :
  let '(p0, h0) := I2CGNSSParser_default ∅ now0 in
  let '(e, p1, h1) := step p0 h0 ref_line_47 now1 in
  e = None /\
  exists l0 l1 f0 f1,
    _current (decoder p0) = Some l0 /\ _current (decoder p1) = Some l1 /\
    l0 <> l1 /\ h1 !! l0 = Some f0 /\ h1 !! l1 = Some f1 /\
    epoch_id f0 = 1 /\ epoch_id f1 = 1.
Proof.
  vm_compute. split; [reflexivity|].
  eexists _, _, _, _. repeat split; try reflexivity. discriminate.
Qed.

End Rollover.

(* ================================================================== *)
(** * The statements at concrete inputs *)
(* ================================================================== *)

Lemma C2_witness :
  is_gga_sentence ref_line_47 = true /\
  (forall p' h',
     demo_process_line fresh_parser.1 fresh_parser.2 ref_line_47 fone
     = (None, p', h') ->
     fresh_parser.2 !! 1%nat = None /\
     _current (decoder p') = Some 1%nat /\
     h' !! 0%nat = Some {| epoch_id := 1; t_recv_s := fzero;
                           messages_by_type := ∅ |}) /\
  (is_gga_sentence txt_line = false /\
   _current (decoder closed_parser) = None /\
   exists p',
     demo_process_line closed_parser fresh_parser.2 txt_line fone
     = (None, p',
        <[ 1%nat :=
             match decoded (decoder closed_parser) txt_line with
             | None => {| epoch_id := 1; t_recv_s := fone;
                          messages_by_type := ∅ |}
             | Some msg =>
                 frame_add msg {| epoch_id := 1; t_recv_s := fone;
                                  messages_by_type := ∅ |}
             end ]> fresh_parser.2) /\
     _current (decoder p') = Some 1%nat).
Proof.
  split; [vm_compute; reflexivity|]. split.
  - intros p' h' H.
    destruct (C2_rollover_by_gga_line demo_sin demo_cos demo_tan demo_pow
                fresh_parser.1 fresh_parser.2 ref_line_47 fone) as (HA & _).
    destruct (HA 0%nat
                {| epoch_id := 1; t_recv_s := fzero; messages_by_type := ∅ |}
                eq_refl eq_refl) as (_ & Hg & _).
    destruct (Hg eq_refl p' h' H) as (H1 & _ & H3 & H4 & _).
    split; [exact H1|]. split; [exact H3 | exact H4].
  - split; [vm_compute; reflexivity|]. split; [reflexivity|].
    destruct (C2_rollover_by_gga_line demo_sin demo_cos demo_tan demo_pow
                closed_parser fresh_parser.2 txt_line fone) as (_ & HB & _).
    destruct (HB eq_refl) as (_ & _ & Hopen).
    apply Hopen. right. vm_compute. eexists. reflexivity.
Defined.

(** C2, as stated, fails in one direction: a line whose type is not GGA but
    begins with these three letters also closes the epoch. *)
Lemma C2_counterexample :
  let r := demo_process_line fresh_parser.1 fresh_parser.2
             (pystr "$GNGGAX,1") fone in
  option_map (fun msg => (msg_type (base msg), kind msg))
    (decoded (decoder fresh_parser.1) (pystr "$GNGGAX,1"))
  = Some (pystr "GGAX", NMEAGeneric) /\
  r.1.1 = None /\
  _current (decoder fresh_parser.1) = Some 0%nat /\
  _current (decoder r.1.2) = Some 1%nat.
Proof. vm_compute. repeat split; reflexivity. Qed.

Lemma C5_witness :
  let p := parser_with_origin.1 in
  let p' := (demo_poll p parser_with_origin.2 32
               (fun _ => other_line ++ [10%N]) (fun _ => fone)).1.2 in
  _origin_set p' = true /\ _origin_utm (ucm p') = _origin_utm (ucm p).
Proof.
  apply (proj1 (C5_origin_set_at_most_once demo_sin demo_cos demo_tan demo_pow
                  parser_with_origin.1 parser_with_origin.2 32
                  (fun _ => other_line ++ [10%N]) (fun _ => fone))).
  vm_compute. reflexivity.
Defined.

(** C5, as stated of the converter, fails: a second call of
    [set_origin_from_latlon] replaces the origin. *)
Lemma C5_counterexample :
  ~ (forall (math_sin math_cos math_tan : float -> option float)
            (float_pow : float -> Z -> option float)
            (c c1 c2 : UCMConverter) (lat1 lon1 lat2 lon2 : float),
       set_origin_from_latlon math_sin math_cos math_tan float_pow c lat1 lon1
       = Ok c1 ->
       set_origin_from_latlon math_sin math_cos math_tan float_pow c1 lat2 lon2
       = Ok c2 ->
       _origin_utm c2 = _origin_utm c1).
Proof.
  intros H.
  destruct (demo_set_origin (UCMConverter_init (Some 52))
              (float_lit "1.0") (float_lit "127.0")) as [c1|] eqn:E1;
    [|vm_compute in E1; discriminate E1].
  destruct (demo_set_origin c1 (float_lit "-1.0") (float_lit "127.0"))
    as [c2|] eqn:E2.
  - specialize (H _ _ _ _ _ _ _ _ _ _ _ E1 E2).
    apply set_origin_inv in E1 as (o1 & Ho1 & ->).
    apply set_origin_inv in E2 as (o2 & Ho2 & ->).
    simpl in H. injection H as ->.
    apply latlon_to_utm_hemisphere in Ho1, Ho2.
    rewrite Ho1 in Ho2. vm_compute in Ho2. discriminate Ho2.
  - apply set_origin_inv in E1 as (o1 & Ho1 & ->).
    vm_compute in E2. discriminate E2.
Qed.

Lemma C6_witness :
  exists origin,
    _origin_utm converter_with_origin = Some origin /\
    demo_to_local converter_with_origin (float_lit "48.2") (float_lit "11.6")
    = (cur <-? latlon_to_utm demo_sin demo_cos demo_tan demo_pow
                 (float_lit "48.2") (float_lit "11.6") (Some (zone origin));
       Ok (fsub (easting_m cur) (easting_m origin),
           fsub (northing_m cur) (northing_m origin))).
Proof.
  destruct (_origin_utm converter_with_origin) as [o|] eqn:E;
    [|vm_compute in E; discriminate E].
  exists o. split; [reflexivity|].
  exact (proj1 (proj2 (C6_to_local_xy demo_sin demo_cos demo_tan demo_pow
                         converter_with_origin
                         (float_lit "48.2") (float_lit "11.6")) o E)).
Defined.

Lemma C7_witness :
  exists c' o,
    demo_set_origin (UCMConverter_init (Some 52)) ref_lat ref_lon = Ok c' /\
    _origin_utm c' = Some o /\
    demo_to_local c' ref_lat ref_lon
    = Ok (fsub (easting_m o) (easting_m o), fsub (northing_m o) (northing_m o)) /\
    (is_finite (easting_m o) = true -> is_finite (northing_m o) = true ->
     demo_to_local c' ref_lat ref_lon = Ok (S754_zero false, S754_zero false) /\
     forall xy, demo_to_local c' ref_lat ref_lon = Ok xy ->
                within_tol xy (1 # 1000000)).
Proof.
  destruct (demo_set_origin (UCMConverter_init (Some 52)) ref_lat ref_lon)
    as [c'|] eqn:E; [|vm_compute in E; discriminate E].
  destruct (C7_to_local_at_origin demo_sin demo_cos demo_tan demo_pow
              (UCMConverter_init (Some 52)) c' ref_lat ref_lon E)
    as (o & H1 & H2 & H3).
  exists c', o. split; [reflexivity|]. split; [exact H1|].
  split; [exact H2 | exact H3].
Defined.

(** C7, as stated for every pair, fails where the projection is not finite:
    with an infinite longitude, which the decoder produces from a field such
    as [0111.e999], the result is not a number. *)
Lemma C7_counterexample :
  parse_lat_lon (pystr "0111.e999") (pystr "E") = Some (S754_infinity false) /\
  ~ (forall (math_sin math_cos math_tan : float -> option float)
            (float_pow : float -> Z -> option float)
            (c c' : UCMConverter) (lat lon : float) (xy : float * float),
       set_origin_from_latlon math_sin math_cos math_tan float_pow c lat lon
       = Ok c' ->
       to_local_xy math_sin math_cos math_tan float_pow c' lat lon = Ok xy ->
       within_tol xy (1 # 1000000)).
Proof.
  split; [vm_compute; reflexivity|]. intros H.
  destruct (demo_set_origin (UCMConverter_init (Some 52)) ref_lat
              (S754_infinity false)) as [c'|] eqn:E;
    [|vm_compute in E; discriminate E].
  destruct (demo_to_local c' ref_lat (S754_infinity false)) as [xy|] eqn:E2.
  - specialize (H _ _ _ _ _ _ _ _ _ E E2).
    vm_compute in E. injection E as <-.
    vm_compute in E2. injection E2 as <-.
    destruct H as [[Hf _] _]. discriminate Hf.
  - vm_compute in E. injection E as <-. vm_compute in E2. discriminate E2.
Qed.

Lemma C8_witness :
  exists e p1,
    demo_process_line parser_with_callback.1 parser_with_callback.2
      ref_line_47 fone
    = (Some e, p1, parser_with_callback.2) /\
    _current (decoder p1) = None /\ e = AttributeError.
Proof.
  assert (X : match parser_with_callback.2 !! 1%nat with
              | Some frame =>
                  match (_frame_to_ucm demo_sin demo_cos demo_tan demo_pow
                           (set_decoder parser_with_callback.1
                              (set_current (decoder parser_with_callback.1) None))
                           frame).1 with
                  | Ok (Some _) => true
                  | _ => false
                  end
              | None => false
              end = true) by (vm_compute; reflexivity).
  destruct (parser_with_callback.2 !! 1%nat) as [frame|] eqn:Ef;
    [|discriminate X].
  destruct (_frame_to_ucm demo_sin demo_cos demo_tan demo_pow
              (set_decoder parser_with_callback.1
                 (set_current (decoder parser_with_callback.1) None)) frame)
    as [r p1] eqn:Eu.
  destruct r as [[u|]|e0]; try discriminate X.
  destruct (C8_on_ucm_result_is_consumed demo_sin demo_cos demo_tan demo_pow
              parser_with_callback.1 parser_with_callback.2 ref_line_47 fone
              1%nat frame p1 u (fun _ => Ok PyNone)
              eq_refl eq_refl Ef eq_refl eq_refl Eu)
    as (e & He & Hc & Hn & _).
  exists e, p1. split; [exact He|]. split; [exact Hc | by apply Hn].
Defined.

(* ================================================================== *)
(** * Further properties of the decoder *)
(* ================================================================== *)

(** What [_parse_line] returns for a line that matches the pattern, is not
    dropped by the checksum test and has a header of five characters or
    more. *)
Lemma _parse_line_accepts d line body cs :
  nmea_re_match line = Some (body, cs) ->
  checksum_outcome d body cs <> Some false ->
  (5 <= length (header_of body))%nat ->
  _parse_line d line =
  Some match _parsers d !! default (type_of body) (_aliases d !! type_of body) with
       | None =>
           {| base := mk_base (take 2 (header_of body)) (type_of body) line
                        (fields_of body) (checksum_outcome d body cs);
              kind := NMEAGeneric |}
       | Some parser =>
           parser (take 2 (header_of body)) (type_of body) line
             (fields_of body) (checksum_outcome d body cs)
       end.
Proof.
  intros Hm Hc Hlen. unfold _parse_line. rewrite Hm.
  fold (checksum_outcome d body cs).
  unfold fields_of, type_of.
  destruct (split_on_head 44%N body) as [fields ->]. fold (header_of body).
  replace (length (header_of body) <? 5)%nat with false
    by (symmetry; apply Nat.ltb_ge; lia).
  cbn [drop].
  destruct (checksum_outcome d body cs) as [[]|]; [|done|].
  all: by destruct (_parsers d !! _).
Qed.

(** X1.  A line matches the sentence pattern exactly when it is the marker
    and a non-empty body without a star, followed either by nothing or by a
    star, two hexadecimal digits and white space only; the groups are then
    that body and those two digits. *)
Theorem X1_pattern_shape (line body : str) (cs : option str) :
  nmea_re_match line = Some (body, cs) <->
  body <> [] /\ no_star body = true /\
  match cs with
  | None => line = 36%N :: body
  | Some c =>
      exists h1 h2 ws, c = [h1; h2] /\ is_hex h1 = true /\ is_hex h2 = true /\
        re_trailer ws = true /\ line = 36%N :: body ++ 42%N :: h1 :: h2 :: ws
  end.
Proof.
  split; [apply nmea_re_match_inv|].
  intros (Hne & Hns & Hshape). destruct cs as [c|].
  - destruct Hshape as (h1 & h2 & ws & -> & H1 & H2 & Hw & ->).
    by apply nmea_re_match_checksum.
  - subst line. by apply nmea_re_match_plain.
Qed.

Lemma X1_witness :
  nmea_re_match (pystr "$GNGGA,1") = Some (pystr "GNGGA,1", None).
Proof.
  apply (proj2 (X1_pattern_shape (pystr "$GNGGA,1") (pystr "GNGGA,1") None)).
  split; [discriminate|]. split; reflexivity.
Defined.

(** X2.  With verification enabled and the initial registry, a line whose
    declared checksum equals the XOR of its body and whose header has five
    characters or more is decoded, and the record's [checksum_ok] is
    [True]. *)
Theorem X2_verified_line_is_marked (d : NMEADecoder) (line body cs : str) :
  verify_checksum d = true ->
  _parsers d = default_parsers ->
  nmea_re_match line = Some (body, Some cs) ->
  int_hex2 cs = nmea_checksum_xor body ->
  (5 <= length (header_of body))%nat ->
  exists msg,
    _parse_line d line = Some msg /\
    checksum_ok (base msg) = Some true /\
    raw (base msg) = line /\
    msg_type (base msg) = type_of body /\
    fields (base msg) = fields_of body.
Proof.
  intros Hv Hp Hm Hcs Hlen.
  assert (Hco : checksum_outcome d body (Some cs) = Some true).
  { unfold checksum_outcome. rewrite Hv, Hcs. by rewrite N.eqb_refl. }
  rewrite (_parse_line_accepts d line body (Some cs)); [|done|by rewrite Hco|done].
  rewrite Hco, Hp.
  destruct (default_parsers !! _) as [p|] eqn:E.
  - eexists. split; [reflexivity|].
    by rewrite (default_parsers_base _ _ _ _ _ _ _ E).
  - eexists. by split.
Qed.

Lemma X2_witness :
  exists msg,
    _parse_line (NMEADecoder_init true) ref_line_59 = Some msg /\
    checksum_ok (base msg) = Some true /\
    raw (base msg) = ref_line_59 /\
    msg_type (base msg) = type_of ref_body /\
    fields (base msg) = fields_of ref_body.
Proof.
  apply (X2_verified_line_is_marked (NMEADecoder_init true) ref_line_59
           ref_body (pystr "59")).
  - reflexivity.
  - reflexivity.
  - vm_compute. reflexivity.
  - vm_compute. reflexivity.
  - vm_compute. lia.
Defined.

(** X3.  Verification does not require a checksum: with verification
    enabled, a line without the checksum group is decoded like any other,
    and its [checksum_ok] is [None]. *)
Theorem X3_line_without_checksum (d : NMEADecoder) (line body : str) :
  _parsers d = default_parsers ->
  nmea_re_match line = Some (body, None) ->
  (5 <= length (header_of body))%nat ->
  exists msg,
    _parse_line d line = Some msg /\
    checksum_ok (base msg) = None /\
    raw (base msg) = 36%N :: body.
Proof.
  intros Hp Hm Hlen.
  assert (Hco : checksum_outcome d body None = None).
  { unfold checksum_outcome. by destruct (verify_checksum d). }
  assert (Hline : line = 36%N :: body).
  { by apply nmea_re_match_inv in Hm as (_ & _ & ->). }
  rewrite (_parse_line_accepts d line body None); [|done|by rewrite Hco|done].
  rewrite Hco, Hp, <- Hline.
  destruct (default_parsers !! _) as [p|] eqn:E.
  - eexists. split; [reflexivity|].
    by rewrite (default_parsers_base _ _ _ _ _ _ _ E).
  - eexists. by split.
Qed.

Lemma X3_witness :
  exists msg,
    _parse_line (NMEADecoder_init true) (36%N :: ref_body) = Some msg /\
    checksum_ok (base msg) = None /\
    raw (base msg) = 36%N :: ref_body.
Proof.
  apply (X3_line_without_checksum (NMEADecoder_init true) (36%N :: ref_body)
           ref_body).
  - reflexivity.
  - vm_compute. reflexivity.
  - vm_compute. lia.
Defined.

(** X4.  A sentence whose type has neither a parser nor an alias leading to
    one yields a Generic record that carries the line as it was given, the
    talker, the type and the fields after the header. *)
Theorem X4_unknown_type_is_generic (d : NMEADecoder) (line body : str)
    (cs : option str) :
  nmea_re_match line = Some (body, cs) ->
  checksum_outcome d body cs <> Some false ->
  (5 <= length (header_of body))%nat ->
  _parsers d !! default (type_of body) (_aliases d !! type_of body) = None ->
  _parse_line d line =
  Some {| base := {| talker := take 2 (header_of body);
                     msg_type := type_of body;
                     raw := line;
                     fields := fields_of body;
                     checksum_ok := checksum_outcome d body cs |};
          kind := NMEAGeneric |}.
Proof.
  intros Hm Hc Hlen Hnone.
  rewrite (_parse_line_accepts d line body cs) by done.
  unfold Parser in *. by rewrite Hnone.
Qed.

Lemma X4_witness :
  _parse_line (NMEADecoder_init false) (pystr "$GNZDA,201530.00,04,07,2002")
  = Some {| base := {| talker := pystr "GN"; msg_type := pystr "ZDA";
                       raw := pystr "$GNZDA,201530.00,04,07,2002";
                       fields := [pystr "201530.00"; pystr "04"; pystr "07";
                                  pystr "2002"];
                       checksum_ok := None |};
            kind := NMEAGeneric |}.
Proof.
  apply (X4_unknown_type_is_generic (NMEADecoder_init false)
           (pystr "$GNZDA,201530.00,04,07,2002")
           (pystr "GNZDA,201530.00,04,07,2002") None).
  - vm_compute. reflexivity.
  - discriminate.
  - vm_compute. lia.
  - vm_compute. reflexivity.
Defined.

(** X5.  After [register_alias(ty, target)], a sentence of type [ty] is parsed
    by the parser registered for [target], yet the record keeps [ty] as its
    type, under which it is stored. *)
Theorem X5_alias_keeps_type (d : NMEADecoder) (ty target : str)
    (parser : Parser) (line body : str) (cs : option str) :
  _parsers d !! target = Some parser ->
  nmea_re_match line = Some (body, cs) ->
  checksum_outcome d body cs <> Some false ->
  (5 <= length (header_of body))%nat ->
  type_of body = ty ->
  _parse_line (register_alias d ty target) line
  = Some (parser (take 2 (header_of body)) ty line (fields_of body)
            (checksum_outcome d body cs)).
Proof.
  intros Hp Hm Hc Hlen Hty.
  rewrite (_parse_line_accepts _ line body cs); [|done|done|done].
  cbn [_aliases _parsers register_alias]. rewrite Hty.
  rewrite lookup_insert_eq. cbn [default from_option id].
  unfold Parser in *. by rewrite Hp.
Qed.

Lemma X5_witness :
  _parse_line (register_alias (NMEADecoder_init false) (pystr "GCC") (pystr "GGA"))
    (pystr "$GNGCC,123519,4807.038,N,01131.000,E,1,08")
  = Some (_parse_gga (pystr "GN") (pystr "GCC")
            (pystr "$GNGCC,123519,4807.038,N,01131.000,E,1,08")
            (fields_of (pystr "GNGCC,123519,4807.038,N,01131.000,E,1,08"))
            None).
Proof.
  apply (X5_alias_keeps_type (NMEADecoder_init false) (pystr "GCC") (pystr "GGA")
           _parse_gga (pystr "$GNGCC,123519,4807.038,N,01131.000,E,1,08")
           (pystr "GNGCC,123519,4807.038,N,01131.000,E,1,08") None).
  - reflexivity.
  - vm_compute. reflexivity.
  - discriminate.
  - vm_compute. lia.
  - reflexivity.
Defined.

(** X6.  [register_parser] overrides: a later registration for a type
    replaces an earlier one, also a built-in one, for sentences of that
    type; sentences whose type (after aliasing) is another are decoded as
    before. *)
Theorem X6_register_parser_overrides (d : NMEADecoder) (ty : str)
    (p1 p2 : Parser) (line body : str) (cs : option str) :
  nmea_re_match line = Some (body, cs) ->
  checksum_outcome d body cs <> Some false ->
  (5 <= length (header_of body))%nat ->
  (default (type_of body) (_aliases d !! type_of body) = ty ->
   _parse_line (register_parser (register_parser d ty p1) ty p2) line
   = Some (p2 (take 2 (header_of body)) (type_of body) line (fields_of body)
             (checksum_outcome d body cs))) /\
  (default (type_of body) (_aliases d !! type_of body) <> ty ->
   _parse_line (register_parser d ty p2) line = _parse_line d line).
Proof.
  intros Hm Hc Hlen. split; intros Hty.
  - rewrite (_parse_line_accepts _ line body cs); [|done|done|done].
    cbn [_aliases _parsers register_parser]. rewrite Hty.
    by rewrite lookup_insert_eq.
  - rewrite (_parse_line_accepts _ line body cs); [|done|done|done].
    rewrite (_parse_line_accepts d line body cs); [|done|done|done].
    cbn [_aliases _parsers register_parser].
    by rewrite lookup_insert_ne.
Qed.

Lemma X6_witness :
  _parse_line (register_parser (register_parser (NMEADecoder_init false)
                                  (pystr "GGA") _parse_gll) (pystr "GGA") _parse_txt)
    ref_line_47
  = Some (_parse_txt (take 2 (header_of ref_body)) (type_of ref_body)
            ref_line_47 (fields_of ref_body) None).
Proof.
  apply (proj1 (X6_register_parser_overrides (NMEADecoder_init false)
                  (pystr "GGA") _parse_gll _parse_txt ref_line_47 ref_body
                  (Some (pystr "47")) ltac:(vm_compute; reflexivity)
                  ltac:(discriminate) ltac:(vm_compute; lia))).
  reflexivity.
Defined.

(* ================================================================== *)
(** * Further properties of the field readers *)
(* ================================================================== *)

Lemma runs_read_as_ascii_true : runs_read_as_ascii = true.
Proof. vm_compute. reflexivity. Qed.

(** A digit moved into another run of decimal digits is read as itself. *)
Lemma ascii_digit_shift z c :
  In z decimal_zeros -> is_digit c = true -> ascii_digit (z + (c - 48)) = c.
Proof.
  intros Hz Hc. apply is_digit_range in Hc.
  pose proof runs_read_as_ascii_true as H. unfold runs_read_as_ascii in H.
  rewrite forallb_forall in H. specialize (H z Hz).
  rewrite forallb_forall in H.
  assert (Hd : In (c - 48)%N [0; 1; 2; 3; 4; 5; 6; 7; 8; 9]%N).
  { assert (E : exists k, (k < 10)%nat /\ (c - 48)%N = N.of_nat k).
    { exists (N.to_nat (c - 48)). split; [lia|]. by rewrite N2Nat.id. }
    destruct E as (k & Hk & ->).
    do 10 (destruct k as [|k]; [simpl; tauto|]). lia. }
  specialize (H _ Hd). apply N.eqb_eq in H. rewrite H. lia.
Qed.

Lemma py_int_minus ds :
  all_digits ds -> ds <> [] ->
  py_int (45%N :: ds)
  = if int_max_str_digits <? Z.of_nat (length ds) then Raise ValueError
    else Ok (- digits_val ds).
Proof.
  intros Hd Hne. unfold py_int. cbn [map].
  rewrite (map_ascii_digit_plain ds (all_digits_plain ds Hd)).
  change (ascii_digit 45) with 45%N.
  destruct (exists_last Hne) as (mid & z & ->).
  assert (Hz : is_digit z = true).
  { apply (proj1 (forallb_forall _ _) Hd). apply in_app_iff. right. by left. }
  rewrite num_strip_ends by (done || by apply is_digit_not_space).
  change (read_sign (45%N :: mid ++ [z])) with (true, mid ++ [z]).
  destruct (mid ++ [z]) as [|c ds] eqn:E; [by destruct mid|].
  assert (Hc : is_digit c = true)
    by (unfold all_digits in Hd; simpl in Hd; by apply andb_true_iff in Hd as [? _]).
  by rewrite Hc, (int_digits_all _ Hd).
Qed.

(** X7.  [to_int] reads a non-empty run of at most 4300 decimal digits as the
    number it writes, leading zeros included, and the same run after a minus
    sign as its negation; a longer run is absent.  The digits of another
    script are read as the ASCII digits of the same values. *)
Theorem X7_to_int_digits (ds : str) :
  all_digits ds -> ds <> [] ->
  (Z.of_nat (length ds) <= int_max_str_digits ->
   to_int ds = Some (digits_val ds) /\
   to_int (45%N :: ds) = Some (- digits_val ds)) /\
  (int_max_str_digits < Z.of_nat (length ds) ->
   to_int ds = None /\ to_int (45%N :: ds) = None) /\
  (forall z, In z decimal_zeros ->
     to_int (map (fun c => z + (c - 48))%N ds) = to_int ds).
Proof.
  intros Hd Hne. split; [|split].
  - intros Hlen. split.
    + unfold to_int. destruct ds; [done|]. by rewrite py_int_digits.
    + unfold to_int. rewrite py_int_minus by done.
      by replace (int_max_str_digits <? Z.of_nat (length ds)) with false
        by (symmetry; by apply Z.ltb_ge).
  - intros Hlen. split.
    + unfold to_int. destruct ds; [done|]. by rewrite py_int_too_long.
    + unfold to_int. rewrite py_int_minus by done.
      by replace (int_max_str_digits <? Z.of_nat (length ds)) with true
        by (symmetry; by apply Z.ltb_lt).
  - intros z Hz.
    assert (E : map ascii_digit (map (fun c => z + (c - 48))%N ds)
                = map ascii_digit ds).
    { rewrite map_map.
      rewrite (map_ascii_digit_plain ds (all_digits_plain ds Hd)).
      rewrite <- (map_id ds) at 2. apply map_ext_in.
      intros k Hk. apply ascii_digit_shift; [done|].
      exact (proj1 (forallb_forall _ _) Hd k Hk). }
    destruct ds as [|c ds']; [done|].
    change (to_int (map (fun c => z + (c - 48))%N (c :: ds')))
      with (catch_none (py_int (map (fun c => z + (c - 48))%N (c :: ds')))).
    change (to_int (c :: ds')) with (catch_none (py_int (c :: ds'))).
    unfold py_int. by rewrite E.
Qed.

Lemma X7_witness :
  to_int (pystr "08") = Some (digits_val (pystr "08")) /\
  to_int (45%N :: pystr "08") = Some (- digits_val (pystr "08")) /\
  to_int [1632; 1640]%N = to_int (pystr "08").
Proof.
  destruct (X7_to_int_digits (pystr "08") eq_refl ltac:(discriminate))
    as (H1 & _ & H3).
  split; [apply H1; vm_compute; discriminate|].
  split; [apply H1; vm_compute; discriminate|].
  apply (H3 1632%N). right. left. reflexivity.
Defined.

(** X8.  A field with a character that is neither a decimal digit, a sign, an
    underscore nor white space is absent for [to_int]; so is a field without
    a decimal digit, and so is the empty field. *)
Theorem X8_to_int_rejects (x : str) :
  (exists c, In c x /\ int_char c = false) \/ existsb is_decimal x = false ->
  to_int x = None.
Proof.
  intros H. unfold to_int. destruct x as [|x0 x']; [done|].
  destruct (py_int (x0 :: x')) as [z|] eqn:E; [|done]. exfalso.
  apply py_int_ok in E as (H1 & H2 & _).
  destruct H as [(c & Hin & Hc) | H]; [|congruence].
  rewrite forallb_forall in H1. rewrite (H1 c Hin) in Hc. discriminate.
Qed.

Lemma X8_witness :
  to_int (pystr "1A") = None /\ to_int (pystr "+") = None /\ to_int [] = None.
Proof.
  split; [|split].
  - apply (X8_to_int_rejects (pystr "1A")). left. exists 65%N.
    split; [right; left; reflexivity | reflexivity].
  - apply (X8_to_int_rejects (pystr "+")). right. reflexivity.
  - apply (X8_to_int_rejects []). right. reflexivity.
Defined.

Lemma all_below_spec n m f :
  all_below n m f = true ->
  forall i, m <= i < m + Z.of_nat n -> f i = true.
Proof.
  revert m. induction n as [|n IH]; intros m H i Hi; [lia|].
  cbn [all_below] in H. apply andb_true_iff in H as [H0 H1].
  destruct (Z.eq_dec i m) as [->|Hne]; [done|].
  apply (IH (m + 1) H1). lia.
Qed.

Lemma short_decimals_read :
  forallb (fun k => all_below (Z.to_nat 10000) 0
                      (fun m => reads_within_bound m k))
    [0; 1; 2; 3; 4] = true.
Proof. vm_compute. reflexivity. Qed.

Lemma reads_within_bound_short m k :
  0 <= m < 10000 -> 0 <= k <= 4 -> reads_within_bound m k = true.
Proof.
  intros Hm Hk. pose proof short_decimals_read as H.
  rewrite forallb_forall in H.
  assert (Hin : In k [0; 1; 2; 3; 4]) by (simpl; lia).
  apply (all_below_spec _ _ _ (H k Hin)). rewrite Z2Nat.id; lia.
Qed.

(** X9.  [to_float] reads a field of at most four digits with a point among
    them as a finite float that differs from the decimal number written by at
    most [2^-53] of it.  The empty field is absent rather than zero, and so
    is a field with a point that has no digit or more than one point. *)
Theorem X9_to_float_decimal (mi mf : str) :
  all_digits mi -> all_digits mf -> mi ++ mf <> [] ->
  (length (mi ++ mf) <= 4)%nat ->
  let q := (digits_val (mi ++ mf) # Z.to_pos (10 ^ Z.of_nat (length mf)))%Q in
  (exists r,
     to_float (mi ++ 46%N :: mf) = Some r /\ is_finite r = true /\
     (Qabs (float_to_Q r - q) * inject_Z (2 ^ 53) <= q)%Q) /\
  to_float [] = None /\
  (forall x, contains 46%N x = true ->
     points x <> 1%nat \/ existsb is_decimal x = false ->
     to_float x = None).
Proof.
  intros Hi Hf Hne Hlen q. split; [|split; [done|]].
  - exists (dec_to_float false (digits_val (mi ++ mf))
              (- Z.of_nat (length mf))).
    split.
    { unfold to_float. rewrite py_float_decimal by done. by destruct mi. }
    assert (Hd : all_digits (mi ++ mf)).
    { unfold all_digits in *. rewrite forallb_app. by rewrite Hi, Hf. }
    pose proof (digits_val_bound _ Hd) as B.
    assert (10 ^ Z.of_nat (length (mi ++ mf)) <= 10 ^ 4)
      by (apply Z.pow_le_mono_r; lia).
    assert (Hk : (length mf <= 4)%nat) by (rewrite length_app in Hlen; lia).
    pose proof (reads_within_bound_short (digits_val (mi ++ mf))
                  (Z.of_nat (length mf)) ltac:(lia) ltac:(lia)) as R.
    unfold reads_within_bound in R. cbv zeta in R.
    apply andb_true_iff in R as [R1 R2]. split; [exact R1|].
    by apply Qle_bool_iff.
  - intros x Hp Hbad. unfold to_float. destruct x as [|x0 x']; [done|].
    destruct (py_float (x0 :: x')) as [f|] eqn:E; [|done]. exfalso.
    destruct (py_float_ok _ _ E Hp) as [P1 P2].
    destruct Hbad as [Hbad|Hbad]; congruence.
Qed.

Lemma X9_witness :
  (exists r,
     to_float (pystr "545" ++ 46%N :: pystr "4") = Some r /\
     is_finite r = true /\
     (Qabs (float_to_Q r - (5454 # 10)) * inject_Z (2 ^ 53) <= 5454 # 10)%Q) /\
  to_float (pystr "1.2.3") = None.
Proof.
  destruct (X9_to_float_decimal (pystr "545") (pystr "4") eq_refl eq_refl
              ltac:(discriminate) ltac:(simpl; lia)) as (H1 & _ & H3).
  split; [exact H1|].
  apply H3; [reflexivity|]. left. vm_compute. discriminate.
Defined.

Lemma nth_replicate_same {A} (n k : nat) (x : A) :
  nth k (replicate n x) x = x.
Proof.
  revert k. induction n as [|n IH]; intros [|k]; simpl; done.
Qed.

(** X10.  Padding gives the field parsers exactly the number of fields of the
    layout: the fields the sentence has, in their positions, and empty
    strings for those it lacks. *)
Theorem X10_pad_layout (n : nat) (fs : list str) :
  length (pad n fs) = n /\
  forall i, (i < n)%nat ->
    fld (pad n fs) i = if (i <? length fs)%nat then nth i fs [] else [].
Proof.
  unfold pad, fld. split.
  - rewrite length_take, length_app, length_replicate. lia.
  - intros i Hi.
    assert (E : nth i (take n (fs ++ replicate n [])) []
                = nth i (fs ++ replicate n []) []).
    { rewrite <- (take_drop n (fs ++ replicate n [])) at 2.
      rewrite app_nth1; [done|].
      rewrite length_take, length_app, length_replicate. lia. }
    rewrite E. destruct (Nat.ltb_spec i (length fs)).
    + by rewrite app_nth1.
    + rewrite app_nth2 by lia. apply nth_replicate_same.
Qed.

Lemma length_pad (n : nat) (fs : list str) : length (pad n fs) = n.
Proof.
  unfold pad. rewrite length_take, length_app, length_replicate. lia.
Qed.

Lemma N_lxor_lt_256 (a b : N) : (a < 256 -> b < 256 -> N.lxor a b < 256)%N.
Proof.
  intros Ha Hb.
  assert (L : forall x : N, (x < 256)%N -> (N.log2 x < 8)%N).
  { intros x Hx. destruct (N.eq_dec x 0%N) as [->|Hne]; [reflexivity|].
    apply N.log2_lt_pow2; [lia | exact Hx]. }
  destruct (N.eq_dec (N.lxor a b) 0%N) as [->|Hne]; [reflexivity|].
  apply (proj2 (N.log2_lt_pow2 (N.lxor a b) 8%N ltac:(lia))).
  eapply N.le_lt_trans; [apply N.log2_lxor|].
  apply N.max_lub_lt; by apply L.
Qed.

Lemma length_omap_le {A B} (f : A -> option B) (l : list A) :
  (length (omap f l) <= length l)%nat.
Proof.
  induction l as [|x l IH]; [done|].
  change (omap f (x :: l))
    with (match f x with Some y => y :: omap f l | None => omap f l end).
  destruct (f x); simpl; lia.
Qed.

Lemma X10_witness :
  fld (pad 14 [pystr "123519"; pystr "4807.038"]) 1 = pystr "4807.038" /\
  fld (pad 14 [pystr "123519"; pystr "4807.038"]) 5 = [].
Proof.
  split.
  - apply (proj2 (X10_pad_layout 14 [pystr "123519"; pystr "4807.038"]) 1%nat).
    lia.
  - apply (proj2 (X10_pad_layout 14 [pystr "123519"; pystr "4807.038"]) 5%nat).
    lia.
Defined.

(** X11.  The satellite list of a GSA record holds at most twelve numbers:
    the identifiers that [to_int] reads from the fields 2 to 13, in their
    order, the others being skipped. *)
Theorem X11_gsa_satellites (t m r : str) (fs : list str) (c : option bool) :
  exists g,
    kind (_parse_gsa t m r fs c) = NMEAGSA g /\
    (length (gsa_sat_prns g) <= 12)%nat /\
    gsa_sat_prns g
    = omap to_int (map (fun i => fld (pad 17 fs) i) (seq 2 12)).
Proof.
  eexists. split; [reflexivity|]. cbn [gsa_sat_prns].
  assert (E : take 12 (drop 2 (pad 17 fs))
              = map (fun i => fld (pad 17 fs) i) (seq 2 12)).
  { pose proof (length_pad 17 fs) as Hlen.
    destruct (pad 17 fs) as [|f0 [|f1 [|f2 [|f3 [|f4 [|f5 [|f6 [|f7 [|f8 [|f9
      [|f10 [|f11 [|f12 [|f13 [|f14 [|f15 [|f16 [|]]]]]]]]]]]]]]]]]];
      try discriminate Hlen. reflexivity. }
  rewrite E. split; [|done].
  etrans; [apply length_omap_le|]. by rewrite length_map, length_seq.
Qed.

(** X12.  The checksum of a concatenation is the XOR of the checksums of the
    parts, and the checksum of a text of bytes is a byte. *)
Theorem X12_checksum_xor (a b : str) :
  nmea_checksum_xor (a ++ b)
  = N.lxor (nmea_checksum_xor a) (nmea_checksum_xor b) /\
  (Forall (fun c => (c < 256)%N) a -> (nmea_checksum_xor a < 256)%N).
Proof.
  assert (G : forall s acc,
            fold_left (fun cs ch => N.lxor cs ch) s acc
            = N.lxor acc (nmea_checksum_xor s)).
  { unfold nmea_checksum_xor.
    induction s as [|c s IH]; intros acc; cbn [fold_left].
    - by rewrite N.lxor_0_r.
    - rewrite IH, (IH (N.lxor 0 c)). by rewrite N.lxor_0_l, N.lxor_assoc. }
  split.
  - unfold nmea_checksum_xor at 1. rewrite fold_left_app.
    fold (nmea_checksum_xor a). apply G.
  - induction 1 as [|c s Hc Hs IH].
    + reflexivity.
    + unfold nmea_checksum_xor. cbn [fold_left]. rewrite G, N.lxor_0_l.
      apply N_lxor_lt_256; [exact Hc | exact IH].
Qed.

Lemma X12_witness :
  (nmea_checksum_xor (pystr "GN") < 256)%N.
Proof.
  apply (proj2 (X12_checksum_xor (pystr "GN") [])).
  repeat constructor.
Defined.

(* ================================================================== *)
(** * Further properties of epochs and frames *)
(* ================================================================== *)

(** X13.  [begin_epoch] always opens a new, empty frame and makes it the
    current one, also when an epoch is open already: the frames that exist
    stay as they are.  An explicit id is taken as given and leaves the
    counter alone; otherwise the counter is advanced and used. *)
Theorem X13_begin_epoch_opens_fresh (d : NMEADecoder) (h : Heap)
    (eid : option Z) (t : option float) (now : float) :
  let '(d', h', l) := begin_epoch d h eid t now in
  h !! l = None /\
  _current d' = Some l /\
  h' !! l = Some {| epoch_id := default (_epoch_counter d + 1) eid;
                    t_recv_s := default now t;
                    messages_by_type := ∅ |} /\
  (forall k, k <> l -> h' !! k = h !! k) /\
  _epoch_counter d' = match eid with
                      | None => _epoch_counter d + 1
                      | Some _ => _epoch_counter d
                      end.
Proof.
  unfold begin_epoch, alloc. destruct eid as [e|]; simpl.
  - split; [apply fresh_loc_unused|]. split; [done|].
    split; [by rewrite lookup_insert_eq|]. split; [|done].
    intros k Hk. by rewrite lookup_insert_ne.
  - split; [apply fresh_loc_unused|]. split; [done|].
    split; [by rewrite lookup_insert_eq|]. split; [|done].
    intros k Hk. by rewrite lookup_insert_ne.
Qed.

Lemma X13_witness :
  let '(d', h', l) :=
    begin_epoch (decoder fresh_parser.1) fresh_parser.2 (Some 7) None fone in
  _current d' = Some l /\
  forall k, k <> l -> h' !! k = fresh_parser.2 !! k.
Proof.
  pose proof (X13_begin_epoch_opens_fresh (decoder fresh_parser.1)
                fresh_parser.2 (Some 7) None fone) as H.
  destruct (begin_epoch (decoder fresh_parser.1) fresh_parser.2 (Some 7) None
              fone) as [[d' h'] l].
  destruct H as (_ & H1 & _ & H2 & _). split; [exact H1 | exact H2].
Defined.

(** X14.  Ids drawn from the counter increase by one from one automatic
    [begin_epoch] to the next, whatever is fed or closed in between, as these
    leave the counter alone. *)
Theorem X14_automatic_ids_increase (d : NMEADecoder) (h : Heap)
    (t1 t2 : option float) (now1 now2 : float) (line : str) (now : float) :
  let '(d1, h1, l1) := begin_epoch d h None t1 now1 in
  let '(_, d2, h2) := feed_line d1 h1 line None now in
  let '(_, d3) := end_epoch d2 in
  let '(d4, h4, l4) := begin_epoch d3 h2 None t2 now2 in
  exists f1 f4,
    h1 !! l1 = Some f1 /\ h4 !! l4 = Some f4 /\
    epoch_id f4 = epoch_id f1 + 1.
Proof.
  unfold begin_epoch at 1. unfold alloc.
  set (l1 := fresh (dom h)).
  rewrite (feed_line_open _ _ _ _ _ l1) by done.
  destruct (decoded _ line) as [msg|]; cbn [end_epoch].
  - unfold begin_epoch, alloc. cbn.
    eexists _, _. split; [apply lookup_insert_eq|].
    split; [apply lookup_insert_eq|]. reflexivity.
  - unfold begin_epoch, alloc. cbn.
    eexists _, _. split; [apply lookup_insert_eq|].
    split; [apply lookup_insert_eq|]. reflexivity.
Qed.

(** X15.  Fed a decodable line while no epoch is open, [feed_line] opens one
    itself, with the id given or else the next automatic one, and stores the
    record in it; no existing frame changes. *)
Theorem X15_feed_line_opens_epoch (d : NMEADecoder) (h : Heap) (line : str)
    (eid : option Z) (now : float) (msg : NMEAMessage) :
  _current d = None ->
  decoded d line = Some msg ->
  exists d' h',
    feed_line d h line eid now = (Some msg, d', h') /\
    let l := fresh (dom h) in
    h !! l = None /\
    _current d' = Some l /\
    h' !! l = Some (frame_add msg
                      {| epoch_id := default (_epoch_counter d + 1) eid;
                         t_recv_s := now; messages_by_type := ∅ |}) /\
    (forall k, k <> l -> h' !! k = h !! k).
Proof.
  intros Hc Hd. unfold feed_line. unfold decoded in Hd.
  destruct (negb (startswith_dollar (strip line))); [discriminate|].
  rewrite Hd, Hc. unfold begin_epoch, alloc.
  destruct eid as [e|]; cbn.
  - eexists _, _. split; [reflexivity|].
    split; [apply fresh_loc_unused|]. split; [done|].
    split; [by rewrite lookup_alter_eq, lookup_insert_eq|].
    intros k Hk. by rewrite lookup_alter_ne, lookup_insert_ne.
  - eexists _, _. split; [reflexivity|].
    split; [apply fresh_loc_unused|]. split; [done|].
    split; [by rewrite lookup_alter_eq, lookup_insert_eq|].
    intros k Hk. by rewrite lookup_alter_ne, lookup_insert_ne.
Qed.

Lemma X15_witness :
  exists msg d' h',
    feed_line (NMEADecoder_init false) ∅ ref_line_47 None fone
    = (Some msg, d', h') /\
    _current d' = Some (fresh (dom (∅ : Heap))) /\
    h' !! fresh (dom (∅ : Heap))
    = Some (frame_add msg {| epoch_id := 1; t_recv_s := fone;
                             messages_by_type := ∅ |}).
Proof.
  destruct (decoded (NMEADecoder_init false) ref_line_47) as [msg|] eqn:E;
    [|vm_compute in E; discriminate E].
  destruct (X15_feed_line_opens_epoch (NMEADecoder_init false) ∅ ref_line_47
              None fone msg eq_refl E) as (d' & h' & Hf & _ & Hc & Hl & _).
  exists msg, d', h'. split; [exact Hf|]. split; [exact Hc | exact Hl].
Defined.

(** X16.  A frame keeps its records by type in arrival order: after [add],
    [get] of the record's type returns what it returned before followed by
    the record, duplicates included, and [get] of any other type is as
    before. *)
Theorem X16_frame_add_get (fr : EpochFrame) (msg : NMEAMessage) (ty : str) :
  frame_get (frame_add msg fr) ty
  = (if decide (ty = msg_type (base msg)) then frame_get fr ty ++ [msg]
     else frame_get fr ty) /\
  epoch_id (frame_add msg fr) = epoch_id fr /\
  frame_get {| epoch_id := epoch_id fr; t_recv_s := t_recv_s fr;
               messages_by_type := ∅ |} ty = [].
Proof.
  split; [|split; [done|]].
  - unfold frame_get, frame_add. cbn [messages_by_type].
    destruct (decide (ty = msg_type (base msg))) as [->|Hne].
    + by rewrite lookup_insert_eq.
    + by rewrite lookup_insert_ne.
  - unfold frame_get. cbn [messages_by_type]. by rewrite lookup_empty.
Qed.

(** X17.  A line is ignored, leaving the decoder and every frame as they
    were and opening no epoch, when after stripping it does not start with
    the marker, when it does not match the pattern, or when its header has
    fewer than five characters. *)
Theorem X17_feed_line_ignores (d : NMEADecoder) (h : Heap) (line : str)
    (eid : option Z) (now : float) :
  startswith_dollar (strip line) = false \/
  nmea_re_match (strip line) = None \/
  (exists body cs, nmea_re_match (strip line) = Some (body, cs) /\
                   (length (header_of body) < 5)%nat) ->
  feed_line d h line eid now = (None, d, h).
Proof.
  intros H. unfold feed_line.
  destruct (startswith_dollar (strip line)) eqn:Hs; [|done]. cbn [negb].
  assert (Hp : _parse_line d (strip line) = None).
  { unfold _parse_line. destruct H as [H|[H|(body & cs & Hm & Hlen)]].
    - discriminate.
    - by rewrite H.
    - rewrite Hm. destruct (match verify_checksum d, cs with
                            | true, Some _ => _ | _, _ => None end) as [[]|];
        try done.
      all: destruct (split_on_head 44%N body) as [fs ->]; fold (header_of body);
        by replace (length (header_of body) <? 5)%nat with true
          by (symmetry; by apply Nat.ltb_lt). }
  by rewrite Hp.
Qed.

Lemma X17_witness :
  feed_line (NMEADecoder_init false) ∅ (pystr "GNGGA,1") None fone
  = (None, NMEADecoder_init false, ∅).
Proof.
  apply (X17_feed_line_ignores (NMEADecoder_init false) ∅ (pystr "GNGGA,1")).
  left. vm_compute. reflexivity.
Defined.

(* ================================================================== *)
(** * Further properties of the parser *)
(* ================================================================== *)

Lemma before_first_cons sep c s :
  before_first sep (c :: s) = if (c =? sep)%N then [] else c :: before_first sep s.
Proof. reflexivity. Qed.

(** The header as [is_gga_sentence] finds it stops at the first star or
    comma. *)
Lemma gga_head_cons c s :
  before_first 44%N (before_first 42%N (c :: s))
  = if (c =? 42)%N || (c =? 44)%N then []
    else c :: before_first 44%N (before_first 42%N s).
Proof.
  rewrite before_first_cons. destruct (c =? 42)%N; [done|].
  rewrite before_first_cons. by destruct (c =? 44)%N.
Qed.

(** X18.  [is_gga_sentence] holds exactly for the lines that, stripped, are
    the marker, two characters other than a star or a comma, and the letters
    GGA, whatever follows. *)
Theorem X18_is_gga_sentence_shape (line : str) :
  is_gga_sentence line = true <->
  exists c1 c2 rest,
    strip line = 36%N :: c1 :: c2 :: 71%N :: 71%N :: 65%N :: rest /\
    c1 <> 42%N /\ c1 <> 44%N /\ c2 <> 42%N /\ c2 <> 44%N.
Proof.
  unfold is_gga_sentence, str_eqb. cbv zeta. split.
  - destruct (strip line) as [|c0 s]; [discriminate|].
    cbn [startswith_dollar]. destruct (N.eqb_spec c0 36) as [->|]; [|discriminate].
    cbn [negb drop]. rewrite drop_0.
    destruct s as [|c1 s]; [discriminate|].
    rewrite gga_head_cons.
    destruct (N.eqb_spec c1 42); [discriminate|].
    destruct (N.eqb_spec c1 44); [discriminate|]. cbn [orb].
    destruct s as [|c2 s]; [discriminate|].
    rewrite gga_head_cons.
    destruct (N.eqb_spec c2 42); [discriminate|].
    destruct (N.eqb_spec c2 44); [discriminate|]. cbn [orb].
    destruct s as [|c3 s]; [discriminate|]. rewrite gga_head_cons.
    destruct ((c3 =? 42)%N || (c3 =? 44)%N); [discriminate|].
    destruct s as [|c4 s]; [discriminate|]. rewrite gga_head_cons.
    destruct ((c4 =? 42)%N || (c4 =? 44)%N); [discriminate|].
    destruct s as [|c5 s]; [discriminate|]. rewrite gga_head_cons.
    destruct ((c5 =? 42)%N || (c5 =? 44)%N); [discriminate|].
    intros [_ H]%andb_true_iff. apply bool_decide_eq_true in H.
    cbn in H. injection H as -> -> ->. by exists c1, c2, s.
  - intros (c1 & c2 & rest & -> & H1 & H2 & H3 & H4).
    cbn [startswith_dollar negb drop]. rewrite N.eqb_refl. cbn [negb].
    rewrite ?drop_0, !gga_head_cons.
    destruct (N.eqb_spec c1 42); [done|]. destruct (N.eqb_spec c1 44); [done|].
    destruct (N.eqb_spec c2 42); [done|]. destruct (N.eqb_spec c2 44); [done|].
    cbn. by apply bool_decide_eq_true.
Qed.

(** X19.  Decoding with replacement keeps the number of characters, leaves
    the ASCII bytes as they are, and yields nothing but ASCII characters and
    U+FFFD. *)
Theorem X19_decode_ascii_replace (bs : list N) :
  length (decode_ascii_replace bs) = length bs /\
  Forall (fun c => (c < 128)%N \/ c = 65533%N) (decode_ascii_replace bs) /\
  (Forall (fun b => (b < 128)%N) bs -> decode_ascii_replace bs = bs).
Proof.
  unfold decode_ascii_replace. split; [apply length_map|]. split.
  - apply Forall_forall. intros c Hc. apply list_elem_of_fmap in Hc as (b & -> & _).
    destruct (N.ltb_spec b 128); [by left | by right].
  - induction 1 as [|b l Hb Hl IH]; [done|]. cbn [map]. rewrite IH.
    by replace (b <? 128)%N with true by (symmetry; by apply N.ltb_lt).
Qed.

Lemma X19_witness :
  decode_ascii_replace (pystr "$GNGGA") = pystr "$GNGGA".
Proof.
  apply (proj2 (proj2 (X19_decode_ascii_replace (pystr "$GNGGA")))).
  repeat constructor.
Defined.

Section ParserMore.

Variables math_sin math_cos math_tan : float -> option float.
Variable float_pow : float -> Z -> option float.

Local Abbreviation frame_to_ucm :=
  (_frame_to_ucm math_sin math_cos math_tan float_pow).
Local Abbreviation handoff :=
  (hand_off math_sin math_cos math_tan float_pow).
Local Abbreviation step :=
  (process_line math_sin math_cos math_tan float_pow).
Local Abbreviation steps :=
  (poll_bytes math_sin math_cos math_tan float_pow).
Local Abbreviation poll1 :=
  (poll math_sin math_cos math_tan float_pow).
Local Abbreviation project :=
  (latlon_to_utm math_sin math_cos math_tan float_pow).

(** X20.  The byte loop does not depend on how the stream is cut into
    chunks: handling two chunks one after the other is handling their
    concatenation, the line buffer carrying the partial line across. *)
Theorem X20_chunking_is_invisible (a b : list N) :
  forall (p : I2CGNSSParser) (h : Heap) (times : nat -> float),
  steps p h (a ++ b) times =
  match steps p h a times with
  | (None, p1, h1) => steps p1 h1 b (fun i => times (length a + i)%nat)
  | (Some e, p1, h1) => (Some e, p1, h1)
  end.
Proof.
  induction a as [|x a IH]; intros p h times; [done|].
  cbn [app poll_bytes length].
  destruct (x =? 10)%N.
  - destruct (step _ _ _ _) as [[[e|] p1] h1]; [done|]. by rewrite IH.
  - by rewrite IH.
Qed.

(** X21.  Bytes without a line feed are only buffered: no line is decoded,
    no epoch and no frame changes, and the buffer grows by exactly these
    bytes. *)
Theorem X21_partial_line_is_buffered (data : list N) :
  forall (p : I2CGNSSParser) (h : Heap) (times : nat -> float),
  Forall (fun b => b <> 10%N) data ->
  steps p h data times = (None, set_line_buf p (_line_buf p ++ data), h).
Proof.
  induction data as [|b data IH]; intros p h times Hd.
  - cbn. rewrite app_nil_r. by destruct p.
  - apply Forall_cons in Hd as [Hb Hd]. cbn [poll_bytes].
    replace (b =? 10)%N with false by (symmetry; by apply N.eqb_neq).
    rewrite IH by done. cbn. by rewrite <- app_assoc.
Qed.

Lemma notify_ucm_pending p u e p' :
  notify_ucm p u = (e, p') -> is_prefix (_pending_ucm p) (_pending_ucm p').
Proof.
  unfold notify_ucm. intros H.
  repeat case_match; simplify_eq; (by exists [u]) || (exists []; by rewrite app_nil_r).
Qed.

Lemma is_prefix_refl {A} (l : list A) : is_prefix l l.
Proof. exists []. by rewrite app_nil_r. Qed.

Lemma is_prefix_trans {A} (l1 l2 l3 : list A) :
  is_prefix l1 l2 -> is_prefix l2 l3 -> is_prefix l1 l3.
Proof. intros [k1 ->] [k2 ->]. exists (k1 ++ k2). by rewrite app_assoc. Qed.

Lemma _frame_to_ucm_pending p frame r p' :
  frame_to_ucm p frame = (r, p') -> _pending_ucm p' = _pending_ucm p.
Proof.
  unfold _frame_to_ucm. intros H.
  repeat case_match; simplify_eq; done.
Qed.

Lemma hand_off_pending p h l e p' :
  handoff p h l = (e, p') -> is_prefix (_pending_ucm p) (_pending_ucm p').
Proof.
  unfold hand_off. intros H.
  destruct (h !! l) as [frame|]; [|injection H as <- <-; apply is_prefix_refl].
  assert (G : forall q, _pending_ucm q = _pending_ucm p ->
              match frame_to_ucm q frame with
              | (Raise e0, p2) => (Some e0, p2)
              | (Ok None, p2) => (None, p2)
              | (Ok (Some u), p2) => notify_ucm p2 u
              end = (e, p') -> is_prefix (_pending_ucm p) (_pending_ucm p')).
  { intros q Hq Hr. destruct (frame_to_ucm q frame) as [r p2] eqn:Hf.
    apply _frame_to_ucm_pending in Hf. rewrite <- Hq, <- Hf.
    destruct r as [[u|]|e0].
    - by apply notify_ucm_pending in Hr.
    - injection Hr as <- <-. apply is_prefix_refl.
    - injection Hr as <- <-. apply is_prefix_refl. }
  destruct (on_epoch_end p) as [cb|].
  - destruct (cb frame) as [[]|e0].
    + by apply (G (set_last_frame p (Some l))).
    + injection H as <- <-. apply is_prefix_refl.
  - by apply (G p).
Qed.

Lemma process_line_pending p h line now :
  is_prefix (_pending_ucm p) (_pending_ucm (step p h line now).1.2).
Proof.
  destruct (is_gga_sentence line) eqn:Hg.
  - rewrite process_line_gga by done. cbv zeta.
    destruct (match _current (decoder p) with
              | Some l => handoff _ h l | None => _ end) as [e p2] eqn:Hh.
    assert (K : is_prefix (_pending_ucm p) (_pending_ucm p2)).
    { destruct (_current (decoder p)).
      - by apply hand_off_pending in Hh.
      - injection Hh as <- <-. apply is_prefix_refl. }
    destruct e; [done|].
    destruct (begin_epoch _ _ _ _ _) as [[d2 h2] l2].
    by destruct (feed_line _ _ _ _ _) as [[m d3] h3].
  - rewrite process_line_other by done.
    destruct (feed_line _ _ _ _ _) as [[m d1] h1]. apply is_prefix_refl.
Qed.

Lemma poll_bytes_pending data : forall p h times,
  is_prefix (_pending_ucm p) (_pending_ucm (steps p h data times).1.2).
Proof.
  induction data as [|b data IH]; intros p h times; [apply is_prefix_refl|].
  cbn [poll_bytes]. destruct (b =? 10)%N.
  - pose proof (process_line_pending (set_line_buf p []) h
                  (decode_ascii_replace (_line_buf p ++ [b])) (times O)) as K.
    destruct (step _ _ _ _) as [[[e|] p1] h1]; [exact K|].
    eapply is_prefix_trans; [exact K | apply IH].
  - exact (IH (set_line_buf p (_line_buf p ++ [b])) h _).
Qed.

(** X22.  Results wait in [_pending_ucm] until they are drained: whatever a
    poll does, it only appends to the list; [drain_ucm] returns the list and
    leaves none behind. *)
Theorem X22_pending_results_are_kept (p : I2CGNSSParser) (h : Heap)
    (avail : Z) (read_block : Z -> list N) (times : nat -> float) :
  is_prefix (_pending_ucm p)
    (_pending_ucm (poll1 p h avail read_block times).1.2) /\
  (drain_ucm p).1 = _pending_ucm p /\
  get_latest_ucm (drain_ucm p).2 = None.
Proof.
  split; [|done]. unfold poll.
  destruct (negb (bus_open p)); [apply is_prefix_refl|].
  destruct (avail <=? 0); [apply is_prefix_refl|].
  destruct (if drop_ff_padding p then _ else _) as [|b data];
    [apply is_prefix_refl|].
  pose proof (poll_bytes_pending (b :: data) p h times) as K.
  by destruct (steps p h (b :: data) times) as [[[e|] p1] h1].
Qed.

(** X23.  The first usable fix becomes the origin and is reported at the
    origin: with no origin set, a closed frame whose first GGA record has a
    position whose projection is finite yields the local coordinates
    (0.0, 0.0), and the parser stores that projection and sets the flag. *)
Theorem X23_first_fix_is_the_origin (p : I2CGNSSParser) (frame : EpochFrame)
    (gga : NMEAMessage) (others : list NMEAMessage) (lat lon : float)
    (o : UTMCoord) :
  _origin_set p = false ->
  frame_GGA frame = gga :: others ->
  extract_latlon_from_nmea_message gga = Some (lat, lon) ->
  project lat lon (fixed_zone (ucm p)) = Ok o ->
  is_finite (easting_m o) = true -> is_finite (northing_m o) = true ->
  frame_to_ucm p frame
  = (Ok (Some {| ucm_epoch_id := epoch_id frame;
                 ucm_t_recv_s := t_recv_s frame;
                 x_m := S754_zero false; y_m := S754_zero false;
                 lat_deg := Some lat; lon_deg := Some lon |}),
     set_ucm p {| fixed_zone := fixed_zone (ucm p); _origin_utm := Some o |}
       true).
Proof.
  intros Hos Hg He Hp Hfe Hfn. unfold _frame_to_ucm.
  rewrite Hg, He, Hos. cbn [negb].
  unfold set_origin_from_latlon. rewrite Hp. cbn [rbind].
  unfold to_local_xy. cbn [ucm set_ucm _origin_utm].
  rewrite (latlon_to_utm_again _ _ _ _ _ _ _ _ Hp). cbn [rbind].
  by rewrite (fsub_self _ Hfe), (fsub_self _ Hfn).
Qed.

(** X24.  Only the first GGA record of a closed frame is looked at: when the
    frame has none, or when the first one lacks latitude or longitude, no
    result is produced and the parser is left as it was, whatever other
    records the frame holds. *)
Theorem X24_no_fix_no_result (p : I2CGNSSParser) (frame : EpochFrame) :
  frame_GGA frame = [] \/
  (exists gga others, frame_GGA frame = gga :: others /\
                      extract_latlon_from_nmea_message gga = None) ->
  frame_to_ucm p frame = (Ok None, p).
Proof.
  intros [H|(gga & others & H & He)]; unfold _frame_to_ucm; rewrite H; [done|].
  by rewrite He.
Qed.

End ParserMore.

Lemma X21_witness :
  poll_bytes demo_sin demo_cos demo_tan demo_pow fresh_parser.1 fresh_parser.2
    (pystr "$GNG") (fun _ => fone)
  = (None, set_line_buf fresh_parser.1 (_line_buf fresh_parser.1 ++ pystr "$GNG"),
     fresh_parser.2).
Proof.
  apply (X21_partial_line_is_buffered demo_sin demo_cos demo_tan demo_pow).
  repeat constructor; discriminate.
Defined.

Lemma X23_witness :
  exists u p',
    _frame_to_ucm demo_sin demo_cos demo_tan demo_pow fresh_parser.1 ref_frame
    = (Ok (Some u), p') /\
    x_m u = S754_zero false /\ y_m u = S754_zero false /\
    _origin_set p' = true.
Proof.
  assert (X : match frame_GGA ref_frame with
              | gga :: _ =>
                  match extract_latlon_from_nmea_message gga with
                  | Some (lat, lon) =>
                      match latlon_to_utm demo_sin demo_cos demo_tan demo_pow
                              lat lon (fixed_zone (ucm fresh_parser.1)) with
                      | Ok o => is_finite (easting_m o) && is_finite (northing_m o)
                      | Raise _ => false
                      end
                  | None => false
                  end
              | [] => false
              end = true) by (vm_compute; reflexivity).
  destruct (frame_GGA ref_frame) as [|gga others] eqn:Eg; [discriminate X|].
  destruct (extract_latlon_from_nmea_message gga) as [[lat lon]|] eqn:El;
    [|discriminate X].
  destruct (latlon_to_utm demo_sin demo_cos demo_tan demo_pow lat lon
              (fixed_zone (ucm fresh_parser.1))) as [o|] eqn:Eo;
    [|discriminate X].
  apply andb_true_iff in X as [X1 X2].
  eexists _, _. split.
  - exact (X23_first_fix_is_the_origin demo_sin demo_cos demo_tan demo_pow
             fresh_parser.1 ref_frame gga others lat lon o
             eq_refl Eg El Eo X1 X2).
  - repeat split; reflexivity.
Defined.

Lemma X24_witness :
  _frame_to_ucm demo_sin demo_cos demo_tan demo_pow fresh_parser.1 empty_frame
  = (Ok None, fresh_parser.1).
Proof.
  apply (X24_no_fix_no_result demo_sin demo_cos demo_tan demo_pow).
  left. reflexivity.
Defined.

Lemma X18_witness : is_gga_sentence ref_line_47 = true.
Proof.
  apply (proj2 (X18_is_gga_sentence_shape ref_line_47)).
  eexists _, _, _. split; [vm_compute; reflexivity|].
  repeat split; discriminate.
Defined.

(* ================================================================== *)
(** * Further properties of the projection *)
(* ================================================================== *)

Lemma whole_degrees_In (d : Z) : -540 <= d <= 540 -> In d whole_degrees.
Proof.
  intros Hd. unfold whole_degrees. apply in_map_iff.
  exists (Z.to_nat (d + 540)). split; [lia|].
  apply in_seq. lia.
Qed.

Lemma whole_degrees_agree : forallb zone_agrees whole_degrees = true.
Proof. vm_compute. reflexivity. Qed.

(** X25.  At a whole number [d] of degrees, [utm_zone_from_lon] returns
    [(d + 180) div 6 + 1], except at 180, which is moved into zone 60.  So
    the zone lies in 1..60 for the longitudes from -180 to 180, and outside
    them nothing clamps it. *)
Theorem X25_zone_of_whole_degrees (d : Z) :
  -540 <= d <= 540 ->
  utm_zone_from_lon (float_of_Z d) = Ok (whole_degree_zone d) /\
  (-180 <= d <= 180 <-> 1 <= whole_degree_zone d <= 60).
Proof.
  intros Hd. split.
  - pose proof whole_degrees_agree as H.
    rewrite forallb_forall in H. specialize (H d (whole_degrees_In d Hd)).
    unfold zone_agrees in H.
    destruct (utm_zone_from_lon (float_of_Z d)) as [z|]; [|discriminate H].
    apply Z.eqb_eq in H. by rewrite H.
  - unfold whole_degree_zone. destruct (Z.eqb_spec d 180) as [->|Hn]; [lia|].
    pose proof (Z.div_le_mono 0 (d + 180) 6) as H1.
    pose proof (Z.div_le_mono (d + 180) 359 6) as H2.
    pose proof (Z.div_lt_upper_bound (d + 180) 6 0) as H3.
    pose proof (Z.div_le_lower_bound (d + 180) 6 60) as H4.
    change (0 / 6) with 0 in H1. change (359 / 6) with 59 in H2.
    split; intros H; lia.
Qed.

Lemma X25_witness :
  utm_zone_from_lon (float_of_Z 127) = Ok 52 /\
  utm_zone_from_lon (float_of_Z 181) = Ok 61.
Proof.
  split.
  - apply (proj1 (X25_zone_of_whole_degrees 127 ltac:(lia))).
  - apply (proj1 (X25_zone_of_whole_degrees 181 ltac:(lia))).
Defined.

Section ProjectionMore.

Variables math_sin math_cos math_tan : float -> option float.
Variable float_pow : float -> Z -> option float.

Local Abbreviation project :=
  (latlon_to_utm math_sin math_cos math_tan float_pow).
Local Abbreviation ucm_of :=
  (ucm_from_latlon math_sin math_cos math_tan float_pow).
Local Abbreviation set_origin :=
  (set_origin_from_latlon math_sin math_cos math_tan float_pow).
Local Abbreviation to_local :=
  (to_local_xy math_sin math_cos math_tan float_pow).

(** X26.  A longitude that is not a finite number is caught only when the
    zone is chosen automatically: there the call raises [ValueError] before
    anything is projected.  With a given zone a NaN longitude is projected,
    and the easting that comes back is NaN. *)
Theorem X26_longitude_not_a_number (lat lon : float) :
  (is_finite lon = false -> project lat lon None = Raise ValueError) /\
  (forall z cur, project lat S754_nan (Some z) = Ok cur ->
                 easting_m cur = S754_nan).
Proof.
  split.
  - intros H. rewrite latlon_to_utm_None.
    replace (utm_zone_from_lon lon) with (@Raise Z ValueError); [done|].
    destruct lon as [|[]| |]; try discriminate H; vm_compute; reflexivity.
  - intros z cur. apply latlon_to_utm_nan_lon.
Qed.

(** X27.  What the projection reports beside the coordinates: the zone is
    the one given, or the one of the longitude when none is given; the
    hemisphere is south exactly when [lat >= 0.0] is false, which includes a
    NaN latitude; and projecting again in the reported zone gives the same
    result. *)
Theorem X27_reported_zone_and_hemisphere (lat lon : float) (zo : option Z)
    (cur : UTMCoord) :
  project lat lon zo = Ok cur ->
  match zo with
  | Some z => zone cur = z
  | None => utm_zone_from_lon lon = Ok (zone cur)
  end /\
  hemisphere cur = (if fleb (float_lit "0.0") lat then HemiN else HemiS) /\
  (is_nan lat = true -> hemisphere cur = HemiS) /\
  project lat lon (Some (zone cur)) = Ok cur.
Proof.
  intros H. split; [|split; [|split]].
  - destruct zo as [z|]; [by apply (latlon_to_utm_zone _ _ _ _ _ _ _ _ H)|].
    rewrite latlon_to_utm_None in H.
    destruct (utm_zone_from_lon lon) as [z|]; [|discriminate H].
    cbn [rbind] in H. by rewrite (latlon_to_utm_zone _ _ _ _ _ _ _ _ H).
  - by apply (latlon_to_utm_hemisphere _ _ _ _ _ _ _ _ H).
  - intros Hn. rewrite (latlon_to_utm_hemisphere _ _ _ _ _ _ _ _ H).
    destruct lat; try discriminate Hn. vm_compute. reflexivity.
  - by apply (latlon_to_utm_again _ _ _ _ _ _ _ _ H).
Qed.

(** X28.  For a converter with a fixed zone, the local coordinates of a
    point are the differences between its UCM coordinates and those of the
    origin. *)
Theorem X28_local_is_difference_of_ucm (c c' : UCMConverter) (z : Z)
    (lat0 lon0 lat lon : float) (u0 u : UCMCoord) :
  fixed_zone c = Some z ->
  set_origin c lat0 lon0 = Ok c' ->
  ucm_of c' lat0 lon0 = Ok u0 ->
  ucm_of c' lat lon = Ok u ->
  to_local c' lat lon
  = Ok (fsub (ucm_x u) (ucm_x u0), fsub (ucm_y u) (ucm_y u0)).
Proof.
  intros Hz Hs H0 Hu.
  apply set_origin_inv in Hs as (o & Ho & ->).
  unfold ucm_from_latlon in H0, Hu. cbn [fixed_zone] in H0, Hu.
  rewrite Ho in H0. cbn [rbind] in H0. injection H0 as <-.
  apply rbind_ok_inv in Hu as (cur & Hc & Hu). injection Hu as <-.
  unfold to_local_xy. cbn [_origin_utm ucm_x ucm_y].
  rewrite Hz in Ho, Hc.
  rewrite (latlon_to_utm_zone _ _ _ _ _ _ _ _ Ho), Hc. reflexivity.
Qed.

End ProjectionMore.

Lemma X26_witness :
  latlon_to_utm demo_sin demo_cos demo_tan demo_pow ref_lat
    (S754_infinity false) None = Raise ValueError.
Proof.
  apply (proj1 (X26_longitude_not_a_number demo_sin demo_cos demo_tan demo_pow
                  ref_lat (S754_infinity false))).
  reflexivity.
Defined.

Lemma X27_witness :
  exists cur,
    latlon_to_utm demo_sin demo_cos demo_tan demo_pow ref_lat ref_lon None
    = Ok cur /\
    utm_zone_from_lon ref_lon = Ok (zone cur) /\
    hemisphere cur = HemiN.
Proof.
  destruct (latlon_to_utm demo_sin demo_cos demo_tan demo_pow ref_lat ref_lon
              None) as [cur|] eqn:E; [|vm_compute in E; discriminate E].
  destruct (X27_reported_zone_and_hemisphere demo_sin demo_cos demo_tan
              demo_pow ref_lat ref_lon None cur E) as (H1 & H2 & _).
  exists cur. split; [reflexivity|]. split; [exact H1|].
  rewrite H2. vm_compute. reflexivity.
Defined.

Lemma X28_witness :
  exists u0 u,
    ucm_from_latlon demo_sin demo_cos demo_tan demo_pow converter_with_origin
      ref_lat ref_lon = Ok u0 /\
    ucm_from_latlon demo_sin demo_cos demo_tan demo_pow converter_with_origin
      (float_lit "48.2") (float_lit "11.6") = Ok u /\
    demo_to_local converter_with_origin (float_lit "48.2") (float_lit "11.6")
    = Ok (fsub (ucm_x u) (ucm_x u0), fsub (ucm_y u) (ucm_y u0)).
Proof.
  assert (Hs : demo_set_origin (UCMConverter_init (Some 52)) ref_lat ref_lon
               = Ok converter_with_origin) by (vm_compute; reflexivity).
  destruct (ucm_from_latlon demo_sin demo_cos demo_tan demo_pow
              converter_with_origin ref_lat ref_lon) as [u0|] eqn:E0;
    [|vm_compute in E0; discriminate E0].
  destruct (ucm_from_latlon demo_sin demo_cos demo_tan demo_pow
              converter_with_origin (float_lit "48.2") (float_lit "11.6"))
    as [u|] eqn:E1; [|vm_compute in E1; discriminate E1].
  exists u0, u. split; [reflexivity|]. split; [reflexivity|].
  exact (X28_local_is_difference_of_ucm demo_sin demo_cos demo_tan demo_pow
           (UCMConverter_init (Some 52)) converter_with_origin 52
           ref_lat ref_lon (float_lit "48.2") (float_lit "11.6") u0 u
           eq_refl Hs E0 E1).
Defined.

(* ================================================================== *)
(** * Further properties of [poll] and of the SPI reader *)
(* ================================================================== *)

Section PollMore.

Variables math_sin math_cos math_tan : float -> option float.
Variable float_pow : float -> Z -> option float.

Local Abbreviation steps :=
  (poll_bytes math_sin math_cos math_tan float_pow).
Local Abbreviation poll1 :=
  (poll math_sin math_cos math_tan float_pow).

(** X29.  When [poll] returns a count, the bus is open, the count is the
    number of bytes taken from the block read, which is at most the length
    of the block and does not count dropped padding, and a count of zero
    means that nothing was processed: the parser and the frames are as they
    were. *)
Theorem X29_poll_count (p p' : I2CGNSSParser) (h h' : Heap) (avail k : Z)
    (read_block : Z -> list N) (times : nat -> float) :
  poll1 p h avail read_block times = (Ok k, p', h') ->
  bus_open p = true /\
  0 <= k <= Z.of_nat (length (read_block (Z.min avail (max_chunk p)))) /\
  (drop_ff_padding p = true -> 0 < avail ->
   k = Z.of_nat (length (filter (fun b => b <> 255%N)
                           (read_block (Z.min avail (max_chunk p)))))) /\
  (k = 0 -> p' = p /\ h' = h).
Proof.
  unfold poll. destruct (bus_open p); [|discriminate]. cbn [negb].
  destruct (Z.leb_spec avail 0) as [Ha|Ha].
  { intros [= <- <- <-]. repeat split; lia. }
  cbv zeta. set (block := read_block (Z.min avail (max_chunk p))).
  pose proof (length_filter (fun b => b <> 255%N) block) as Hl.
  destruct (drop_ff_padding p).
  - destruct (filter _ block) as [|b data] eqn:Ef.
    + intros [= <- <- <-]. repeat split; (done || lia).
    + destruct (steps p h (b :: data) times) as [[[e|] p1] h1]; [discriminate|].
      intros [= <- <- <-]. cbn [length] in *. repeat split; (done || lia).
  - destruct block as [|b data] eqn:Eb.
    + intros [= <- <- <-]. repeat split; (done || lia).
    + destruct (steps p h (b :: data) times) as [[[e|] p1] h1]; [discriminate|].
      intros [= <- <- <-]. cbn [length] in *. repeat split; (done || lia).
Qed.

End PollMore.

Lemma X29_witness :
  exists p' h',
    demo_poll (open fresh_parser.1) fresh_parser.2 32
      (fun _ => pystr "$GNG") (fun _ => fone) = (Ok 4, p', h') /\
    bus_open (open fresh_parser.1) = true.
Proof.
  assert (X : match (demo_poll (open fresh_parser.1) fresh_parser.2 32
                       (fun _ => pystr "$GNG") (fun _ => fone)).1.1 with
              | Ok k => k =? 4
              | Raise _ => false
              end = true) by (vm_compute; reflexivity).
  destruct (demo_poll (open fresh_parser.1) fresh_parser.2 32
              (fun _ => pystr "$GNG") (fun _ => fone)) as [[r p'] h'] eqn:E.
  destruct r as [k|]; [|discriminate X]. apply Z.eqb_eq in X. subst k.
  exists p', h'. split; [reflexivity|].
  exact (proj1 (X29_poll_count demo_sin demo_cos demo_tan demo_pow
                  (open fresh_parser.1) p' fresh_parser.2 h' 32 4
                  (fun _ => pystr "$GNG") (fun _ => fone) E)).
Defined.

(** ** The SPI reader *)

Lemma decode_ascii_replace_cons b bs :
  decode_ascii_replace (b :: bs)
  = (if (b <? 128)%N then b else 65533%N) :: decode_ascii_replace bs.
Proof. reflexivity. Qed.

Lemma decode_ascii_replace_chars bs :
  Forall (fun c => (c < 128)%N \/ c = 65533%N) (decode_ascii_replace bs).
Proof.
  induction bs as [|b bs IH]; [constructor|].
  rewrite decode_ascii_replace_cons. constructor; [|exact IH].
  destruct (N.ltb_spec b 128); [by left | by right].
Qed.

Lemma decode_ascii_replace_lookup bs i c :
  decode_ascii_replace bs !! i = Some c -> c = 10%N -> bs !! i = Some 10%N.
Proof.
  unfold decode_ascii_replace. rewrite list_lookup_fmap.
  destruct (bs !! i) as [b|]; [|discriminate]. cbn.
  destruct (N.ltb_spec b 128); intros [= <-] Hc; [by rewrite Hc|discriminate Hc].
Qed.

Lemma spi_line_ok_decode rest :
  (length (36%N :: rest) <= 255)%nat ->
  (forall i, rest !! i = Some 10%N -> S i = length rest) ->
  spi_line_ok (decode_ascii_replace (36%N :: rest)).
Proof.
  intros Hl Hn. exists (decode_ascii_replace rest).
  split; [reflexivity|]. split.
  { unfold decode_ascii_replace. by rewrite length_map. }
  split; [apply decode_ascii_replace_chars|].
  intros i c Hi Hc.
  apply decode_ascii_replace_lookup in Hi; [|exact Hc].
  unfold decode_ascii_replace. rewrite length_map.
  destruct i as [|i]; [discriminate Hi|].
  cbn in Hi. cbn [length]. by rewrite (Hn i Hi).
Qed.

Lemma spi_step_inv (st : SpiFramer) (b : N) :
  spi_inv st ->
  spi_inv (spi_step st b).1 /\
  (forall l, (spi_step st b).2 = Some l -> spi_line_ok l /\ b = 10%N).
Proof.
  unfold spi_step, spi_inv. intros Hinv.
  destruct (N.eqb_spec b 255) as [->|Hff]; [by split|].
  destruct (in_sentence st) eqn:Ein; cbn [negb].
  - destruct Hinv as (rest & Hr & Hlen & Hall).
    assert (Hno : forall i, rest !! i = Some 10%N -> False).
    { intros i Hi. rewrite Forall_lookup in Hall.
      by destruct (Hall i _ Hi) as [_ H]. }
    destruct (Nat.ltb_spec (length (spi_line st)) 255) as [Hlt|Hge].
    + destruct (N.eqb_spec b 10) as [->|Hnl]; cbn [fst snd].
      * split; [done|]. intros l [= <-]. split; [|done].
        rewrite Hr. change ((36%N :: rest) ++ [10%N]) with (36%N :: (rest ++ [10%N])).
        apply spi_line_ok_decode.
        { rewrite Hr in Hlt. cbn [length] in *. rewrite length_app. cbn. lia. }
        intros i Hi. rewrite length_app. cbn [length].
        destruct (decide (i < length rest)%nat) as [Hi'|Hi'].
        { rewrite lookup_app_l in Hi by done. by destruct (Hno i Hi). }
        apply lookup_lt_Some in Hi. rewrite length_app in Hi. cbn in Hi. lia.
      * split; [|discriminate].
        exists (rest ++ [b]). cbn [spi_line]. rewrite Hr. split; [done|]. split.
        { rewrite Hr in Hlt. cbn [length app] in *. rewrite length_app. cbn. lia. }
        apply Forall_app. split; [done|]. by repeat constructor.
    + destruct (N.eqb_spec b 10) as [->|Hnl]; cbn [fst snd].
      * split; [done|]. intros l [= <-]. split; [|done].
        rewrite Hr. apply spi_line_ok_decode; [by rewrite <- Hr|].
        intros i Hi. by destruct (Hno i Hi).
      * split; [|discriminate]. by exists rest.
  - destruct (N.eqb_spec b 36) as [->|Hd]; cbn [fst snd].
    + split; [|discriminate]. exists []. cbn. repeat split; (lia || constructor).
    + rewrite Ein. by split.
Qed.

(** X30.  The SPI reader prints only framed lines: whatever bytes arrive,
    every line printed starts with the marker, has at most 255 characters,
    all of them ASCII or U+FFFD, and holds a line feed nowhere but at its
    end; no more lines are printed than line feeds arrive. *)
Theorem X30_spi_reader_lines (rx : list N) :
  forall st : SpiFramer,
  spi_inv st ->
  spi_inv (spi_run st rx).1 /\
  Forall spi_line_ok (spi_run st rx).2 /\
  (length (spi_run st rx).2 <= length (filter (fun b => b = 10%N) rx))%nat.
Proof.
  induction rx as [|b rx IH]; intros st Hinv.
  { cbn. repeat split; (done || constructor). }
  cbn [spi_run].
  destruct (spi_step_inv st b Hinv) as [H1 H2].
  destruct (spi_step st b) as [st1 out]. cbn [fst snd] in H1, H2.
  destruct (IH st1 H1) as (I1 & I2 & I3).
  destruct (spi_run st1 rx) as [st2 outs]. cbn [fst snd] in *.
  split; [exact I1|].
  destruct out as [l|].
  - destruct (H2 l eq_refl) as [Hl ->]. split; [by constructor|].
    rewrite filter_cons_True by done. cbn [length]. lia.
  - split; [exact I2|].
    destruct (decide (b = 10%N)) as [->|Hb].
    + rewrite filter_cons_True by done. cbn [length]. lia.
    + by rewrite filter_cons_False.
Qed.

Lemma X30_witness :
  Forall spi_line_ok (spi_run spi_init (pystr "xx$GNGGA,1" ++ [10%N; 255%N])).2.
Proof.
  apply (X30_spi_reader_lines (pystr "xx$GNGGA,1" ++ [10%N; 255%N]) spi_init).
  exact I.
Defined.
